(** * The agent turn loop of [packages/runtime/src/agent.ts]

    A shallow embedding of the [Agent] class: the read-before-write
    enforcer ([injectReadBeforeWriteBlocks]), the conversation history
    validator ([validateConversationHistory]), the missing-reference checker
    ([checkMissingFileReferences]) and the turn loop ([processRequest]),
    followed by the properties the specification states about them.

    Conventions.
    - JavaScript values that the code inspects dynamically (tool inputs,
      metadata, message contents of the wrong shape) are [JValue]s; objects
      and arrays that are only tested for truthiness or identity are
      represented by a reference number.
    - Strings are Rocq strings, holding the text in UTF-8; JavaScript
      numbers are integers.
    - Wall-clock readings and [setTimeout] pauses have no counterpart here:
      only the order of the calls made by the code is kept. *)

From Stdlib Require Import ZArith String Ascii List Bool Lia.
From stdpp Require Import base decidable countable option list strings pretty gmap.

Import ListNotations.
Local Open Scope string_scope.
Local Open Scope list_scope.
Local Open Scope nat_scope.

(** The double-quote character, as a one-character string. *)
Definition dq : string := String (ascii_of_nat 34) EmptyString.

(** ** JavaScript values *)

Inductive JValue : Type :=
| JUndefined
| JNull
| JBool (b : bool)
| JNum (n : Z)
| JStr (s : string)
| JObj (ref : nat).

#[global] Instance JValue_eq_dec : EqDecision JValue.
Proof. solve_decision. Defined.

Definition JValue_encode (v : JValue) : (unit + unit) + (bool + Z) + (string + nat) :=
  match v with
  | JUndefined => inl (inl (inl tt))
  | JNull => inl (inl (inr tt))
  | JBool b => inl (inr (inl b))
  | JNum n => inl (inr (inr n))
  | JStr s => inr (inl s)
  | JObj r => inr (inr r)
  end.

Definition JValue_decode (x : (unit + unit) + (bool + Z) + (string + nat)) : JValue :=
  match x with
  | inl (inl (inl _)) => JUndefined
  | inl (inl (inr _)) => JNull
  | inl (inr (inl b)) => JBool b
  | inl (inr (inr n)) => JNum n
  | inr (inl s) => JStr s
  | inr (inr r) => JObj r
  end.

#[global] Instance JValue_countable : Countable JValue.
Proof.
  apply (inj_countable' JValue_encode JValue_decode).
  intros []; reflexivity.
Defined.

(** [!!v] in JavaScript. *)
Definition truthy (v : JValue) : bool :=
  match v with
  | JUndefined | JNull => false
  | JBool b => b
  | JNum n => negb (n =? 0)%Z
  | JStr s => negb (String.eqb s "")
  | JObj _ => true
  end.

(** [typeof v]. *)
Definition typeof (v : JValue) : string :=
  match v with
  | JUndefined => "undefined"
  | JNull => "object"
  | JBool _ => "boolean"
  | JNum _ => "number"
  | JStr _ => "string"
  | JObj _ => "object"
  end.

(** [typeof v === 'string' && v.length > 0] *)
Definition nonEmptyString (v : JValue) : option string :=
  match v with
  | JStr s => if String.eqb s "" then None else Some s
  | _ => None
  end.

(** A tool input: [Record<string, any>], possibly absent ([input?.f]). *)
Definition ToolInput : Type := option (gmap string JValue).

(** [input?.k]: a missing key reads as [undefined]. *)
Definition getField (input : ToolInput) (k : string) : JValue :=
  match input with
  | Some m => default JUndefined (m !! k)
  | None => JUndefined
  end.

(** [{ ...input, k: v }] *)
Definition spreadWith (input : ToolInput) (k : string) (v : JValue) : ToolInput :=
  Some (<[k := v]> (default ∅ input)).

(** ** Content blocks, tool invocations, messages *)

Record ToolUse : Type := mkToolUse {
  tu_id : string;
  tu_name : string;
  tu_input : ToolInput
}.

Record ToolResult : Type := mkToolResult {
  tool_use_id : string;
  tr_content : string;
  is_error : bool;
  (** [metadata?.path] *)
  metadata_path : JValue
}.

(** The typed content blocks of the chat API.  [OtherBlock] stands for any
    block whose [type] the agent does not look at (thinking blocks, ...). *)
Inductive ContentBlock : Type :=
| TextBlock (text : string)
| ToolUseBlock (id name : string) (input : ToolInput)
| ToolResultBlock (r : ToolResult)
| ServerToolUseBlock (id name : string)
| WebSearchToolResultBlock (tool_use_id : string)
| OtherBlock (type : string).

Inductive Role : Type := user | assistant.

#[global] Instance Role_eq_dec : EqDecision Role.
Proof. solve_decision. Defined.

(** [Message.content] is declared as a list of blocks, but histories can be
    loaded from outside, so the validator also meets other values. *)
Inductive MessageContent : Type :=
| ContentArray (blocks : list ContentBlock)
| ContentOther (v : JValue).

Record Message : Type := mkMessage {
  role : Role;
  content : MessageContent
}.

(** The [tool_use] blocks of a block sequence, as executable invocations. *)
Definition toolUseOf (blk : ContentBlock) : list ToolUse :=
  match blk with
  | ToolUseBlock id name input => [mkToolUse id name input]
  | _ => []
  end.

Definition toolUsesOf (blocks : list ContentBlock) : list ToolUse :=
  flat_map toolUseOf blocks.

(** ** The read-before-write enforcer *)

Module Enforcer.

Definition READ_TOOL : string := "either-view".
Definition EDIT_TOOL : string := "either-line-replace".
Definition WRITE_TOOLS : gset string := {[ "either-line-replace"; "either-write" ]}.

Definition ENFORCER_WARNING : string :=
  "No `needle` provided; injected a read to reduce risk.".

(** The three locals of [injectReadBeforeWriteBlocks].  [injectedSoFar]
    counts the synthetic ids drawn so far in this call. *)
Record State : Type := mkState {
  out : list ContentBlock;
  toolUsesCollected : list ToolUse;
  seenReadForPath : gset string;
  injectedSoFar : nat
}.

Definition initial : State := mkState [] [] ∅ 0.

Definition pushAndCollect (blk : ContentBlock) (st : State) : State :=
  mkState (out st ++ [blk])
          (match blk with
           | ToolUseBlock id name input => toolUsesCollected st ++ [mkToolUse id name input]
           | _ => toolUsesCollected st
           end)
          (seenReadForPath st)
          (injectedSoFar st).

Definition markRead (path : string) (st : State) : State :=
  mkState (out st) (toolUsesCollected st) ({[ path ]} ∪ seenReadForPath st) (injectedSoFar st).

Definition drawId (st : State) : State :=
  mkState (out st) (toolUsesCollected st) (seenReadForPath st) (S (injectedSoFar st)).

(** The synthetic read placed before an edit of [path]. *)
Definition injectedRead (id path : string) : ContentBlock :=
  ToolUseBlock id READ_TOOL (Some {[ "path" := JStr path ]}).

Section WithIds.

(** [`enforcer-view-${Date.now()}-${Math.random()...}`]: the k-th id
    generated during one call. *)
Variable injectedId : nat -> string.

(** One iteration of [for (const blk of contentBlocks)]. *)
Definition step (st : State) (blk : ContentBlock) : State :=
  match blk with
  | ToolUseBlock id name input =>
      if decide (name = READ_TOOL) then
        (* Track explicit reads *)
        let st1 := match nonEmptyString (getField input "path") with
                   | Some path => markRead path st
                   | None => st
                   end in
        pushAndCollect blk st1
      else if decide (name = EDIT_TOOL) then
        let st1 := match nonEmptyString (getField input "path") with
                   | Some path =>
                       if decide (path ∈ seenReadForPath st) then st
                       else
                         let injected := injectedRead (injectedId (injectedSoFar st)) path in
                         markRead path (pushAndCollect injected (drawId st))
                   | None => st
                   end in
        (* Optionally annotate missing needle (soft warning) *)
        let blk' := if truthy (getField input "needle") then blk
                    else ToolUseBlock id name
                           (spreadWith input "_enforcerWarning" (JStr ENFORCER_WARNING)) in
        pushAndCollect blk' st1
      else if decide (name ∈ WRITE_TOOLS) then pushAndCollect blk st
      else pushAndCollect blk st
  | _ => pushAndCollect blk st
  end.

Definition run (st : State) (contentBlocks : list ContentBlock) : State :=
  fold_left step contentBlocks st.

(** [toolUsesCollected] only ever receives [tool_use] records, so the final
    [filter (b => b.type === 'tool_use')] keeps all of it. *)
Definition injectReadBeforeWriteBlocks (contentBlocks : list ContentBlock)
  : list ContentBlock * list ToolUse :=
  let st := run initial contentBlocks in
  (out st, toolUsesCollected st).

End WithIds.

End Enforcer.

(** ** The conversation history validator *)

Module Validator.

Inductive ValidationError : Type :=
| InvalidContentFormat (idx : nat) (got : string)
| EmptyContentArray (idx : nat).

(** The index cited by the thrown error. *)
Definition errorIndex (e : ValidationError) : nat :=
  match e with
  | InvalidContentFormat idx _ => idx
  | EmptyContentArray idx => idx
  end.

(** The message of the thrown [Error]. *)
Definition errorMessage (e : ValidationError) : string :=
  match e with
  | InvalidContentFormat idx got =>
      "Conversation history validation failed: Message " +:+ pretty idx +:+
      " has invalid content format (expected array, got " +:+ got +:+ "). " +:+
      "This will cause Claude API to reject the request with " +:+ dq +:+
      "Input should be a valid list" +:+ dq +:+ " error."
  | EmptyContentArray idx =>
      "Conversation history validation failed: Message " +:+ pretty idx +:+
      " has empty content array. " +:+
      "This will cause Claude API to reject the request with " +:+ dq +:+
      "all messages must have non-empty content" +:+ dq +:+ " error."
  end.

(** The one line written with [console.error] for a [server_tool_use] block
    that has no [web_search_tool_result] with its id. *)
Inductive Warning : Type :=
| ServerToolUseWithoutResult (idx : nat) (id : string).

Definition isServerToolUse (b : ContentBlock) : bool :=
  match b with ServerToolUseBlock _ _ => true | _ => false end.

Definition isWebSearchToolResult (b : ContentBlock) : bool :=
  match b with WebSearchToolResultBlock _ => true | _ => false end.

(** [wsr.tool_use_id === stu.id] *)
Definition resultMatches (stu wsr : ContentBlock) : bool :=
  match stu, wsr with
  | ServerToolUseBlock id _, WebSearchToolResultBlock tid => bool_decide (tid = id)
  | _, _ => false
  end.

Definition blockId (b : ContentBlock) : string :=
  match b with
  | ServerToolUseBlock id _ => id
  | ToolUseBlock id _ _ => id
  | _ => ""
  end.

Definition pairingWarnings (idx : nat) (blocks : list ContentBlock) : list Warning :=
  let serverToolUses := List.filter isServerToolUse blocks in
  let webSearchResults := List.filter isWebSearchToolResult blocks in
  flat_map (fun stu =>
              if existsb (resultMatches stu) webSearchResults then []
              else [ServerToolUseWithoutResult idx (blockId stu)])
           serverToolUses.

(** The body of the [forEach] callback for message [idx] of a history of
    [len] messages: the warnings it logs, and the error it throws if any. *)
Definition checkMessage (len idx : nat) (msg : Message)
  : list Warning * option ValidationError :=
  match content msg with
  | ContentOther v => ([], Some (InvalidContentFormat idx (typeof v)))
  | ContentArray blocks =>
      let isFinalAssistant :=
        bool_decide (idx = len - 1) && bool_decide (role msg = assistant) in
      if (length blocks =? 0)%nat && negb isFinalAssistant
      then ([], Some (EmptyContentArray idx))
      else
        (if bool_decide (role msg = assistant) then pairingWarnings idx blocks else [],
         None)
  end.

Fixpoint validateFrom (len idx : nat) (msgs : list Message)
  : list Warning * option ValidationError :=
  match msgs with
  | [] => ([], None)
  | msg :: rest =>
      match checkMessage len idx msg with
      | (ws, Some e) => (ws, Some e)
      | (ws, None) =>
          let '(ws', r) := validateFrom len (S idx) rest in (ws ++ ws', r)
      end
  end.

Definition validateConversationHistory (conversationHistory : list Message)
  : list Warning * option ValidationError :=
  validateFrom (length conversationHistory) 0 conversationHistory.

End Validator.

(** ** The regular expressions of the missing-reference checker

    A backtracking matcher for the fragment of JavaScript regular
    expressions the checker uses: character tests, sequence, alternation,
    greedy repetition and one capturing group. *)

Module Regex.

Inductive re : Type :=
| Chr (p : ascii -> bool)
| Seq (r1 r2 : re)
| Alt (r1 r2 : re)
| Star (r : re)
| Group (r : re).

Definition Plus (r : re) : re := Seq r (Star r).

(** A match in progress: the rest of the subject and the text captured by
    group 1. *)
Definition Result : Type := (list ascii * option (list ascii))%type.

Fixpoint matchHere (r : re) (s : list ascii) (cap : option (list ascii))
    (k : list ascii -> option (list ascii) -> option Result) {struct r}
  : option Result :=
  match r with
  | Chr p =>
      match s with
      | c :: s' => if p c then k s' cap else None
      | [] => None
      end
  | Seq r1 r2 => matchHere r1 s cap (fun s' cap' => matchHere r2 s' cap' k)
  | Alt r1 r2 =>
      match matchHere r1 s cap k with
      | Some x => Some x
      | None => matchHere r2 s cap k
      end
  | Star r1 =>
      (fix iterate (n : nat) (s : list ascii) (cap : option (list ascii)) : option Result :=
         match n with
         | 0 => k s cap
         | S n' =>
             match matchHere r1 s cap
                     (fun s' cap' =>
                        if (length s' <? length s)%nat then iterate n' s' cap' else None) with
             | Some x => Some x
             | None => k s cap
             end
         end) (length s) s cap
  | Group r1 =>
      matchHere r1 s cap
        (fun s' cap' => k s' (Some (firstn (length s - length s') s)))
  end.

(** One match: the whole matched text ([match[0]]) and group 1
    ([match[1]]). *)
Record Match : Type := mkMatch {
  whole : string;
  group1 : string
}.

(** [subject.matchAll(/r/g)]: leftmost matches, each search resuming where
    the previous match ended. *)
Fixpoint matchAllFrom (fuel : nat) (r : re) (s : list ascii) : list Match :=
  match fuel with
  | 0 => []
  | S fuel' =>
      match s with
      | [] => []
      | c :: s' =>
          match matchHere r s None (fun rest cap => Some (rest, cap)) with
          | Some (rest, cap) =>
              let m := mkMatch (string_of_list_ascii (firstn (length s - length rest) s))
                               (string_of_list_ascii (default [] cap)) in
              if (length rest <? length s)%nat
              then m :: matchAllFrom fuel' r rest
              else m :: matchAllFrom fuel' r s'
          | None => matchAllFrom fuel' r s'
          end
      end
  end.

Definition matchAll (r : re) (subject : string) : list Match :=
  let s := list_ascii_of_string subject in
  matchAllFrom (length s) r s.

(** Character tests. *)
Definition lower (c : ascii) : ascii :=
  let n := nat_of_ascii c in
  if ((65 <=? n) && (n <=? 90))%nat then ascii_of_nat (n + 32) else c.

Definition exactly (c : ascii) : re := Chr (fun x => bool_decide (x = c)).
Definition ignoringCase (c : ascii) : re := Chr (fun x => bool_decide (lower x = lower c)).
Definition noneOf (cs : list ascii) : re :=
  Chr (fun x => negb (existsb (fun c => bool_decide (x = c)) cs)).
Definition oneOf (cs : list ascii) : re :=
  Chr (fun x => existsb (fun c => bool_decide (x = c)) cs).

Definition dquote : ascii := ascii_of_nat 34.
Definition squote : ascii := ascii_of_nat 39.

Definition byte (n : nat) : re := Chr (fun x => (nat_of_ascii x =? n)%nat).
Definition byteBetween (lo hi : nat) : re :=
  Chr (fun x => ((lo <=? nat_of_ascii x) && (nat_of_ascii x <=? hi))%nat).

(** [\s]: the white space and the line terminators of JavaScript.  Those of
    ASCII are the codes 9 to 13 and 32; the others are, in UTF-8, U+00A0
    (C2 A0), U+1680 (E1 9A 80), U+2000 to U+200A, U+2028, U+2029 and U+202F
    (E2 80 followed by 80 to 8A, A8, A9 or AF), U+205F (E2 81 9F), U+3000
    (E3 80 80) and U+FEFF (EF BB BF). *)
Definition space : re :=
  Alt (Chr (fun x => existsb (fun n => (nat_of_ascii x =? n)%nat) [32; 9; 10; 11; 12; 13]))
 (Alt (Seq (byte 194) (byte 160))
 (Alt (Seq (byte 225) (Seq (byte 154) (byte 128)))
 (Alt (Seq (byte 226)
           (Seq (byte 128)
                (Alt (byteBetween 128 138) (Alt (byte 168) (Alt (byte 169) (byte 175))))))
 (Alt (Seq (byte 226) (Seq (byte 129) (byte 159)))
 (Alt (Seq (byte 227) (Seq (byte 128) (byte 128)))
      (Seq (byte 239) (Seq (byte 187) (byte 191)))))))).

(** [\w] *)
Definition word : re :=
  Chr (fun x => let n := nat_of_ascii x in
                (((48 <=? n) && (n <=? 57)) || ((65 <=? n) && (n <=? 90))
                 || ((97 <=? n) && (n <=? 122)) || (n =? 95))%nat).

Fixpoint literalWith (chr : ascii -> re) (c : ascii) (rest : string) : re :=
  match rest with
  | EmptyString => chr c
  | String c' rest' => Seq (chr c) (literalWith chr c' rest')
  end.

Definition quote : re := oneOf [dquote; squote].
Definition quoted : re := Seq quote (Seq (Group (Plus (noneOf [dquote; squote]))) quote).

(** [/<script[^>]+src=[Q']([^Q']+)[Q']/gi], writing Q for the double
    quote character here and below. *)
Definition scriptSrc : re :=
  Seq (literalWith ignoringCase "<" "script")
      (Seq (Plus (noneOf [">"%char]))
           (Seq (literalWith ignoringCase "s" "rc=") quoted)).

(** [/<link[^>]+href=[Q']([^Q']+)[Q'][^>]*>/gi] *)
Definition linkHref : re :=
  Seq (literalWith ignoringCase "<" "link")
      (Seq (Plus (noneOf [">"%char]))
           (Seq (literalWith ignoringCase "h" "ref=")
                (Seq quoted (Seq (Star (noneOf [">"%char])) (exactly ">"))))).

(** [(?:\{[^}]+\}|[\w]+)] *)
Definition binding : re :=
  Alt (Seq (exactly "{") (Seq (Plus (noneOf ["}"%char])) (exactly "}")))
      (Plus word).

(** The import pattern: [import], [\s+], a binding, any number of
    [\s*,\s*] followed by a binding, [\s+from\s+], then a quoted group
    [['Q]([^'Q]+)['Q]]; flag [g] only. *)
Definition importFrom : re :=
  Seq (literalWith exactly "i" "mport")
      (Seq (Plus space)
           (Seq (Seq binding
                     (Star (Seq (Star space) (Seq (exactly ",") (Seq (Star space) binding)))))
                (Seq (Plus space)
                     (Seq (literalWith exactly "f" "rom")
                          (Seq (Plus space) quoted))))).

End Regex.

(** ** The missing-reference checker *)

Module Checker.

Definition chars (s : string) : list ascii := list_ascii_of_string s.

Fixpoint isPrefix (p s : list ascii) : bool :=
  match p, s with
  | [], _ => true
  | a :: p', b :: s' => bool_decide (a = b) && isPrefix p' s'
  | _ :: _, [] => false
  end.

Fixpoint includesFrom (s p : list ascii) : bool :=
  isPrefix p s || match s with
                  | [] => false
                  | _ :: s' => includesFrom s' p
                  end.

Definition toLowerCase (s : string) : string :=
  string_of_list_ascii (map Regex.lower (chars s)).
Definition startsWith (s p : string) : bool := isPrefix (chars p) (chars s).
Definition endsWith (s p : string) : bool := isPrefix (rev (chars p)) (rev (chars s)).
Definition includes (s p : string) : bool := includesFrom (chars s) (chars p).

(** [s.replace(/^\.?\//, '')] *)
Definition stripDotSlashOrSlash (s : string) : string :=
  match s with
  | String "." (String "/" rest) => rest
  | String "/" rest => rest
  | _ => s
  end.

(** [s.replace(/^\.\//, '')] *)
Definition stripDotSlash (s : string) : string :=
  match s with
  | String "." (String "/" rest) => rest
  | _ => s
  end.

Record MissingRef : Type := mkMissingRef {
  htmlFile : string;
  tag : string;
  attr : string;
  file : string
}.

Definition isWriteOrEdit (tu : ToolUse) : bool :=
  bool_decide (tu_name tu = "either-write") || bool_decide (tu_name tu = "either-line-replace").

(** [path?.method(...)]: [undefined] on a nullish path, the method's result on
    a string, and a [TypeError] (here [None]) on any other value, which has
    no such method. *)
Definition optionalCall (path : JValue) (method : string -> bool) : option bool :=
  match path with
  | JUndefined | JNull => Some false
  | JStr p => Some (method p)
  | _ => None
  end.

(** The callback of the first [toolUses.filter]. *)
Definition isHtmlWrite (tu : ToolUse) : option bool :=
  if isWriteOrEdit tu
  then optionalCall (getField (tu_input tu) "path")
         (fun p => endsWith (toLowerCase p) ".html")
  else Some false.

(** The callback of the second [toolUses.filter]; [||] stops at the first
    true disjunct. *)
Definition isReactWrite (tu : ToolUse) : option bool :=
  if isWriteOrEdit tu
  then optionalCall (getField (tu_input tu) "path")
         (fun p => endsWith p ".jsx" || endsWith p ".tsx" || endsWith p ".js" || endsWith p ".ts")
  else Some false.

(** [toolUses.filter(p)], keeping with each selected invocation its position:
    the invocations are distinct objects, so [toolUses.indexOf] gives each
    one its own index back.  [None] when a callback throws. *)
Fixpoint filterIndexed (p : ToolUse -> option bool) (idx : nat) (toolUses : list ToolUse)
  : option (list (nat * ToolUse)) :=
  match toolUses with
  | [] => Some []
  | tu :: rest =>
      b ← p tu;
      kept ← filterIndexed p (S idx) rest;
      Some (if b : bool then (idx, tu) :: kept else kept)
  end.

Section WithCreatedFiles.

Variable createdFiles : gset JValue.
Variable toolResults : list ToolResult.

Definition has (p : string) : bool := bool_decide (JStr p ∈ createdFiles).

(** The guards shared by both loops: the content to scan for the write at
    [resultIdx], if the loop body does not [continue]. *)
Definition contentToScan (resultIdx : nat) (write : ToolUse) : option (string * string) :=
  match getField (tu_input write) "path" with
  | JStr path =>
      if negb (truthy (JStr path)) then None
      else
        match toolResults !! resultIdx with
        | None => None
        | Some result =>
            if is_error result then None
            else
              let content :=
                if bool_decide (tu_name write = "either-write")
                then getField (tu_input write) "content" else JNull in
              match content with
              | JStr c => if negb (truthy (JStr c)) then None else Some (path, c)
              | _ => None
              end
        end
  | _ => None
  end.

Definition missingScripts (htmlPath htmlContent : string) : list MissingRef :=
  flat_map (fun m =>
              let scriptPath := Regex.group1 m in
              let normalizedPath := stripDotSlashOrSlash scriptPath in
              if negb (has normalizedPath) && negb (has scriptPath)
              then [mkMissingRef htmlPath "script" "src" scriptPath]
              else [])
           (Regex.matchAll Regex.scriptSrc htmlContent).

Definition missingLinks (htmlPath htmlContent : string) : list MissingRef :=
  flat_map (fun m =>
              let fullTag := Regex.whole m in
              if includes fullTag "stylesheet" then
                let linkPath := Regex.group1 m in
                let normalizedPath := stripDotSlashOrSlash linkPath in
                if negb (has normalizedPath) && negb (has linkPath)
                then [mkMissingRef htmlPath "link" "href" linkPath]
                else []
              else [])
           (Regex.matchAll Regex.linkHref htmlContent).

Definition possiblePaths (normalizedPath : string) : list string :=
  [ normalizedPath;
    normalizedPath +:+ ".jsx";
    normalizedPath +:+ ".tsx";
    normalizedPath +:+ ".js";
    normalizedPath +:+ ".ts";
    normalizedPath +:+ "/index.jsx";
    normalizedPath +:+ "/index.tsx";
    normalizedPath +:+ "/index.js";
    normalizedPath +:+ "/index.ts" ].

Definition srcPaths (normalizedPath : string) : list string :=
  map (fun p => "src/" +:+ p) (possiblePaths normalizedPath).

Definition importExists (importPath : string) : bool :=
  let normalizedPath := stripDotSlash importPath in
  existsb (fun p => has p || has ("./" +:+ p) || has ("/" +:+ p))
          (possiblePaths normalizedPath ++ srcPaths normalizedPath).

Definition missingImports (filePath content : string) : list MissingRef :=
  flat_map (fun m =>
              let importPath := Regex.group1 m in
              if negb (startsWith importPath ".") then []
              else if importExists importPath then []
              else [mkMissingRef filePath "import" "from" importPath])
           (Regex.matchAll Regex.importFrom content).

Definition scanHtmlWrite (entry : nat * ToolUse) : list MissingRef :=
  match contentToScan entry.1 entry.2 with
  | Some (htmlPath, htmlContent) =>
      missingScripts htmlPath htmlContent ++ missingLinks htmlPath htmlContent
  | None => []
  end.

Definition scanReactWrite (entry : nat * ToolUse) : list MissingRef :=
  match contentToScan entry.1 entry.2 with
  | Some (filePath, content) => missingImports filePath content
  | None => []
  end.

(** [None] stands for the [TypeError] of a path that is neither nullish nor
    a string. *)
Definition checkMissingFileReferences (toolUses : list ToolUse) : option (list MissingRef) :=
  htmlWrites ← filterIndexed isHtmlWrite 0 toolUses;
  let missingHtml := flat_map scanHtmlWrite htmlWrites in
  reactWrites ← filterIndexed isReactWrite 0 toolUses;
  Some (missingHtml ++ flat_map scanReactWrite reactWrites).

End WithCreatedFiles.

(** The text appended to the last tool result of the turn. *)
Definition describe (ref : MissingRef) : string :=
  "  - " +:+ htmlFile ref +:+ " references <" +:+ tag ref +:+ " " +:+ attr ref +:+ "=" +:+
  dq +:+ file ref +:+ dq +:+ "> but " +:+ file ref +:+ " was not created".

Definition newline : string := String (ascii_of_nat 10) EmptyString.

Fixpoint join (sep : string) (parts : list string) : string :=
  match parts with
  | [] => ""
  | [p] => p
  | p :: rest => p +:+ sep +:+ join sep rest
  end.

Definition warningMessage (missingRefs : list MissingRef) : string :=
  newline +:+ newline +:+ "⚠️ WARNING: Missing file references detected:" +:+ newline +:+
  join newline (map describe missingRefs) +:+ newline +:+ newline +:+
  "You MUST create these files in your next response to make the app functional.".

End Checker.

(** ** The turn loop *)

Module Loop.

Inductive StreamingPhase : Type := thinking | reasoning | code_writing | building | completed.

Inductive FileOpState : Type := creating | editing | created | edited.

Inductive Operation : Type := create | edit.

(** Which of the optional handlers the caller supplied. *)
Record StreamingCallbacks : Type := mkCallbacks {
  onDelta : bool;
  onReasoning : bool;
  onPhase : bool;
  onThinkingComplete : bool;
  onFileOperation : bool;
  onToolStart : bool;
  onToolEnd : bool;
  onComplete : bool
}.

(** [callbacks?.handler] *)
Definition supplied (callbacks : option StreamingCallbacks)
    (handler : StreamingCallbacks -> bool) : bool :=
  match callbacks with
  | Some cb => handler cb
  | None => false
  end.

Record Delta : Type := mkDelta {
  delta_type : string;
  delta_content : string
}.

Record Response : Type := mkResponse {
  r_content : list ContentBlock;
  inputTokens : nat;
  outputTokens : nat;
  stopReason : option string
}.

(** What one [sendMessage] call does: the deltas it streams to [onDelta],
    then the response it resolves to or the error it rejects with. *)
Definition SendResult : Type := (list Delta * (string + Response))%type.

(** The observable actions of a request, in the order the code performs
    them.  [SendMessage] and [ModelReplied] bracket one model round-trip;
    [ExecuteTool] is the call [toolRunner.executeTools([toolUse])]. *)
Inductive Event : Type :=
| SendMessage (history : list Message)
| ModelReplied (result : SendResult)
| ValidatorWarning (w : Validator.Warning)
| PlaceholderWarning
| Phase (p : StreamingPhase)
| ThinkingComplete
| Reasoning (text : string)
| DeltaOut (type content : string)
| Stdout (content : string)
| FileOperation (state : FileOpState) (path : JValue)
| ToolStart (name toolUseId : string)
| ToolEnd (name toolUseId : string)
| ExecuteTool (toolUse : ToolUse)
| MissingRefsWarning (message : string)
| RunVerification (changedFiles : gset JValue)
| Complete (inputTokens outputTokens : nat).

Definition emit (b : bool) (e : Event) : list Event := if b then [e] else [].

Inductive AbortReason : Type :=
| ValidationFailed (e : Validator.ValidationError)
| ModelClientError (message : string)
| TypeError.

(** The text buffers and flags shared by the loop and its [onDelta] closure. *)
Record Buffers : Type := mkBuffers {
  thinkingBuffer : string;
  isInThinkingPhase : bool;
  summaryBuffer : string;
  isInSummaryPhase : bool
}.

(** The two request-wide file-operation tables. *)
Record FileTracking : Type := mkFileTracking {
  fileOpsThisRequest : gmap JValue Operation;
  filesCreatedThisRequest : gset JValue
}.

Record LoopState (World : Type) : Type := mkLoopState {
  world : World;
  conversationHistory : list Message;
  finalResponse : string;
  turnCount : nat;
  changedFiles : gset JValue;
  hasExecutedTools : bool;
  totalInputTokens : nat;
  totalOutputTokens : nat;
  justExecutedTools : bool;
  buffers : Buffers;
  files : FileTracking
}.

Arguments mkLoopState {World}.
Arguments world {World}.
Arguments conversationHistory {World}.
Arguments finalResponse {World}.
Arguments turnCount {World}.
Arguments changedFiles {World}.
Arguments hasExecutedTools {World}.
Arguments totalInputTokens {World}.
Arguments totalOutputTokens {World}.
Arguments justExecutedTools {World}.
Arguments buffers {World}.
Arguments files {World}.

(** How one pass through the body of the [while] ends. *)
Inductive TurnResult (World : Type) : Type :=
| Continue (st : LoopState World)
| Break (st : LoopState World)
| Abort (reason : AbortReason).

Arguments Continue {World}.
Arguments Break {World}.
Arguments Abort {World}.

Inductive LoopResult (World : Type) : Type :=
| Exited (st : LoopState World)
| Aborted (reason : AbortReason)
| OutOfFuel.

Arguments Exited {World}.
Arguments Aborted {World}.
Arguments OutOfFuel {World}.

(** The result of [processRequest]: the returned text (with the final state
    of the agent) or the exception that escapes. *)
Inductive Outcome (World : Type) : Type :=
| Returned (response : string) (st : LoopState World)
| Threw (reason : AbortReason)
| Unfinished.

Arguments Returned {World}.
Arguments Threw {World}.
Arguments Unfinished {World}.

(** [for (let i = 0; i < buf.length; i += size) buf.slice(i, i + size)] *)
Fixpoint chunksFrom (fuel size : nat) (buf : string) : list string :=
  match fuel with
  | 0 => []
  | S fuel' =>
      if bool_decide (buf = "") then []
      else substring 0 size buf
             :: chunksFrom fuel' size (substring size (String.length buf - size) buf)
  end.

Definition isTextBlock (b : ContentBlock) : bool :=
  match b with TextBlock _ => true | _ => false end.

Definition blockText (b : ContentBlock) : string :=
  match b with TextBlock t => t | _ => "" end.

(** [content.filter(c => c.type === 'text').map(c => c.text).join('\n')] *)
Definition textBlocks (content : list ContentBlock) : string :=
  Checker.join Checker.newline (map blockText (List.filter isTextBlock content)).

Definition isWriteTool (name : string) : bool :=
  bool_decide (name = "either-write") || bool_decide (name = "either-line-replace").

Section WithEnvironment.

(** The collaborators of the loop.  [World] is whatever state the model
    service, the workspace and the verifier have between them; each call
    may read and change it. *)
Variable World : Type.

(** [modelClient.sendMessage(history, systemPrompt, tools, options)] *)
Variable sendMessage : World -> list Message -> World * SendResult.

(** [toolRunner.executeTools([toolUse])] *)
Variable executeTools : World -> ToolUse -> World * list ToolResult.

(** [this.runVerification(changedFiles)] *)
Variable runVerification : World -> gset JValue -> World * string.

(** [JSON.stringify(input, null, 2)] *)
Variable stringify : ToolInput -> string.

(** The id the enforcer generates for its k-th injection in a given turn. *)
Variable injectedId : nat -> nat -> string.

(** [constants.js] is not among the sources.  The loops that step by
    [REASONING_STREAM_CHUNK_SIZE] only make progress for a positive size. *)
Variable MAX_AGENT_TURNS : nat.
Variable REASONING_STREAM_CHUNK_SIZE : positive.

(** [options.dryRun] and the [callbacks] argument. *)
Variable dryRun : bool.
Variable callbacks : option StreamingCallbacks.

Definition chunks (buf : string) : list string :=
  chunksFrom (String.length buf) (Pos.to_nat REASONING_STREAM_CHUNK_SIZE) buf.

(** The [onDelta] closure handed to the model client, called once per
    streamed delta.  [hasEmittedThinking] is the turn-local flag it closes
    over; the result carries the events of this call. *)
Definition handleDelta (hasEmittedThinking : bool) (buf : Buffers) (delta : Delta)
  : bool * Buffers * list Event :=
  if bool_decide (delta_type delta = "text") then
    let '(hasEmittedThinking, buf, evStart) :=
      if negb hasEmittedThinking && supplied callbacks onPhase
      then (true,
            mkBuffers (thinkingBuffer buf) true (summaryBuffer buf) (isInSummaryPhase buf),
            [Phase thinking])
      else (hasEmittedThinking, buf, []) in
    if isInThinkingPhase buf then
      (hasEmittedThinking,
       mkBuffers (thinkingBuffer buf +:+ delta_content delta) (isInThinkingPhase buf)
                 (summaryBuffer buf) (isInSummaryPhase buf),
       evStart)
    else if isInSummaryPhase buf then
      (hasEmittedThinking,
       mkBuffers (thinkingBuffer buf) (isInThinkingPhase buf)
                 (summaryBuffer buf +:+ delta_content delta) (isInSummaryPhase buf),
       evStart)
    else
      (hasEmittedThinking, buf,
       evStart ++ [if supplied callbacks onDelta
                   then DeltaOut (delta_type delta) (delta_content delta)
                   else Stdout (delta_content delta)])
  else (hasEmittedThinking, buf, []).

(** The deltas of one model call, in the order they are streamed. *)
Fixpoint handleDeltas (hasEmittedThinking : bool) (buf : Buffers) (deltas : list Delta)
  : bool * Buffers * list Event :=
  match deltas with
  | [] => (hasEmittedThinking, buf, [])
  | delta :: rest =>
      let '(hasEmittedThinking, buf, evs) := handleDelta hasEmittedThinking buf delta in
      let '(hasEmittedThinking, buf, evs') := handleDeltas hasEmittedThinking buf rest in
      (hasEmittedThinking, buf, evs ++ evs')
  end.

Definition nonEmpty (s : string) : bool := negb (bool_decide (s = "")).

(** The thinking-to-reasoning transition after the response has arrived. *)
Definition thinkingTransition (buf : Buffers) (toolUses : list ToolUse)
  : Buffers * list Event :=
  if isInThinkingPhase buf && nonEmpty (thinkingBuffer buf) && (0 <? length toolUses) then
    (mkBuffers "" false (summaryBuffer buf) (isInSummaryPhase buf),
     emit (supplied callbacks onThinkingComplete) ThinkingComplete
     ++ emit (supplied callbacks onPhase) (Phase reasoning)
     ++ (if supplied callbacks onReasoning
         then map Reasoning (chunks (thinkingBuffer buf)) else []))
  else if isInThinkingPhase buf && nonEmpty (thinkingBuffer buf) && (length toolUses =? 0) then
    (mkBuffers "" false (summaryBuffer buf) (isInSummaryPhase buf),
     emit (supplied callbacks onDelta) (DeltaOut "text" (thinkingBuffer buf)))
  else (buf, []).

(** The buffered summary of the final turn, streamed after the "building"
    phase change. *)
Definition flushSummary (buf : Buffers) : Buffers * list Event :=
  if isInSummaryPhase buf && nonEmpty (summaryBuffer buf)
  then (mkBuffers (thinkingBuffer buf) (isInThinkingPhase buf) "" false,
        emit (supplied callbacks onPhase) (Phase building)
        ++ (if supplied callbacks onDelta
            then map (DeltaOut "text") (chunks (summaryBuffer buf)) else []))
  else (buf, []).

(** The locals of the tool-execution [for] loop. *)
Record ToolLoop : Type := mkToolLoop {
  tl_world : World;
  tl_files : FileTracking;
  newFileOpsThisTurn : gmap JValue Operation;
  toolResults : list ToolResult
}.

Definition progressiveState (operation : Operation) : FileOpState :=
  match operation with create => creating | edit => editing end.

Definition completedState (operation : option Operation) : FileOpState :=
  match operation with Some create => created | _ => edited end.

(** The bookkeeping at the head of the iteration: which operation this is,
    and the "Creating..." or "Editing..." notification if the path has not
    been announced in this request. *)
Definition trackFileOperation (ft : FileTracking) (newOps : gmap JValue Operation)
    (toolUse : ToolUse) : FileTracking * gmap JValue Operation * list Event :=
  let filePath := getField (tu_input toolUse) "path" in
  if truthy filePath && isWriteTool (tu_name toolUse) then
    let '(operation, filesCreated) :=
      if bool_decide (filePath ∈ filesCreatedThisRequest ft)
      then (edit, filesCreatedThisRequest ft)
      else if bool_decide (tu_name toolUse = "either-write")
           then (create, {[ filePath ]} ∪ filesCreatedThisRequest ft)
           else (edit, filesCreatedThisRequest ft) in
    if negb (bool_decide (is_Some (fileOpsThisRequest ft !! filePath))) then
      (mkFileTracking (<[filePath := operation]> (fileOpsThisRequest ft)) filesCreated,
       <[filePath := operation]> newOps,
       emit (supplied callbacks onFileOperation)
            (FileOperation (progressiveState operation) filePath))
    else (mkFileTracking (fileOpsThisRequest ft) filesCreated, newOps, [])
  else (ft, newOps, []).

(** One iteration of [for (const toolUse of toolUses)], with the events it
    emits. *)
Definition executeToolUse (tl : ToolLoop) (toolUse : ToolUse) : ToolLoop * list Event :=
  let filePath := getField (tu_input toolUse) "path" in
  let '(ft, newOps, evStarting) :=
    trackFileOperation (tl_files tl) (newFileOpsThisTurn tl) toolUse in
  let evToolStart :=
    emit (supplied callbacks onToolStart && negb (truthy filePath))
         (ToolStart (tu_name toolUse) (tu_id toolUse)) in
  let '(w, result) := executeTools (tl_world tl) toolUse in
  let evFinished :=
    if truthy filePath && bool_decide (is_Some (newOps !! filePath))
    then emit (supplied callbacks onFileOperation)
              (FileOperation (completedState (newOps !! filePath)) filePath)
    else [] in
  let evToolEnd :=
    emit (supplied callbacks onToolEnd && negb (truthy filePath))
         (ToolEnd (tu_name toolUse) (tu_id toolUse)) in
  (mkToolLoop w ft newOps (toolResults tl ++ result),
   evStarting ++ evToolStart ++ [ExecuteTool toolUse] ++ evFinished ++ evToolEnd).

(** The whole [for] loop, from the given locals. *)
Fixpoint executeToolUsesFrom (tl : ToolLoop) (toolUses : list ToolUse)
  : ToolLoop * list Event :=
  match toolUses with
  | [] => (tl, [])
  | toolUse :: rest =>
      let '(tl, evs) := executeToolUse tl toolUse in
      let '(tl, evs') := executeToolUsesFrom tl rest in
      (tl, evs ++ evs')
  end.

Definition executeToolUses (w : World) (ft : FileTracking) (toolUses : list ToolUse)
  : ToolLoop * list Event :=
  executeToolUsesFrom (mkToolLoop w ft ∅ []) toolUses.

(** The synthesized results of a dry run. *)
Definition dryRunResult (tu : ToolUse) : ToolResult :=
  mkToolResult (tu_id tu)
    ("[DRY RUN] Would execute: " +:+ tu_name tu +:+ " with input: " +:+ stringify (tu_input tu))
    false JUndefined.

(** The paths [metadata.path] of the results that are not errors. *)
Definition reportedPaths (results : list ToolResult) : gset JValue :=
  fold_left (fun acc result =>
               if truthy (metadata_path result) && negb (is_error result)
               then {[ metadata_path result ]} ∪ acc else acc)
            results ∅.

(** [lastResult.content = (lastResult.content || '') + warningMessage] *)
Definition appendToLast (results : list ToolResult) (warning : string) : list ToolResult :=
  match rev results with
  | [] => results
  | lastResult :: before =>
      rev before ++ [mkToolResult (tool_use_id lastResult)
                                  (tr_content lastResult +:+ warning)
                                  (is_error lastResult)
                                  (metadata_path lastResult)]
  end.

(** The loop body from the arrival of the response to the end of the
    iteration.  [st] already has this turn's [turnCount], the world after the
    model call and the buffers as the [onDelta] closure left them. *)
Definition afterResponse (st : LoopState World) (response : Response)
  : list Event * TurnResult World :=
  let totalIn := totalInputTokens st + inputTokens response in
  let totalOut := totalOutputTokens st + outputTokens response in
  let text := textBlocks (r_content response) in
  let '(enforcedAssistantBlocks, toolUses) :=
    Enforcer.injectReadBeforeWriteBlocks (injectedId (turnCount st)) (r_content response) in
  let '(buf, evThinking) := thinkingTransition (buffers st) toolUses in
  let '(history, evPush) :=
    if 0 <? length enforcedAssistantBlocks
    then (conversationHistory st ++ [mkMessage assistant (ContentArray enforcedAssistantBlocks)],
          [])
    else (conversationHistory st ++ [mkMessage assistant (ContentArray [TextBlock "..."])],
          [PlaceholderWarning]) in
  if length toolUses =? 0 then
    let '(buf, evSummary) := flushSummary buf in
    let '(w, final, evVerify) :=
      if hasExecutedTools st && negb dryRun
      then let '(w, verificationSummary) := runVerification (world st) (changedFiles st) in
           (w, text +:+ verificationSummary, [RunVerification (changedFiles st)])
      else (world st, text, []) in
    (evThinking ++ evPush ++ evSummary ++ evVerify,
     Break (mkLoopState w history final (turnCount st) (changedFiles st)
              (hasExecutedTools st) totalIn totalOut (justExecutedTools st) buf (files st)))
  else
    let evCode :=
      emit ((0 <? length toolUses) && supplied callbacks onPhase) (Phase code_writing) in
    if dryRun then
      let results := map dryRunResult toolUses in
      let st' :=
        mkLoopState (world st)
          (history ++ [mkMessage user (ContentArray (map ToolResultBlock results))])
          (finalResponse st) (turnCount st) (changedFiles st) true totalIn totalOut true
          buf (files st) in
      (evThinking ++ evPush ++ evCode,
       if bool_decide (stopReason response = Some "end_turn") then Continue st' else Continue st')
    else
      let '(tl, evTools) := executeToolUses (world st) (files st) toolUses in
      let createdFilesThisTurn := reportedPaths (toolResults tl) in
      match Checker.checkMissingFileReferences createdFilesThisTurn (toolResults tl) toolUses with
      | None => (evThinking ++ evPush ++ evCode ++ evTools, Abort TypeError)
      | Some missingRefs =>
          let '(results, evWarn) :=
            if (0 <? length missingRefs) && (0 <? length (toolResults tl))
            then (appendToLast (toolResults tl) (Checker.warningMessage missingRefs),
                  [MissingRefsWarning (Checker.warningMessage missingRefs)])
            else (toolResults tl, []) in
          let st' :=
            mkLoopState (tl_world tl)
              (history ++ [mkMessage user (ContentArray (map ToolResultBlock results))])
              (finalResponse st) (turnCount st)
              (changedFiles st ∪ createdFilesThisTurn) true totalIn totalOut true
              buf (tl_files tl) in
          (evThinking ++ evPush ++ evCode ++ evTools ++ evWarn,
           if bool_decide (stopReason response = Some "end_turn")
           then Continue st' else Continue st')
      end.

(** One pass through the body of [while (turnCount < MAX_AGENT_TURNS)]. *)
Definition turn (st : LoopState World) : list Event * TurnResult World :=
  match Validator.validateConversationHistory (conversationHistory st) with
  | (ws, Some e) => (map ValidatorWarning ws, Abort (ValidationFailed e))
  | (ws, None) =>
      let '(hasEmittedThinking, buf) :=
        if justExecutedTools st
        then (true,
              mkBuffers (thinkingBuffer (buffers st)) (isInThinkingPhase (buffers st)) "" true)
        else (false, buffers st) in
      let '(w, (deltas, reply)) := sendMessage (world st) (conversationHistory st) in
      let '(_, buf, evDeltas) := handleDeltas hasEmittedThinking buf deltas in
      let evs :=
        map ValidatorWarning ws ++ [SendMessage (conversationHistory st)]
        ++ evDeltas ++ [ModelReplied (deltas, reply)] in
      match reply with
      | inl message => (evs, Abort (ModelClientError message))
      | inr response =>
          let '(evs', r) :=
            afterResponse
              (mkLoopState w (conversationHistory st) (finalResponse st) (S (turnCount st))
                 (changedFiles st) (hasExecutedTools st) (totalInputTokens st)
                 (totalOutputTokens st) false buf (files st))
              response in
          (evs ++ evs', r)
      end
  end.

(** [while (turnCount < MAX_AGENT_TURNS) { ... }] *)
Fixpoint turnLoop (fuel : nat) (st : LoopState World) : list Event * LoopResult World :=
  if turnCount st <? MAX_AGENT_TURNS then
    match fuel with
    | 0 => ([], OutOfFuel)
    | S fuel' =>
        match turn st with
        | (evs, Continue st') =>
            let '(evs', r) := turnLoop fuel' st' in (evs ++ evs', r)
        | (evs, Break st') => (evs, Exited st')
        | (evs, Abort reason) => (evs, Aborted reason)
        end
    end
  else ([], Exited st).

Definition initialState (w : World) (conversationHistory : list Message)
    (userMessage : string) : LoopState World :=
  mkLoopState w
    (conversationHistory ++ [mkMessage user (ContentArray [TextBlock userMessage])])
    "" 0 ∅ false 0 0 false
    (mkBuffers "" false "" false)
    (mkFileTracking ∅ ∅).

(** [processRequest(userMessage, callbacks)] on an agent whose history is
    [conversationHistory]. *)
Definition processRequest (w : World) (conversationHistory : list Message)
    (userMessage : string) : list Event * Outcome World :=
  match turnLoop MAX_AGENT_TURNS (initialState w conversationHistory userMessage) with
  | (evs, Exited st) =>
      (evs ++ emit (supplied callbacks onPhase) (Phase completed)
           ++ emit (supplied callbacks onComplete)
                   (Complete (totalInputTokens st) (totalOutputTokens st)),
       Returned (finalResponse st) st)
  | (evs, Aborted reason) => (evs, Threw reason)
  | (evs, OutOfFuel) => (evs, Unfinished)
  end.

End WithEnvironment.

End Loop.

(** ** Notions used to state the properties *)

Module Spec.

(** [b] is a read invocation ([either-view]) of the path [P]. *)
Definition isReadOf (P : string) (b : ContentBlock) : bool :=
  match b with
  | ToolUseBlock _ name input =>
      bool_decide (name = "either-view") && bool_decide (getField input "path" = JStr P)
  | _ => false
  end.

(** What the enforcer emits for an original block: an edit invocation
    without a usable [needle] carries the warning field, every other block
    is the block itself. *)
Definition annotate (b : ContentBlock) : ContentBlock :=
  match b with
  | ToolUseBlock id name input =>
      if bool_decide (name = "either-line-replace") && negb (truthy (getField input "needle"))
      then ToolUseBlock id name
             (spreadWith input "_enforcerWarning" (JStr Enforcer.ENFORCER_WARNING))
      else b
  | _ => b
  end.

(** The synthetic read, if any, that the enforcer places before [b] when
    its state is [st]. *)
Definition injection (injectedId : nat -> string) (st : Enforcer.State) (b : ContentBlock)
  : list ContentBlock :=
  match b with
  | ToolUseBlock _ name input =>
      if bool_decide (name = "either-line-replace") then
        match nonEmptyString (getField input "path") with
        | Some P =>
            if bool_decide (P ∈ Enforcer.seenReadForPath st) then []
            else [Enforcer.injectedRead (injectedId (Enforcer.injectedSoFar st)) P]
        | None => []
        end
      else []
  | _ => []
  end.

(** The enforcer's tables agree with the blocks it has emitted so far. *)
Definition consistent (st : Enforcer.State) : Prop :=
  Enforcer.toolUsesCollected st = toolUsesOf (Enforcer.out st)
  ∧ ∀ P, P ∈ Enforcer.seenReadForPath st
         ↔ P ≠ "" ∧ existsb (isReadOf P) (Enforcer.out st) = true.

(** A message that the validator must reject, at position [idx] of a
    history of [len] messages: its content is not a list, or it is an empty
    list and the message is not the final message with role assistant. *)
Definition offending (len idx : nat) (msg : Message) : Prop :=
  match content msg with
  | ContentOther _ => True
  | ContentArray blocks => blocks = [] ∧ ¬ (idx = len - 1 ∧ role msg = assistant)
  end.

(** An assistant message at position [idx] has a [server_tool_use] block
    with id [id] and no [web_search_tool_result] block carrying that id. *)
Definition unpaired (msg : Message) (id : string) : Prop :=
  role msg = assistant
  ∧ ∃ blocks, content msg = ContentArray blocks
              ∧ (∃ name, In (ServerToolUseBlock id name) blocks)
              ∧ ¬ In (WebSearchToolResultBlock id) blocks.

(** Projections of a trace: the histories sent to the model, the replies of
    the model, the phases given to [onPhase], the tool invocations handed to
    the runner, the validator's warnings. *)
Definition sendOf (e : Loop.Event) : list (list Message) :=
  match e with Loop.SendMessage h => [h] | _ => [] end.
Definition replyOf (e : Loop.Event) : list Loop.SendResult :=
  match e with Loop.ModelReplied r => [r] | _ => [] end.
Definition phaseOf (e : Loop.Event) : list Loop.StreamingPhase :=
  match e with Loop.Phase p => [p] | _ => [] end.
Definition toolOf (e : Loop.Event) : list ToolUse :=
  match e with Loop.ExecuteTool tu => [tu] | _ => [] end.
Definition warningOf (e : Loop.Event) : list Validator.Warning :=
  match e with Loop.ValidatorWarning w => [w] | _ => [] end.

Definition sends (evs : list Loop.Event) : list (list Message) := flat_map sendOf evs.
Definition replies (evs : list Loop.Event) : list Loop.SendResult := flat_map replyOf evs.
Definition phases (evs : list Loop.Event) : list Loop.StreamingPhase := flat_map phaseOf evs.
Definition executed (evs : list Loop.Event) : list ToolUse := flat_map toolOf evs.
Definition warnings (evs : list Loop.Event) : list Validator.Warning := flat_map warningOf evs.

(** An event of the loop's own making: not model traffic, not a validator
    warning. *)
Definition internal (e : Loop.Event) : Prop :=
  sendOf e = [] ∧ replyOf e = [] ∧ warningOf e = [].

(** The text streamed by a model call: the contents of its text deltas. *)
Definition isText (d : Loop.Delta) : bool := bool_decide (Loop.delta_type d = "text").

Fixpoint streamedText (deltas : list Loop.Delta) : string :=
  match deltas with
  | [] => ""
  | d :: rest =>
      if isText d then Loop.delta_content d +:+ streamedText rest else streamedText rest
  end.

Definition streamsText (r : Loop.SendResult) : bool :=
  negb (bool_decide (streamedText r.1 = "")).

(** The model's reply asks for at least one tool invocation. *)
Definition requestsTools (r : Loop.SendResult) : bool :=
  match r.2 with
  | inr response => negb (bool_decide (toolUsesOf (Loop.r_content response) = []))
  | inl _ => false
  end.

(** After "Thinking..." has been shown (or suppressed), text is only
    buffered: into the thinking buffer while the thinking phase lasts,
    otherwise into the summary buffer. *)
Definition buffered (buf : Loop.Buffers) (text : string) : Loop.Buffers :=
  if Loop.isInThinkingPhase buf
  then Loop.mkBuffers (Loop.thinkingBuffer buf +:+ text) true
                      (Loop.summaryBuffer buf) (Loop.isInSummaryPhase buf)
  else Loop.mkBuffers (Loop.thinkingBuffer buf) false
                      (Loop.summaryBuffer buf +:+ text) (Loop.isInSummaryPhase buf).

Definition hasText (deltas : list Loop.Delta) : bool := existsb isText deltas.

(** The assistant message stored for the enforced blocks. *)
Definition assistantMessage (enforced : list ContentBlock) : Message :=
  if 0 <? length enforced then mkMessage assistant (ContentArray enforced)
  else mkMessage assistant (ContentArray [TextBlock "..."]).

(** The turn-local flag [hasEmittedThinking] and the buffers as the loop
    sets them before calling the model. *)
Definition turnStart {World : Type} (st : Loop.LoopState World) : bool * Loop.Buffers :=
  if Loop.justExecutedTools st
  then (true,
        Loop.mkBuffers (Loop.thinkingBuffer (Loop.buffers st))
                       (Loop.isInThinkingPhase (Loop.buffers st)) "" true)
  else (false, Loop.buffers st).

(** The shape of the replies received during a run of the loop that may
    still make [budget] model calls: a reply that asks for tools is followed
    by the rest of the run, a reply that does not is the last one; the loop
    exits normally ([returned]) on a response without tools, or when the
    budget is used up. *)
Fixpoint repliesOfRun (budget : nat) (rs : list Loop.SendResult) (returned : bool) : Prop :=
  match rs with
  | [] => returned = true → budget = 0
  | r :: rs' =>
      budget ≠ 0
      ∧ if requestsTools r then repliesOfRun (budget - 1) rs' returned
        else rs' = [] ∧ (returned = true ↔ ∃ response, r.2 = inr response)
  end.

Definition exited {World : Type} (res : Loop.LoopResult World) : bool :=
  match res with Loop.Exited _ => true | _ => false end.

Definition returned {World : Type} (o : Loop.Outcome World) : bool :=
  match o with Loop.Returned _ _ => true | _ => false end.

(** The same response with another stop reason. *)
Definition withStopReason (reason : option string) (response : Loop.Response) : Loop.Response :=
  Loop.mkResponse (Loop.r_content response) (Loop.inputTokens response)
                  (Loop.outputTokens response) reason.

(** The phases of the turns that follow a tool-executing turn, read off the
    replies of the model: "code-writing" for a reply that asks for tools,
    "building" for a final reply that streamed some text. *)
Fixpoint laterPhases (rs : list Loop.SendResult) : list Loop.StreamingPhase :=
  match rs with
  | [] => []
  | r :: rs' =>
      if requestsTools r then Loop.code_writing :: laterPhases rs'
      else if streamsText r then [Loop.building] else []
  end.

(** The number of tool-executing turns of a request. *)
Definition toolTurns (rs : list Loop.SendResult) : nat :=
  length (List.filter requestsTools rs).

(** The request ends on a turn without tool invocations whose text was
    streamed (and buffered as the summary). *)
Definition endsWithSummary (rs : list Loop.SendResult) : bool :=
  match last rs with
  | Some r => negb (requestsTools r) && streamsText r
  | None => false
  end.

(** The write at position [idx] is one whose content the checker scans:
    an [either-write] of a non-empty string path with non-empty string
    content, whose result at the same position is not an error. *)
Definition scanned (toolResults : list ToolResult) (idx : nat) (tu : ToolUse)
    (path content : string) : Prop :=
  tu_name tu = "either-write"
  ∧ getField (tu_input tu) "path" = JStr path ∧ path ≠ ""
  ∧ getField (tu_input tu) "content" = JStr content ∧ content ≠ ""
  ∧ ∃ result, toolResults !! idx = Some result ∧ is_error result = false.

(** [stripped] is [target] without the one of [prefixes] it starts with, or
    [target] itself when it starts with none of them. *)
Definition withoutLeading (prefixes : list string) (target stripped : string) : Prop :=
  (∃ p, In p prefixes ∧ target = p +:+ stripped)
  ∨ ((∀ p rest, In p prefixes → target ≠ p +:+ rest) ∧ stripped = target).

(** A script or stylesheet target is looked up as written and without a
    leading [./] or [/]. *)
Definition unresolvedLiteral (createdFiles : gset JValue) (target : string) : Prop :=
  ¬ (JStr target ∈ createdFiles)
  ∧ ∀ stripped, withoutLeading ["./"; "/"] target stripped → ¬ (JStr stripped ∈ createdFiles).

(** The source-file extensions that an import may leave out. *)
Definition sourceExtensions : list string := [".jsx"; ".tsx"; ".js"; ".ts"].

(** The files that the import target [t] may stand for: [t] as written, [t]
    with a source extension, and the index file of the directory [t]. *)
Inductive importCandidate (t : string) : string → Prop :=
| AsWritten : importCandidate t t
| WithExtension ext : In ext sourceExtensions → importCandidate t (t +:+ ext)
| IndexFile ext : In ext sourceExtensions → importCandidate t (t +:+ "/index" +:+ ext).

(** An import target, taken without its leading [./], is looked up as each
    of its candidates and as each of them under [src/]; every such file also
    with a leading [./] or [/]. *)
Definition unresolvedImport (createdFiles : gset JValue) (target : string) : Prop :=
  ∀ stripped candidate file,
    withoutLeading ["./"] target stripped →
    importCandidate stripped candidate →
    In file [candidate; "src/" +:+ candidate] →
    ∀ lead, In lead [""; "./"; "/"] → ¬ (JStr (lead +:+ file) ∈ createdFiles).

Definition isSourcePath (path : string) : bool :=
  Checker.endsWith path ".jsx" || Checker.endsWith path ".tsx"
  || Checker.endsWith path ".js" || Checker.endsWith path ".ts".

(** A reference that the checker reports for the scanned file [path] with
    content [content]. *)
Definition flagged (createdFiles : gset JValue) (path content : string)
    (m : Checker.MissingRef) : Prop :=
  (Checker.endsWith (Checker.toLowerCase path) ".html" = true
   ∧ ∃ mt, In mt (Regex.matchAll Regex.scriptSrc content)
           ∧ m = Checker.mkMissingRef path "script" "src" (Regex.group1 mt)
           ∧ unresolvedLiteral createdFiles (Regex.group1 mt))
  ∨ (Checker.endsWith (Checker.toLowerCase path) ".html" = true
     ∧ ∃ mt, In mt (Regex.matchAll Regex.linkHref content)
             ∧ Checker.includes (Regex.whole mt) "stylesheet" = true
             ∧ m = Checker.mkMissingRef path "link" "href" (Regex.group1 mt)
             ∧ unresolvedLiteral createdFiles (Regex.group1 mt))
  ∨ (isSourcePath path = true
     ∧ ∃ mt, In mt (Regex.matchAll Regex.importFrom content)
             ∧ Checker.startsWith (Regex.group1 mt) "." = true
             ∧ m = Checker.mkMissingRef path "import" "from" (Regex.group1 mt)
             ∧ unresolvedImport createdFiles (Regex.group1 mt)).

(** The missing-reference warnings written during a request. *)
Definition checkerWarningOf (e : Loop.Event) : list string :=
  match e with Loop.MissingRefsWarning m => [m] | _ => [] end.

Definition checkerWarnings (evs : list Loop.Event) : list string :=
  flat_map checkerWarningOf evs.


End Spec.

(** ** Concrete requests

    A scripted model (the k-th call gets the k-th reply of the script), a
    runner whose results report the path written, and the requests used as
    examples below. *)

Module Scenario.

Definition allCallbacks : option Loop.StreamingCallbacks :=
  Some (Loop.mkCallbacks true true true true true true true true).

Definition send (script : list Loop.SendResult) (w : nat) (history : list Message)
  : nat * Loop.SendResult :=
  (S w, nth w script ([], inl "no reply")).

Definition runner (w : nat) (tu : ToolUse) : nat * list ToolResult :=
  (w, [mkToolResult (tu_id tu) "ok" false
         (if Loop.isWriteTool (tu_name tu) then getField (tu_input tu) "path"
          else JUndefined)]).

Definition verifier (w : nat) (changedFiles : gset JValue) : nat * string := (w, "").


Definition stringify (input : ToolInput) : string := "{}".

Definition ids (turn k : nat) : string :=
  "enforcer-view-" +:+ pretty turn +:+ "-" +:+ pretty k.

Definition request (script : list Loop.SendResult) (dryRun : bool)
    (callbacks : option Loop.StreamingCallbacks) : list Loop.Event * Loop.Outcome nat :=
  Loop.processRequest nat (send script) runner verifier stringify ids 20 3%positive
    dryRun callbacks 0 [] "Build the app".

Definition text (s : string) : list Loop.Delta := [Loop.mkDelta "text" s].

Definition reply (deltas : list Loop.Delta) (blocks : list ContentBlock)
    (stopReason : string) : Loop.SendResult :=
  (deltas, inr (Loop.mkResponse blocks 10 5 (Some stopReason))).

Definition write (id path content : string) : ContentBlock :=
  ToolUseBlock id "either-write" (Some {[ "path" := JStr path; "content" := JStr content ]}).

(** A model that asks for the same write in every turn. *)
Definition insistent (w : nat) (history : list Message) : nat * Loop.SendResult :=
  (S w, reply [] [write "toolu_1" "src/App.tsx" "export {}"] "tool_use").

Definition lineReplace (id path : string) : ContentBlock :=
  ToolUseBlock id "either-line-replace"
    (Some {[ "path" := JStr path; "replacement" := JStr "<h1>Hello</h1>" ]}).

Definition view (id path : string) : ContentBlock :=
  ToolUseBlock id "either-view" (Some {[ "path" := JStr path ]}).

(** Scenario B of the specification: a file is created in one turn and edited
    in the next. *)
Definition createThenEdit : list Loop.SendResult :=
  [ reply (text "I will create the component.")
          [TextBlock "I will create the component.";
           write "toolu_1" "src/App.tsx" "export default function App() { return null }"]
          "tool_use";
    reply (text "Now the title.")
          [TextBlock "Now the title."; lineReplace "toolu_2" "src/App.tsx"]
          "end_turn";
    reply (text "The app is ready.") [TextBlock "The app is ready."] "end_turn" ].

(** The model starts with a tool call and no text. *)
Definition toolsWithoutText : list Loop.SendResult :=
  [ reply [] [write "toolu_1" "src/App.tsx" "export default function App() { return null }"]
          "tool_use";
    reply (text "The app is ready.") [TextBlock "The app is ready."] "end_turn" ].

(** A script file is created in the first turn and referenced by the page
    written in the second. *)
Definition scriptFromEarlierTurn : list Loop.SendResult :=
  [ reply (text "First the script.")
          [TextBlock "First the script."; write "toolu_1" "main.js" "console.log(1)"]
          "tool_use";
    reply (text "Then the page.")
          [TextBlock "Then the page.";
           write "toolu_2" "index.html" "<html><script src='main.js'></script></html>"]
          "tool_use";
    reply (text "Done.") [TextBlock "Done."] "end_turn" ].

End Scenario.

(** * The database-backed agent of [packages/runtime/src/database-agent.ts]

    The conversion of stored messages into the agent's history, the cleanup of
    stored [redacted_thinking] blocks, and what is saved after a request. *)

Module DatabaseAgent.

(** A JSON value, as the database hands over a stored message content. *)
#[local] Unset Elimination Schemes.
Inductive Json : Type :=
| JsonNull
| JsonBool (b : bool)
| JsonNumber (n : Z)
| JsonString (s : string)
| JsonArray (items : list Json)
| JsonObject (fields : gmap string Json).
#[local] Set Elimination Schemes.

(** [Boolean(v)] *)
Definition truthy (v : Json) : bool :=
  match v with
  | JsonNull => false
  | JsonBool b => b
  | JsonNumber n => negb (n =? 0)%Z
  | JsonString s => negb (String.eqb s "")
  | JsonArray _ | JsonObject _ => true
  end.

(** [v.k] on a value that is not [null]; [None] is [undefined].  None of the
    properties read here exists on a string, a number, a boolean or an
    array. *)
Definition get (v : Json) (k : string) : option Json :=
  match v with
  | JsonObject fields => fields !! k
  | _ => None
  end.

(** Truthiness of a property that may be [undefined]. *)
Definition truthyField (v : option Json) : bool :=
  match v with
  | Some x => truthy x
  | None => false
  end.

(** [v === s] for a string literal [s]. *)
Definition isString (v : option Json) (s : string) : bool :=
  match v with
  | Some (JsonString x) => String.eqb x s
  | _ => false
  end.

(** [/^[A-Za-z0-9+/]+=*$/] *)
Definition base64Char : Regex.re :=
  Regex.Chr (fun x => let n := nat_of_ascii x in
                      (((48 <=? n) && (n <=? 57)) || ((65 <=? n) && (n <=? 90))
                       || ((97 <=? n) && (n <=? 122)) || (n =? 43) || (n =? 47))%nat).

Definition base64Pattern : Regex.re :=
  Regex.Seq (Regex.Plus base64Char) (Regex.Star (Regex.exactly "=")).

(** [pattern.test(str)] for a pattern anchored at both ends: a match from
    the start that ends at the end of the subject. *)
Definition atEnd (rest : list ascii) (cap : option (list ascii)) : option Regex.Result :=
  match rest with
  | [] => Some (rest, cap)
  | _ => None
  end.

Definition testAnchored (pattern : Regex.re) (str : string) : bool :=
  match Regex.matchHere pattern (list_ascii_of_string str) None atEnd with
  | Some _ => true
  | None => false
  end.

Definition isBase64Encrypted (str : string) : bool :=
  if String.length str <? 100 then false
  else testAnchored base64Pattern str.

Definition textBlock (text : Json) : Json :=
  JsonObject {[ "type" := JsonString "text"; "text" := text ]}.

Definition thinkingBlock (thinking : Json) : Json :=
  JsonObject {[ "type" := JsonString "thinking"; "thinking" := thinking ]}.

Section WithRendering.

(** [String(n)] for a number and [JSON.stringify(v)]. *)
Variable numberToString : Z -> string.
Variable stringify : Json -> string.

(** [String(v)].  An object is converted by the first of its [toString]
    and [valueOf] that is a function and returns a primitive.  An object that
    comes from JSON inherits both, and the inherited [toString] gives
    ["[object Object]"]; but an own property named [toString] hides it and is
    no function, the inherited [valueOf] returns the object itself, and the
    conversion throws a [TypeError] (here [None]).  An array is converted by
    joining the string forms of its elements, the empty string standing for
    [null], so it throws when one of them does. *)
Fixpoint toString (v : Json) : option string :=
  match v with
  | JsonNull => Some "null"
  | JsonBool b => Some (if b then "true" else "false")
  | JsonNumber n => Some (numberToString n)
  | JsonString s => Some s
  | JsonArray items =>
      parts ← mapM (fun item => match item with JsonNull => Some "" | _ => toString item end)
                   items;
      Some (Checker.join "," parts)
  | JsonObject fields =>
      if bool_decide (is_Some (fields !! "toString")) then None else Some "[object Object]"
  end.

(** The callback of [contentBlocks.map]: [None] for a [TypeError] (reading
    a property of [null], or [String(block.data)] on data without a string
    form), otherwise the block to keep, or [JsonNull] to have it filtered
    out. *)
Definition cleanupBlock (block : Json) : option Json :=
  match block with
  | JsonNull => None
  | _ =>
      if isString (get block "type") "redacted_thinking" && truthyField (get block "data")
      then
        dataStr ← toString (default JsonNull (get block "data"));
        if (String.length dataStr <? 50) || negb (isBase64Encrypted dataStr) then
          if truthyField (get block "text") || truthyField (get block "thinking") then
            Some (thinkingBlock
                    (if truthyField (get block "thinking")
                     then default JsonNull (get block "thinking")
                     else default JsonNull (get block "text")))
          else Some JsonNull
        else Some block
      else Some block
  end.

(** [contentBlocks.map(...).filter(Boolean)] *)
Definition cleanupInvalidRedactedThinkingBlocks (contentBlocks : list Json)
  : option (list Json) :=
  mapped ← mapM cleanupBlock contentBlocks;
  Some (List.filter truthy mapped).

(** The content given to the agent for a stored content. *)
Definition convertContent (content : Json) : option (list Json) :=
  match content with
  | JsonString _ => Some [textBlock content]
  | JsonArray items => cleanupInvalidRedactedThinkingBlocks items
  | JsonObject fields =>
      if truthyField (fields !! "text")
      then Some [textBlock (default JsonNull (fields !! "text"))]
      else Some [textBlock (JsonString (stringify content))]
  | JsonNull | JsonBool _ | JsonNumber _ =>
      text ← toString content;
      Some [textBlock (JsonString text)]
  end.

(** A stored message. *)
Record StoredMessage : Type := mkStored {
  stored_role : string;
  stored_content : Json
}.

Definition roleOf (r : string) : option Role :=
  if String.eqb r "user" then Some user
  else if String.eqb r "assistant" then Some assistant
  else None.

(** [previousMessages.filter(...).map(...)]: the role and the blocks of every
    user and assistant message, in order. *)
Fixpoint convertHistory (previousMessages : list StoredMessage)
  : option (list (Role * list Json)) :=
  match previousMessages with
  | [] => Some []
  | msg :: rest =>
      match roleOf (stored_role msg) with
      | Some r =>
          blocks ← convertContent (stored_content msg);
          converted ← convertHistory rest;
          Some ((r, blocks) :: converted)
      | None => convertHistory rest
      end
  end.

End WithRendering.

(** What [messagesRepo.updateContent] receives after the agent returned: the
    content of the last message of the history if it is an assistant message,
    otherwise an object holding the returned text. *)
Definition contentToSave (history : list Message) (response : string)
  : MessageContent + string :=
  match last history with
  | Some lastMessage =>
      if bool_decide (role lastMessage = assistant) then inl (content lastMessage)
      else inr response
  | None => inr response
  end.

End DatabaseAgent.

(** ** Notions used to state the further properties *)

Module Props.

(** Every emitted edit of a non-empty path has a read of that path among
    the blocks emitted before it. *)
Definition guarded (blocks : list ContentBlock) : Prop :=
  ∀ before id input after P,
    blocks = before ++ ToolUseBlock id "either-line-replace" input :: after →
    getField input "path" = JStr P → P ≠ "" →
    existsb (Spec.isReadOf P) before = true.

(** Two enforcer states that emitted the same blocks and recorded the same
    invocations and reads (the id counters may differ). *)
Definition sameOutput (st1 st2 : Enforcer.State) : Prop :=
  Enforcer.out st2 = Enforcer.out st1
  ∧ Enforcer.toolUsesCollected st2 = Enforcer.toolUsesCollected st1
  ∧ Enforcer.seenReadForPath st2 = Enforcer.seenReadForPath st1.

(** The concatenation of a list of strings. *)
Definition concatenation (parts : list string) : string := foldr String.append "" parts.

(** The texts given to [onReasoning], and the contents given to [onDelta]. *)
Definition reasoningOf (e : Loop.Event) : list string :=
  match e with Loop.Reasoning text => [text] | _ => [] end.

Definition deltaOf (e : Loop.Event) : list string :=
  match e with Loop.DeltaOut _ content => [content] | _ => [] end.

(** Whether the code can perform the action [e] at all, given the mode and
    the handlers supplied: an action of the tool runner or the verifier needs
    a real run, a notification needs its handler, and text goes to standard
    output only without an [onDelta] handler. *)
Definition permitted (dryRun : bool) (callbacks : option Loop.StreamingCallbacks)
    (e : Loop.Event) : bool :=
  match e with
  | Loop.SendMessage _ | Loop.ModelReplied _ | Loop.ValidatorWarning _
  | Loop.PlaceholderWarning => true
  | Loop.Phase _ => Loop.supplied callbacks Loop.onPhase
  | Loop.ThinkingComplete => Loop.supplied callbacks Loop.onThinkingComplete
  | Loop.Reasoning _ => Loop.supplied callbacks Loop.onReasoning
  | Loop.DeltaOut _ _ => Loop.supplied callbacks Loop.onDelta
  | Loop.Stdout _ => negb (Loop.supplied callbacks Loop.onDelta)
  | Loop.FileOperation _ _ => negb dryRun && Loop.supplied callbacks Loop.onFileOperation
  | Loop.ToolStart _ _ => negb dryRun && Loop.supplied callbacks Loop.onToolStart
  | Loop.ToolEnd _ _ => negb dryRun && Loop.supplied callbacks Loop.onToolEnd
  | Loop.ExecuteTool _ | Loop.MissingRefsWarning _ | Loop.RunVerification _ => negb dryRun
  | Loop.Complete _ _ => Loop.supplied callbacks Loop.onComplete
  end.

(** The signals of the end of a request. *)
Definition closing (e : Loop.Event) : bool :=
  match e with
  | Loop.Phase Loop.completed | Loop.Complete _ _ => true
  | _ => false
  end.

(** The actions on the workspace: runs of the tool runner and the verifier,
    and the notifications and warnings that accompany them. *)
Definition actsOnWorkspace (e : Loop.Event) : bool :=
  match e with
  | Loop.ExecuteTool _ | Loop.RunVerification _ | Loop.FileOperation _ _
  | Loop.ToolStart _ _ | Loop.ToolEnd _ _ | Loop.MissingRefsWarning _ => true
  | _ => false
  end.

(** A token count summed over the replies that are responses. *)
Definition tokens (count : Loop.Response -> nat) (rs : list Loop.SendResult) : nat :=
  list_sum (map (fun r : Loop.SendResult =>
                   match r.2 with inr response => count response | inl _ => 0 end) rs).

(** The message has a non-empty list of blocks as its content. *)
Definition hasBlocks (msg : Message) : bool :=
  match content msg with
  | ContentArray (_ :: _) => true
  | _ => false
  end.

(** The roles of the messages that a reply adds to the history: the
    assistant message and, after a tool turn, the user message with the
    results. *)
Definition rolesAdded (r : Loop.SendResult) : list Role :=
  if Spec.requestsTools r then [assistant; user] else [assistant].

(** What each part of a pass can emit: the [onDelta] closure, the
    thinking-to-reasoning transition, the flush of the summary, and the
    tool-execution loop. *)
Definition fromStream (e : Loop.Event) : bool :=
  match e with
  | Loop.Phase Loop.thinking | Loop.DeltaOut _ _ | Loop.Stdout _ => true
  | _ => false
  end.

Definition fromTransition (e : Loop.Event) : bool :=
  match e with
  | Loop.ThinkingComplete | Loop.Phase Loop.reasoning | Loop.Reasoning _
  | Loop.DeltaOut _ _ => true
  | _ => false
  end.

Definition fromSummary (e : Loop.Event) : bool :=
  match e with
  | Loop.Phase Loop.building | Loop.DeltaOut _ _ => true
  | _ => false
  end.

Definition fromTools (e : Loop.Event) : bool :=
  match e with
  | Loop.FileOperation _ _ | Loop.ToolStart _ _ | Loop.ToolEnd _ _ | Loop.ExecuteTool _ => true
  | _ => false
  end.

(** The sets of changed files handed to the verifier. *)
Definition verificationOf (e : Loop.Event) : list (gset JValue) :=
  match e with Loop.RunVerification changedFiles => [changedFiles] | _ => [] end.

Definition verifications (evs : list Loop.Event) : list (gset JValue) :=
  flat_map verificationOf evs.

(** The paths announced with a "Creating..." or "Editing..." notification. *)
Definition announcedOf (e : Loop.Event) : list JValue :=
  match e with
  | Loop.FileOperation Loop.creating path | Loop.FileOperation Loop.editing path => [path]
  | _ => []
  end.

Definition announced (evs : list Loop.Event) : list JValue := flat_map announcedOf evs.

(** A path on which [path?.toLowerCase()] and [path?.endsWith(...)] throw:
    neither nullish nor a string. *)
Definition unusablePath (path : JValue) : bool :=
  match path with
  | JUndefined | JNull | JStr _ => false
  | _ => true
  end.

(** The base64 alphabet, and membership of a character in an alphabet. *)
Definition base64Alphabet : string :=
  "ABCDEFGHIJKLMNOPQRSTUVWXYZabcdefghijklmnopqrstuvwxyz0123456789+/".

Definition inAlphabet (alphabet : string) (c : ascii) : bool :=
  existsb (Ascii.eqb c) (list_ascii_of_string alphabet).

(** A value that has no string form: an object with a property named
    [toString], or a list that holds such a value, at any depth. *)
Fixpoint unprintable (v : DatabaseAgent.Json) : bool :=
  match v with
  | DatabaseAgent.JsonObject fields => bool_decide (is_Some (fields !! "toString"))
  | DatabaseAgent.JsonArray items => existsb unprintable items
  | _ => false
  end.

(** A stored block of type [redacted_thinking] with truthy data. *)
Definition redacted (block : DatabaseAgent.Json) : bool :=
  DatabaseAgent.isString (DatabaseAgent.get block "type") "redacted_thinking"
  && DatabaseAgent.truthyField (DatabaseAgent.get block "data").

(** A stored block on which the cleanup throws: [null], or a
    [redacted_thinking] block whose data has no string form. *)
Definition throwing (block : DatabaseAgent.Json) : bool :=
  match block with
  | DatabaseAgent.JsonNull => true
  | _ =>
      redacted block
      && unprintable (default DatabaseAgent.JsonNull (DatabaseAgent.get block "data"))
  end.

(** A stored [redacted_thinking] block whose data is not encrypted data: it
    has no string form, or its string form fails the base64 test. *)
Definition fakeRedacted (numberToString : Z -> string) (block : DatabaseAgent.Json) : bool :=
  redacted block
  && match DatabaseAgent.toString numberToString
             (default DatabaseAgent.JsonNull (DatabaseAgent.get block "data")) with
     | Some dataStr => negb (DatabaseAgent.isBase64Encrypted dataStr)
     | None => true
     end.

(** A block that the cleanup has no reason to touch. *)
Definition sound (numberToString : Z -> string) (block : DatabaseAgent.Json) : bool :=
  DatabaseAgent.truthy block && negb (fakeRedacted numberToString block).

(** The message that the agent holds for a converted entry; [view] is how
    the agent reads a stored block as a content block. *)
Definition loadedMessage (view : DatabaseAgent.Json -> ContentBlock)
    (entry : Role * list DatabaseAgent.Json) : Message :=
  mkMessage entry.1 (ContentArray (map view entry.2)).

(** The stored content is a list. *)
Definition isArray (content : DatabaseAgent.Json) : bool :=
  match content with
  | DatabaseAgent.JsonArray _ => true
  | _ => false
  end.

End Props.

(** * Properties *)

(** ** The enforcer *)

Section EnforcerFacts.

Variable injectedId : nat -> string.

Lemma nonEmptyString_Some v P : nonEmptyString v = Some P ↔ v = JStr P ∧ P ≠ "".
Proof.
  destruct v; simpl; try (split; [discriminate | intros [? ?]; discriminate]).
  destruct (String.eqb_spec s ""); split.
  - discriminate.
  - intros [[= ->] ?]. contradiction.
  - intros [= ->]. auto.
  - intros [[= ->] ?]. reflexivity.
Qed.

Lemma toolUsesOf_app l1 l2 : toolUsesOf (l1 ++ l2) = toolUsesOf l1 ++ toolUsesOf l2.
Proof. unfold toolUsesOf. apply flat_map_app. Qed.

Lemma run_app st l1 l2 :
  Enforcer.run injectedId st (l1 ++ l2)
  = Enforcer.run injectedId (Enforcer.run injectedId st l1) l2.
Proof. unfold Enforcer.run. apply fold_left_app. Qed.

(** Each iteration appends the optional synthetic read and then the block
    itself, annotated, to both lists. *)
Lemma step_out st b :
  Enforcer.out (Enforcer.step injectedId st b)
  = Enforcer.out st ++ Spec.injection injectedId st b ++ [Spec.annotate b].
Proof.
  destruct b as [t|id name input|r|id name|tid|ty]; simpl; try reflexivity.
  unfold Enforcer.READ_TOOL, Enforcer.EDIT_TOOL.
  destruct (decide (name = "either-view")) as [->|Hr].
  - simpl. destruct (nonEmptyString _); reflexivity.
  - destruct (decide (name = "either-line-replace")) as [->|He].
    + simpl.
      destruct (nonEmptyString (getField input "path")) as [P|]; simpl.
      * destruct (decide (P ∈ Enforcer.seenReadForPath st)) as [Hin|Hni].
        -- rewrite bool_decide_eq_true_2 by assumption.
           destruct (truthy (getField input "needle")); reflexivity.
        -- rewrite bool_decide_eq_false_2 by assumption.
           destruct (truthy (getField input "needle")); simpl;
             rewrite <- app_assoc; reflexivity.
      * destruct (truthy (getField input "needle")); reflexivity.
    + rewrite (bool_decide_eq_false_2 _ He). simpl.
      destruct (decide (name ∈ Enforcer.WRITE_TOOLS)); reflexivity.
Qed.

Lemma step_collected st b :
  Enforcer.toolUsesCollected (Enforcer.step injectedId st b)
  = Enforcer.toolUsesCollected st
    ++ toolUsesOf (Spec.injection injectedId st b ++ [Spec.annotate b]).
Proof.
  destruct b as [t|id name input|r|id name|tid|ty]; simpl;
    try (rewrite app_nil_r; reflexivity).
  unfold Enforcer.READ_TOOL, Enforcer.EDIT_TOOL.
  destruct (decide (name = "either-view")) as [->|Hr].
  - simpl. destruct (nonEmptyString _); reflexivity.
  - destruct (decide (name = "either-line-replace")) as [->|He].
    + simpl.
      destruct (nonEmptyString (getField input "path")) as [P|]; simpl.
      * destruct (decide (P ∈ Enforcer.seenReadForPath st)) as [Hin|Hni].
        -- rewrite bool_decide_eq_true_2 by assumption.
           destruct (truthy (getField input "needle")); reflexivity.
        -- rewrite bool_decide_eq_false_2 by assumption.
           destruct (truthy (getField input "needle")); simpl;
             rewrite <- app_assoc; reflexivity.
      * destruct (truthy (getField input "needle")); reflexivity.
    + rewrite (bool_decide_eq_false_2 _ He). simpl.
      destruct (decide (name ∈ Enforcer.WRITE_TOOLS)); reflexivity.
Qed.

Lemma isReadOf_injectedRead P id p :
  Spec.isReadOf P (Enforcer.injectedRead id p) = bool_decide (p = P).
Proof.
  unfold Spec.isReadOf, Enforcer.injectedRead, Enforcer.READ_TOOL, getField.
  rewrite lookup_singleton_eq. simpl.
  destruct (decide (p = P)) as [->|Hne].
  - rewrite !bool_decide_eq_true_2; reflexivity.
  - rewrite (bool_decide_eq_false_2 (p = P)) by assumption.
    apply bool_decide_eq_false_2. congruence.
Qed.

Lemma isReadOf_annotate P b : Spec.isReadOf P (Spec.annotate b) = Spec.isReadOf P b.
Proof.
  destruct b as [t|id name input|r|id name|tid|ty]; simpl; try reflexivity.
  destruct (decide (name = "either-line-replace")) as [->|He].
  - simpl. destruct (truthy _); reflexivity.
  - rewrite (bool_decide_eq_false_2 _ He). reflexivity.
Qed.

(** A path enters [seenReadForPath] exactly when a read of it is emitted. *)
Lemma step_seen st b P :
  P ∈ Enforcer.seenReadForPath (Enforcer.step injectedId st b)
  ↔ P ∈ Enforcer.seenReadForPath st
    ∨ (P ≠ "" ∧ existsb (Spec.isReadOf P)
                   (Spec.injection injectedId st b ++ [Spec.annotate b]) = true).
Proof.
  rewrite existsb_app. cbn [existsb]. rewrite orb_false_r, isReadOf_annotate.
  destruct b as [t|id name input|r|id name|tid|ty]; cbn [Enforcer.step Spec.injection Spec.isReadOf existsb orb];
    try (cbn; split; [auto | intros [?|[_ ?]]; [assumption | discriminate]]).
  unfold Enforcer.READ_TOOL, Enforcer.EDIT_TOOL.
  destruct (decide (name = "either-view")) as [->|Hr].
  - rewrite (bool_decide_eq_false_2 ("either-view" = "either-line-replace")) by discriminate.
    rewrite (bool_decide_eq_true_2 ("either-view" = "either-view")) by reflexivity.
    cbn [existsb orb andb].
    destruct (nonEmptyString (getField input "path")) as [p|] eqn:Hp; cbn.
    + apply nonEmptyString_Some in Hp as [Hp Hne]. rewrite Hp.
      rewrite elem_of_union, elem_of_singleton. split.
      * intros [->|?]; [right | left; assumption].
        split; [assumption | apply bool_decide_eq_true_2; reflexivity].
      * intros [?|[_ H]]; [right; assumption | left].
        apply bool_decide_eq_true in H. congruence.
    + split; [auto | intros [?|[Hne H]]; [assumption |]].
      apply bool_decide_eq_true in H.
      assert (nonEmptyString (getField input "path") = Some P) as Hs
        by (apply nonEmptyString_Some; auto).
      congruence.
  - rewrite (bool_decide_eq_false_2 _ Hr). cbn [andb].
    destruct (decide (name = "either-line-replace")) as [->|He].
    + rewrite (bool_decide_eq_true_2 ("either-line-replace" = "either-line-replace")) by reflexivity.
      destruct (nonEmptyString (getField input "path")) as [p|] eqn:Hp.
      * apply nonEmptyString_Some in Hp as [Hp Hne].
        destruct (decide (p ∈ Enforcer.seenReadForPath st)) as [Hin|Hni].
        -- rewrite bool_decide_eq_true_2 by assumption. cbn.
           split; [auto | intros [?|[_ ?]]; [assumption | discriminate]].
        -- rewrite bool_decide_eq_false_2 by assumption. cbn [existsb].
           rewrite isReadOf_injectedRead, !orb_false_r. cbn.
           rewrite elem_of_union, elem_of_singleton. split.
           ++ intros [->|?]; [right | left; assumption].
              split; [assumption | apply bool_decide_eq_true_2; reflexivity].
           ++ intros [?|[_ H]]; [right; assumption | left].
              apply bool_decide_eq_true in H. congruence.
      * cbn. split; [auto | intros [?|[_ ?]]; [assumption | discriminate]].
    + rewrite (bool_decide_eq_false_2 _ He). cbn [existsb orb].
      destruct (decide (name ∈ Enforcer.WRITE_TOOLS)); cbn;
        (split; [auto | intros [?|[_ ?]]; [assumption | discriminate]]).
Qed.

Lemma initial_consistent : Spec.consistent Enforcer.initial.
Proof.
  split; [reflexivity |]. intros P. simpl. split.
  - intros H. apply not_elem_of_empty in H. contradiction.
  - intros [_ H]. discriminate.
Qed.

Lemma step_consistent st b :
  Spec.consistent st → Spec.consistent (Enforcer.step injectedId st b).
Proof.
  intros [Htools Hseen]. split.
  - rewrite step_collected, step_out, Htools, <- toolUsesOf_app. reflexivity.
  - intros P. rewrite step_seen, step_out, Hseen, !existsb_app, !orb_true_iff.
    clear. tauto.
Qed.

Lemma run_consistent l : ∀ st,
  Spec.consistent st → Spec.consistent (Enforcer.run injectedId st l).
Proof.
  induction l as [|b l IH]; intros st H; simpl; [assumption |].
  apply IH, step_consistent, H.
Qed.

(** Running on more blocks only appends to what was emitted. *)
Lemma run_extends l : ∀ st,
  ∃ tail, Enforcer.out (Enforcer.run injectedId st l) = Enforcer.out st ++ tail.
Proof.
  induction l as [|b l IH]; intros st; simpl.
  - exists []. rewrite app_nil_r. reflexivity.
  - destruct (IH (Enforcer.step injectedId st b)) as [tail Htail].
    exists (Spec.injection injectedId st b ++ [Spec.annotate b] ++ tail).
    rewrite Htail, step_out, <- !app_assoc. reflexivity.
Qed.

(** Every original block is emitted, annotated, in the original order. *)
Lemma run_sublist l : ∀ st,
  ∃ tail, Enforcer.out (Enforcer.run injectedId st l) = Enforcer.out st ++ tail
          ∧ sublist (map Spec.annotate l) tail.
Proof.
  induction l as [|b l IH]; intros st; simpl.
  - exists []. rewrite app_nil_r. split; [reflexivity | constructor].
  - destruct (IH (Enforcer.step injectedId st b)) as (tail & Htail & Hsub).
    exists (Spec.injection injectedId st b ++ Spec.annotate b :: tail). split.
    + rewrite Htail, step_out, <- !app_assoc. reflexivity.
    + apply sublist_inserts_l. constructor. assumption.
Qed.

Lemma toolUsesOf_sublist l1 l2 : sublist l1 l2 → sublist (toolUsesOf l1) (toolUsesOf l2).
Proof.
  induction 1 as [|x l1 l2 _ IH|x l1 l2 _ IH]; simpl.
  - constructor.
  - apply sublist_app; [reflexivity | assumption].
  - apply sublist_inserts_l. assumption.
Qed.

End EnforcerFacts.

(** The enforcer's result around one block of the turn: what was emitted
    for the blocks before it, the optional synthetic read, the block
    itself, and the rest. *)
Lemma enforce_at (injectedId : nat → string) (pre post : list ContentBlock) (b : ContentBlock) :
  let st := Enforcer.run injectedId Enforcer.initial pre in
  let result := Enforcer.injectReadBeforeWriteBlocks injectedId (pre ++ b :: post) in
  Spec.consistent st
  ∧ Enforcer.out st = (Enforcer.injectReadBeforeWriteBlocks injectedId pre).1
  ∧ result.2 = toolUsesOf result.1
  ∧ ∃ tail, result.1 = Enforcer.out st ++ Spec.injection injectedId st b
                        ++ Spec.annotate b :: tail.
Proof.
  intros st result.
  assert (Spec.consistent st) as Hst
    by apply run_consistent, initial_consistent.
  split; [assumption |]. split; [reflexivity |]. split.
  - unfold result, Enforcer.injectReadBeforeWriteBlocks. simpl.
    apply (run_consistent injectedId (pre ++ b :: post) Enforcer.initial initial_consistent).
  - unfold result, Enforcer.injectReadBeforeWriteBlocks. simpl.
    rewrite run_app. simpl. fold st.
    destruct (run_extends injectedId post (Enforcer.step injectedId st b)) as [tail Htail].
    exists tail. rewrite Htail, step_out, <- !app_assoc. reflexivity.
Qed.

Lemma enforce_sublist (injectedId : nat → string) (blocks : list ContentBlock) :
  let result := Enforcer.injectReadBeforeWriteBlocks injectedId blocks in
  sublist (map Spec.annotate blocks) result.1
  ∧ sublist (toolUsesOf (map Spec.annotate blocks)) result.2.
Proof.
  intros result.
  destruct (run_sublist injectedId blocks Enforcer.initial) as (tail & Htail & Hsub).
  assert (result.1 = tail) as H1 by exact Htail.
  assert (result.2 = toolUsesOf result.1) as H2
    by apply (run_consistent injectedId blocks Enforcer.initial initial_consistent).
  split.
  - rewrite H1. assumption.
  - rewrite H2, H1. apply toolUsesOf_sublist. assumption.
Qed.

(** What [Spec.injection] amounts to for an edit of the non-empty path [P]
    when the emitted blocks so far are [before]. *)
Lemma injection_edit (injectedId : nat → string) (st : Enforcer.State)
    (id : string) (input : ToolInput) (P : string) :
  Spec.consistent st → getField input "path" = JStr P → P ≠ "" →
  Spec.injection injectedId st (ToolUseBlock id "either-line-replace" input)
  = if existsb (Spec.isReadOf P) (Enforcer.out st) then []
    else [Enforcer.injectedRead (injectedId (Enforcer.injectedSoFar st)) P].
Proof.
  intros [_ Hseen] Hpath Hne. cbn [Spec.injection].
  rewrite bool_decide_eq_true_2 by reflexivity.
  assert (nonEmptyString (getField input "path") = Some P) as ->
    by (apply nonEmptyString_Some; auto).
  destruct (existsb (Spec.isReadOf P) (Enforcer.out st)) eqn:Hread.
  - rewrite bool_decide_eq_true_2; [reflexivity |]. apply Hseen. auto.
  - rewrite bool_decide_eq_false_2; [reflexivity |].
    intros Hin. apply Hseen in Hin as [_ Hin]. congruence.
Qed.

(** C3. In every assistant turn, for an edit invocation ([either-line-replace])
    of a non-empty string path [P]: a synthetic read of [P] is placed
    immediately before the edit if and only if the blocks emitted before it in
    this turn contain no read of [P] (explicit or injected earlier).  The
    executable list is the [tool_use] subsequence of the returned block
    sequence, so an injected read sits at the same place in both, and all
    original invocations keep their relative order in it. *)
Theorem enforcer_injects_read_iff_unread :
  ∀ (injectedId : nat → string) (pre post : list ContentBlock)
    (id : string) (input : ToolInput) (P : string),
    getField input "path" = JStr P → P ≠ "" →
    let edit := ToolUseBlock id "either-line-replace" input in
    let before := (Enforcer.injectReadBeforeWriteBlocks injectedId pre).1 in
    let result := Enforcer.injectReadBeforeWriteBlocks injectedId (pre ++ edit :: post) in
    ∃ inserted tail,
      result.1 = before ++ inserted ++ Spec.annotate edit :: tail
      ∧ result.2 = toolUsesOf result.1
      ∧ (existsb (Spec.isReadOf P) before = false
         ↔ ∃ k, inserted = [Enforcer.injectedRead (injectedId k) P])
      ∧ (existsb (Spec.isReadOf P) before = true ↔ inserted = [])
      ∧ sublist (toolUsesOf (map Spec.annotate (pre ++ edit :: post))) result.2.
Proof.
  intros injectedId pre post id input P Hpath Hne edit before result.
  destruct (enforce_at injectedId pre post edit) as (Hst & Hout & Htools & tail & Hres).
  set (st := Enforcer.run injectedId Enforcer.initial pre) in *.
  exists (Spec.injection injectedId st edit), tail.
  unfold before. rewrite <- Hout.
  split; [exact Hres |]. split; [exact Htools |].
  unfold edit at 1 2. rewrite (injection_edit injectedId st id input P Hst Hpath Hne).
  destruct (existsb (Spec.isReadOf P) (Enforcer.out st)).
  - split; [| split].
    + split; [discriminate | intros [k Hk]; discriminate].
    + split; reflexivity.
    + apply enforce_sublist.
  - split; [| split].
    + split; [intros _; eexists; reflexivity | reflexivity].
    + split; discriminate.
    + apply enforce_sublist.
Qed.

Lemma enforcer_injects_read_iff_unread_witness :
  let ids := fun k : nat => "enforcer-view-" +:+ pretty k in
  let input : ToolInput := Some {[ "path" := JStr "src/App.tsx" ]} in
  let pre := [TextBlock "Updating the title."] in
  let edit := ToolUseBlock "toolu_2" "either-line-replace" input in
  let before := (Enforcer.injectReadBeforeWriteBlocks ids pre).1 in
  let result := Enforcer.injectReadBeforeWriteBlocks ids (pre ++ edit :: []) in
  getField input "path" = JStr "src/App.tsx" ∧ "src/App.tsx" ≠ ""
  ∧ ∃ inserted tail,
      result.1 = before ++ inserted ++ Spec.annotate edit :: tail
      ∧ result.2 = toolUsesOf result.1
      ∧ (existsb (Spec.isReadOf "src/App.tsx") before = false
         ↔ ∃ k, inserted = [Enforcer.injectedRead (ids k) "src/App.tsx"])
      ∧ (existsb (Spec.isReadOf "src/App.tsx") before = true ↔ inserted = [])
      ∧ sublist (toolUsesOf (map Spec.annotate (pre ++ edit :: []))) result.2.
Proof.
  intros ids input pre edit before result.
  split; [reflexivity |]. split; [discriminate |].
  apply (enforcer_injects_read_iff_unread ids pre [] "toolu_2" input "src/App.tsx");
    [reflexivity | discriminate].
Defined.


Lemma getField_spreadWith_ne (input : ToolInput) (k k' : string) (v : JValue) :
  k ≠ k' → getField (spreadWith input k v) k' = getField input k'.
Proof.
  intros Hne. unfold getField, spreadWith. rewrite lookup_insert_ne by assumption.
  destruct input as [m|]; simpl; [reflexivity |]. rewrite lookup_empty. reflexivity.
Qed.

Lemma injection_shape (injectedId : nat → string) (st : Enforcer.State) (b : ContentBlock) :
  Spec.injection injectedId st b = []
  ∨ ∃ k P, Spec.injection injectedId st b = [Enforcer.injectedRead (injectedId k) P].
Proof.
  destruct b as [t|id name input|r|id name|tid|ty]; cbn [Spec.injection]; auto.
  destruct (bool_decide (name = "either-line-replace")); auto.
  destruct (nonEmptyString (getField input "path")) as [P|]; auto.
  destruct (bool_decide (P ∈ Enforcer.seenReadForPath st)); eauto.
Qed.


(** ** The validator *)

Lemma pairingWarnings_spec (idx i : nat) (id : string) (blocks : list ContentBlock) :
  In (Validator.ServerToolUseWithoutResult i id) (Validator.pairingWarnings idx blocks)
  ↔ i = idx
    ∧ (∃ name, In (ServerToolUseBlock id name) blocks)
    ∧ ¬ In (WebSearchToolResultBlock id) blocks.
Proof.
  unfold Validator.pairingWarnings. rewrite in_flat_map. split.
  - intros (stu & Hstu & Hin). apply filter_In in Hstu as [Hstu Hty].
    destruct stu as [t|? ? ?|r|id' name|tid|ty]; try discriminate. clear Hty.
    destruct (existsb _ _) eqn:Hex; [destruct Hin |].
    destruct Hin as [[= <- <-]|[]]. split; [reflexivity |]. split; [eauto |].
    intros Hres.
    assert (existsb (Validator.resultMatches (ServerToolUseBlock id' name))
              (List.filter Validator.isWebSearchToolResult blocks) = true) as Hex'; [| congruence].
    apply existsb_exists. exists (WebSearchToolResultBlock id'). split.
    + apply filter_In. auto.
    + simpl. apply bool_decide_eq_true_2. reflexivity.
  - intros (-> & [name Hname] & Hno). exists (ServerToolUseBlock id name). split.
    + apply filter_In. auto.
    + destruct (existsb _ _) eqn:Hex; [| left; reflexivity].
      apply existsb_exists in Hex as (wsr & Hwsr & Hm).
      apply filter_In in Hwsr as [Hwsr _].
      destruct wsr as [t|? ? ?|r|? ?|tid|ty]; try discriminate.
      simpl in Hm. apply bool_decide_eq_true in Hm. subst. contradiction.
Qed.

(** What one message contributes: either the error, and then no warning, or
    no error and the pairing warnings of an assistant message. *)
Lemma checkMessage_spec (len idx : nat) (msg : Message) :
  (Spec.offending len idx msg
   ∧ ∃ e, Validator.checkMessage len idx msg = ([], Some e)
          ∧ Validator.errorIndex e = idx
          ∧ ((∃ v, content msg = ContentOther v
                   ∧ e = Validator.InvalidContentFormat idx (typeof v))
             ∨ (content msg = ContentArray []
                ∧ e = Validator.EmptyContentArray idx)))
  ∨ (¬ Spec.offending len idx msg
     ∧ ∃ ws, Validator.checkMessage len idx msg = (ws, None)
             ∧ ∀ i id, In (Validator.ServerToolUseWithoutResult i id) ws
                       ↔ i = idx ∧ Spec.unpaired msg id).
Proof.
  unfold Validator.checkMessage, Spec.offending, Spec.unpaired.
  destruct msg as [r [blocks|v]]; simpl.
  - destruct blocks as [|b blocks]; simpl.
    + destruct (decide (idx = len - 1)) as [Hi|Hi];
        [rewrite (bool_decide_eq_true_2 _ Hi) | rewrite (bool_decide_eq_false_2 _ Hi)];
        simpl.
      * destruct r; simpl.
        -- left. split; [split; [reflexivity | intros [_ ?]; discriminate] |].
           eexists. split; [reflexivity |]. split; [reflexivity |]. right. auto.
        -- right. split; [intros [_ H]; apply H; auto |].
           eexists. split; [reflexivity |]. intros i id. simpl. split; [intros [] |].
           intros (_ & _ & bs & [= <-] & [name []] & _).
      * left. split; [split; [reflexivity | intros [? _]; contradiction] |].
        eexists. split; [reflexivity |]. split; [reflexivity |]. right. auto.
    + right. split; [intros [? _]; discriminate |].
      eexists. split; [reflexivity |]. intros i id.
      destruct r; simpl.
      * split; [intros [] | intros (_ & ? & _); discriminate].
      * rewrite (pairingWarnings_spec idx i id (b :: blocks)). split.
        -- intros (-> & Hs & Hn). split; [reflexivity |]. split; [reflexivity |].
           exists (b :: blocks). auto.
        -- intros (-> & _ & bs & [= <-] & Hs & Hn). auto.
  - left. split; [exact I |]. eexists. split; [reflexivity |]. split; [reflexivity |].
    left. eauto.
Qed.

Lemma validateFrom_spec (len : nat) (msgs : list Message) : ∀ idx ws r,
  Validator.validateFrom len idx msgs = (ws, r) →
  (∀ e, r = Some e →
        ∃ k msg, Validator.errorIndex e = idx + k ∧ msgs !! k = Some msg
                 ∧ Spec.offending len (idx + k) msg
                 ∧ ((∃ v, content msg = ContentOther v
                          ∧ e = Validator.InvalidContentFormat (idx + k) (typeof v))
                    ∨ (content msg = ContentArray []
                       ∧ e = Validator.EmptyContentArray (idx + k)))
                 ∧ ∀ j m, j < k → msgs !! j = Some m → ¬ Spec.offending len (idx + j) m)
  ∧ (r = None → ∀ j m, msgs !! j = Some m → ¬ Spec.offending len (idx + j) m)
  ∧ (∀ i id, In (Validator.ServerToolUseWithoutResult i id) ws
             ↔ ∃ k msg, i = idx + k ∧ msgs !! k = Some msg ∧ Spec.unpaired msg id
                        ∧ ∀ e, r = Some e → i < Validator.errorIndex e).
Proof.
  induction msgs as [|msg rest IH]; intros idx ws r Hv; simpl in Hv.
  - injection Hv as <- <-. split; [discriminate |]. split.
    + intros _ j m H. rewrite lookup_nil in H. discriminate.
    + intros i id. split; [intros [] |]. intros (k & m & _ & H & _).
      rewrite lookup_nil in H. discriminate.
  - destruct (checkMessage_spec len idx msg)
      as [(Hoff & e & Hc & Hidx & Hshape)|(Hok & ws0 & Hc & Hws0)]; rewrite Hc in Hv.
    + injection Hv as <- <-. split; [| split; [discriminate |]].
      * intros e' [= <-]. exists 0, msg. rewrite Nat.add_0_r.
        split; [assumption |]. split; [reflexivity |]. split; [assumption |].
        split; [assumption |]. intros j m Hj. lia.
      * intros i id. split; [intros [] |].
        intros (k & m & -> & _ & _ & Hlt). specialize (Hlt e eq_refl). lia.
    + destruct (Validator.validateFrom len (S idx) rest) as [ws' r'] eqn:Hrest.
      injection Hv as <- <-.
      destruct (IH (S idx) ws' r' Hrest) as (IHe & IHn & IHw).
      split; [| split].
      * intros e He. destruct (IHe e He) as (k & m & Hi & Hk & Hoff & Hshape & Hbefore).
        exists (S k), m. replace (idx + S k) with (S idx + k) by lia.
        split; [assumption |]. split; [assumption |]. split; [assumption |].
        split; [assumption |]. intros [|j] m' Hj Hm'.
        -- injection Hm' as <-. rewrite Nat.add_0_r. assumption.
        -- replace (idx + S j) with (S idx + j) by lia. apply (Hbefore j m'); [lia | assumption].
      * intros Hn [|j] m Hm.
        -- injection Hm as <-. rewrite Nat.add_0_r. assumption.
        -- replace (idx + S j) with (S idx + j) by lia. apply (IHn Hn j m Hm).
      * intros i id. rewrite in_app_iff, Hws0, IHw. split.
        -- intros [[-> Hu]|(k & m & -> & Hk & Hu & Hlt)].
           ++ exists 0, msg. rewrite Nat.add_0_r. split; [reflexivity |].
              split; [reflexivity |]. split; [assumption |].
              intros e He. destruct (IHe e He) as (k & _ & Hi & _). lia.
           ++ exists (S k), m. split; [lia |]. split; [assumption |]. split; [assumption |].
              assumption.
        -- intros ([|k] & m & -> & Hk & Hu & Hlt).
           ++ injection Hk as <-. left. rewrite Nat.add_0_r. auto.
           ++ right. exists k, m. split; [lia |]. auto.
Qed.

(** ** The turn loop *)

Lemma string_app_assoc (a b c : string) : (a +:+ b) +:+ c = a +:+ (b +:+ c).
Proof.
  induction a as [|x a IH]; [reflexivity |].
  change (String x ((a +:+ b) +:+ c) = String x (a +:+ (b +:+ c))). f_equal. exact IH.
Qed.

Lemma string_app_nil_r (a : string) : a +:+ "" = a.
Proof.
  induction a as [|x a IH]; [reflexivity |].
  change (String x (a +:+ "") = String x a). f_equal. exact IH.
Qed.

Lemma flat_map_nil_Forall {A B : Type} (f : A → list B) (l : list A) :
  Forall (fun x => f x = []) l → flat_map f l = [].
Proof. induction 1 as [|x l Hx _ IH]; simpl; [reflexivity | rewrite Hx, IH; reflexivity]. Qed.

Lemma flat_map_emit {A : Type} (f : Loop.Event → list A) (b : bool) (e : Loop.Event) :
  flat_map f (Loop.emit b e) = if b then f e else [].
Proof. destruct b; simpl; [apply app_nil_r | reflexivity]. Qed.

Lemma internal_sends evs : Forall Spec.internal evs → Spec.sends evs = [].
Proof. intros H. apply flat_map_nil_Forall. eapply Forall_impl; [exact H |]. intros e He. apply He. Qed.

Lemma internal_replies evs : Forall Spec.internal evs → Spec.replies evs = [].
Proof. intros H. apply flat_map_nil_Forall. eapply Forall_impl; [exact H |]. intros e He. apply He. Qed.

Lemma internal_warnings evs : Forall Spec.internal evs → Spec.warnings evs = [].
Proof. intros H. apply flat_map_nil_Forall. eapply Forall_impl; [exact H |]. intros e He. apply He. Qed.

(** Decompose a goal [Forall P evs] along the way [evs] was assembled. *)
Ltac each_event :=
  cbn [fst snd];
  repeat first
    [ apply Forall_nil_2
    | apply Forall_app_2
    | apply Forall_cons_2
    | match goal with
      | |- Forall _ (Loop.emit ?b _) => destruct b; simpl
      | |- Forall _ (if ?b then _ else _) => destruct b
      | |- Forall _ (map _ _) => apply Forall_map, Forall_true; intros ?
      end ];
  try solve [repeat split].

(** ** Facts that do not depend on the environment *)

Import Loop.

(** *** Whether a turn has tools to run *)

Lemma toolUsesOf_annotate_nil blocks :
  toolUsesOf (map Spec.annotate blocks) = [] → toolUsesOf blocks = [].
Proof.
  induction blocks as [|b blocks IH]; simpl; [reflexivity |].
  intros H. apply app_eq_nil in H as [Hb Hrest]. rewrite (IH Hrest), app_nil_r.
  destruct b as [t|id name input|r|id name|tid|ty]; try reflexivity.
  simpl in Hb. destruct (_ && _); discriminate.
Qed.

Lemma run_without_tools ids blocks : ∀ st,
  toolUsesOf blocks = [] →
  Enforcer.toolUsesCollected (Enforcer.run ids st blocks) = Enforcer.toolUsesCollected st.
Proof.
  induction blocks as [|b blocks IH]; intros st H; simpl in *; [reflexivity |].
  apply app_eq_nil in H as [Hb Hrest]. rewrite (IH _ Hrest).
  destruct b as [t|id name input|r|id name|tid|ty]; try reflexivity. discriminate.
Qed.

(** The enforcer yields no executable invocation exactly when the response
    has no [tool_use] block. *)
Lemma enforce_requests ids blocks :
  (Enforcer.injectReadBeforeWriteBlocks ids blocks).2 = [] ↔ toolUsesOf blocks = [].
Proof.
  split.
  - intros H. apply toolUsesOf_annotate_nil.
    destruct (enforce_sublist ids blocks) as [_ Hsub]. rewrite H in Hsub.
    apply sublist_nil_r in Hsub. exact Hsub.
  - intros H. apply (run_without_tools ids blocks Enforcer.initial H).
Qed.

(** *** The whole loop *)

Lemma repliesOfRun_length rs : ∀ budget ret,
  Spec.repliesOfRun budget rs ret → length rs ≤ budget.
Proof.
  induction rs as [|r rs IH]; intros budget ret H; simpl in *; [lia |].
  destruct H as [Hb H]. destruct (Spec.requestsTools r).
  - apply IH in H. lia.
  - destruct H as [-> _]. simpl. lia.
Qed.

Lemma repliesOfRun_inner rs : ∀ budget ret i r,
  Spec.repliesOfRun budget rs ret → rs !! i = Some r →
  (i + 1 < length rs → Spec.requestsTools r = true)
  ∧ (Spec.requestsTools r = true → i + 1 < budget → ret = true → i + 1 < length rs)
  ∧ (Spec.requestsTools r = false →
       i + 1 = length rs ∧ (ret = true ↔ ∃ response, r.2 = inr response)).
Proof.
  induction rs as [|r0 rs IH]; intros budget ret i r H Hi; [discriminate |].
  simpl in H. destruct H as [Hb H]. destruct i as [|i]; simpl in Hi.
  - injection Hi as <-. destruct (Spec.requestsTools r0) eqn:Hreq.
    + split; [reflexivity |]. split; [| discriminate].
      intros _ Hlt Hret. destruct rs as [|r1 rs]; simpl in *; [| lia].
      specialize (H Hret). lia.
    + destruct H as [-> H]. split; [simpl; lia |]. split; [discriminate |].
      intros _. split; [reflexivity | exact H].
  - destruct (Spec.requestsTools r0) eqn:Hreq.
    + destruct (IH (budget - 1) ret i r H Hi) as (H1 & H2 & H3). simpl.
      split; [intros; apply H1; lia |]. split.
      * intros Hr Hlt Hret. specialize (H2 Hr ltac:(lia) Hret). lia.
      * intros Hr. destruct (H3 Hr) as [H4 H5]. split; [lia | exact H5].
    + destruct H as [-> _]. discriminate.
Qed.

Lemma repliesOfRun_last rs : ∀ budget,
  Spec.repliesOfRun budget rs true → length rs < budget →
  ∃ r, last rs = Some r ∧ Spec.requestsTools r = false.
Proof.
  induction rs as [|r rs IH]; intros budget H Hlt; simpl in *.
  - specialize (H eq_refl). lia.
  - destruct H as [Hb H]. destruct (Spec.requestsTools r) eqn:Hreq.
    + destruct (IH (budget - 1) H ltac:(lia)) as (r' & Hlast & Hr').
      exists r'. split; [| exact Hr']. destruct rs; [discriminate | exact Hlast].
    + destruct H as [-> _]. exists r. auto.
Qed.

Lemma laterPhases_shape rs : ∀ budget ret,
  Spec.repliesOfRun budget rs ret →
  Spec.laterPhases rs
  = repeat code_writing (Spec.toolTurns rs)
    ++ (if Spec.endsWithSummary rs then [building] else []).
Proof.
  unfold Spec.toolTurns, Spec.endsWithSummary.
  induction rs as [|r rs IH]; intros budget ret H; simpl in *; [reflexivity |].
  destruct H as [_ H]. destruct (Spec.requestsTools r) eqn:Hreq; simpl.
  - rewrite (IH _ _ H). destruct rs as [|r' rs]; simpl; [rewrite Hreq |]; reflexivity.
  - destruct H as [-> _]. simpl. rewrite Hreq. reflexivity.
Qed.

Lemma streamedText_hasText deltas : Spec.streamedText deltas ≠ "" → Spec.hasText deltas = true.
Proof.
  induction deltas as [|d rest IH]; simpl; [congruence |].
  destruct (Spec.isText d); [reflexivity | exact IH].
Qed.

Lemma tail_after_thinking (b : bool) (ps : list StreamingPhase) :
  ¬ In thinking ps → ¬ In thinking (tail ((if b then [thinking] else []) ++ ps)).
Proof.
  intros H. destruct b; simpl; [exact H |].
  destruct ps as [|p ps]; simpl; [intros [] |]. intros Hin. apply H. right. exact Hin.
Qed.

(** *** The missing-reference checker *)

Lemma filterIndexed_spec (p : ToolUse → option bool) (l : list ToolUse) : ∀ idx kept,
  Checker.filterIndexed p idx l = Some kept →
  ∀ i tu, In (i, tu) kept ↔ ∃ k, i = idx + k ∧ l !! k = Some tu ∧ p tu = Some true.
Proof.
  induction l as [|x l IH]; intros idx kept Hf i tu; simpl in Hf.
  - injection Hf as <-. split; [intros [] |]. intros (k & _ & Hk & _).
    rewrite lookup_nil in Hk. discriminate.
  - destruct (p x) as [b|] eqn:Hpx; simpl in Hf; [| discriminate].
    destruct (Checker.filterIndexed p (S idx) l) as [kept'|] eqn:Hrest; simpl in Hf;
      [| discriminate].
    injection Hf as <-. specialize (IH (S idx) kept' Hrest i tu).
    assert (In (i, tu) kept' ↔ ∃ k, i = idx + S k ∧ l !! k = Some tu ∧ p tu = Some true)
      as IH'.
    { rewrite IH. split; intros (k & -> & H); exists k; (split; [lia | exact H]). }
    destruct b; simpl; rewrite ?IH'; split.
    + intros [[= <- <-]|(k & -> & Hk & Hp)].
      * exists 0. rewrite Nat.add_0_r. auto.
      * exists (S k). auto.
    + intros ([|k] & -> & Hk & Hp).
      * injection Hk as <-. left. rewrite Nat.add_0_r. reflexivity.
      * right. exists k. auto.
    + intros (k & -> & Hk & Hp). exists (S k). auto.
    + intros ([|k] & -> & Hk & Hp).
      * injection Hk as <-. congruence.
      * exists k. auto.
Qed.

Lemma truthy_JStr (s : string) : truthy (JStr s) = true ↔ s ≠ "".
Proof.
  simpl. destruct (String.eqb_spec s ""); simpl; split; congruence.
Qed.

Lemma contentToScan_spec (toolResults : list ToolResult) (idx : nat) (tu : ToolUse)
    (path content : string) :
  Checker.contentToScan toolResults idx tu = Some (path, content)
  ↔ Spec.scanned toolResults idx tu path content.
Proof.
  unfold Checker.contentToScan, Spec.scanned. split.
  - intros H.
    destruct (getField (tu_input tu) "path") as [| | | |p|] eqn:Hp; try discriminate H.
    destruct (truthy (JStr p)) eqn:Htp; [| discriminate H]. cbn [negb] in H.
    destruct (toolResults !! idx) as [result|]; [| discriminate H].
    destruct (is_error result) eqn:Herr; [discriminate H |].
    destruct (bool_decide (tu_name tu = "either-write")) eqn:Hname; [| discriminate H].
    apply bool_decide_eq_true in Hname.
    destruct (getField (tu_input tu) "content") as [| | | |c|] eqn:Hc; try discriminate H.
    destruct (truthy (JStr c)) eqn:Htc; [| discriminate H]. cbn [negb] in H.
    injection H as <- <-. apply truthy_JStr in Htp, Htc.
    repeat split; try assumption; try reflexivity. eauto.
  - intros (Hname & -> & Hp & -> & Hc & result & -> & ->).
    apply truthy_JStr in Hp, Hc. rewrite Hp. cbn [negb].
    rewrite (bool_decide_eq_true_2 _ Hname). cbv iota. rewrite Hc. reflexivity.
Qed.

(** The two prefix removals of the checker, and its candidate list. *)
Ltac differ :=
  let H := fresh in
  intros H; cbn in H; inversion H; subst; try contradiction; try discriminate; try congruence.

Lemma withoutLeading_dotSlashOrSlash (target stripped : string) :
  Spec.withoutLeading ["./"; "/"] target stripped
  ↔ stripped = Checker.stripDotSlashOrSlash target.
Proof.
  unfold Spec.withoutLeading. split.
  - intros [(p & [<-|[<-|[]]] & ->)|[Hno ->]]; try reflexivity.
    destruct target as [|a [|b rest]]; try reflexivity; simpl.
    + destruct (ascii_dec a "/") as [->|Ha]; [| destruct a as [[] [] [] [] [] [] [] []]; try reflexivity; contradiction].
      exfalso. apply (Hno "/" ""); [right; left; reflexivity | reflexivity].
    + destruct (ascii_dec a "/") as [->|Ha].
      { exfalso. apply (Hno "/" (String b rest)); [right; left; reflexivity | reflexivity]. }
      destruct (ascii_dec a ".") as [->|Ha'].
      { destruct (ascii_dec b "/") as [->|Hb].
        - exfalso. apply (Hno "./" rest); [left; reflexivity | reflexivity].
        - destruct b as [[] [] [] [] [] [] [] []]; try reflexivity; contradiction. }
      destruct a as [[] [] [] [] [] [] [] []]; try reflexivity; contradiction.
  - intros ->.
    destruct target as [|a [|b rest]].
    + right. split; [| reflexivity]. intros p rest [<-|[<-|[]]]; differ.
    + destruct (ascii_dec a "/") as [->|Ha].
      * left. exists "/". split; [right; left; reflexivity | reflexivity].
      * right. split.
        -- intros p rest [<-|[<-|[]]]; differ.
        -- destruct a as [[] [] [] [] [] [] [] []]; try reflexivity; contradiction.
    + destruct (ascii_dec a "/") as [->|Ha].
      { left. exists "/". split; [right; left; reflexivity | reflexivity]. }
      destruct (ascii_dec a ".") as [->|Ha'].
      { destruct (ascii_dec b "/") as [->|Hb].
        - left. exists "./". split; [left; reflexivity | reflexivity].
        - right. split.
          + intros p rest' [<-|[<-|[]]]; differ.
          + destruct b as [[] [] [] [] [] [] [] []]; try reflexivity; contradiction. }
      right. split.
      * intros p rest' [<-|[<-|[]]]; differ.
      * destruct a as [[] [] [] [] [] [] [] []]; try reflexivity; contradiction.
Qed.

Lemma withoutLeading_dotSlash (target stripped : string) :
  Spec.withoutLeading ["./"] target stripped ↔ stripped = Checker.stripDotSlash target.
Proof.
  unfold Spec.withoutLeading. split.
  - intros [(p & [<-|[]] & ->)|[Hno ->]]; [reflexivity |].
    destruct target as [|a [|b rest]]; try reflexivity.
    + destruct a as [[] [] [] [] [] [] [] []]; reflexivity.
    + destruct (ascii_dec a ".") as [->|Ha];
        [| destruct a as [[] [] [] [] [] [] [] []]; try reflexivity; contradiction].
      destruct (ascii_dec b "/") as [->|Hb];
        [| destruct b as [[] [] [] [] [] [] [] []]; try reflexivity; contradiction].
      exfalso. apply (Hno "./" rest); [left; reflexivity | reflexivity].
  - intros ->. destruct target as [|a [|b rest]].
    + right. split; [| reflexivity]. intros p rest [<-|[]]; differ.
    + right. split; [intros p rest [<-|[]]; differ |].
      destruct a as [[] [] [] [] [] [] [] []]; reflexivity.
    + destruct (ascii_dec a ".") as [->|Ha].
      * destruct (ascii_dec b "/") as [->|Hb].
        -- left. exists "./". split; [left; reflexivity | reflexivity].
        -- right. split; [intros p rest' [<-|[]]; differ |].
           destruct b as [[] [] [] [] [] [] [] []]; try reflexivity; contradiction.
      * right. split; [intros p rest' [<-|[]]; differ |].
        destruct a as [[] [] [] [] [] [] [] []]; try reflexivity; contradiction.
Qed.

Lemma unresolvedLiteral_spec (createdFiles : gset JValue) (target : string) :
  negb (Checker.has createdFiles (Checker.stripDotSlashOrSlash target))
  && negb (Checker.has createdFiles target) = true
  ↔ Spec.unresolvedLiteral createdFiles target.
Proof.
  unfold Checker.has, Spec.unresolvedLiteral.
  rewrite andb_true_iff, !negb_true_iff, !bool_decide_eq_false. split.
  - intros [H1 H2]. split; [exact H2 |]. intros stripped Hs.
    apply withoutLeading_dotSlashOrSlash in Hs. subst stripped. exact H1.
  - intros [H1 H2]. split; [| exact H1].
    apply H2, withoutLeading_dotSlashOrSlash. reflexivity.
Qed.

Lemma importCandidate_spec (t candidate : string) :
  Spec.importCandidate t candidate ↔ In candidate (Checker.possiblePaths t).
Proof.
  unfold Checker.possiblePaths. split.
  - intros [|ext Hext|ext Hext]; [left; reflexivity | |];
      unfold Spec.sourceExtensions in Hext;
      destruct Hext as [<-|[<-|[<-|[<-|[]]]]]; cbn; tauto.
  - intros H.
    assert (∀ ext, In ext Spec.sourceExtensions → Spec.importCandidate t (t +:+ ext)) as He
      by (intros; constructor; assumption).
    assert (∀ ext, In ext Spec.sourceExtensions
                   → Spec.importCandidate t (t +:+ "/index" +:+ ext)) as Hi
      by (intros; constructor; assumption).
    unfold Spec.sourceExtensions in He, Hi.
    destruct H as [<-|[<-|[<-|[<-|[<-|[<-|[<-|[<-|[<-|[]]]]]]]]]].
    + constructor.
    + apply He. cbn. tauto.
    + apply He. cbn. tauto.
    + apply He. cbn. tauto.
    + apply He. cbn. tauto.
    + apply (Hi ".jsx"). cbn. tauto.
    + apply (Hi ".tsx"). cbn. tauto.
    + apply (Hi ".js"). cbn. tauto.
    + apply (Hi ".ts"). cbn. tauto.
Qed.

Lemma unresolvedImport_spec (createdFiles : gset JValue) (target : string) :
  Checker.importExists createdFiles target = false
  ↔ Spec.unresolvedImport createdFiles target.
Proof.
  unfold Checker.importExists, Spec.unresolvedImport, Checker.has, Checker.srcPaths. split.
  - intros H stripped candidate file Hs Hc Hfile lead Hlead.
    apply withoutLeading_dotSlash in Hs. subst stripped.
    apply importCandidate_spec in Hc.
    assert (In file (Checker.possiblePaths (Checker.stripDotSlash target)
                     ++ map (fun p => "src/" +:+ p)
                            (Checker.possiblePaths (Checker.stripDotSlash target)))) as Hin.
    { apply in_or_app. destruct Hfile as [<-|[<-|[]]]; [left; exact Hc |].
      right. apply in_map_iff. eauto. }
    assert (bool_decide (JStr file ∈ createdFiles)
            || bool_decide (JStr ("./" +:+ file) ∈ createdFiles)
            || bool_decide (JStr ("/" +:+ file) ∈ createdFiles) = false) as Hno.
    { destruct (_ || _ || _) eqn:E; [| reflexivity].
      rewrite <- H. symmetry. apply existsb_exists. eauto. }
    apply orb_false_iff in Hno as [Hno H3]. apply orb_false_iff in Hno as [H1 H2].
    rewrite !bool_decide_eq_false in *.
    destruct Hlead as [<-|[<-|[<-|[]]]]; assumption.
  - intros H. destruct (existsb _ _) eqn:E; [| reflexivity].
    apply existsb_exists in E as (p & Hp & Hin).
    assert (∃ candidate, Spec.importCandidate (Checker.stripDotSlash target) candidate
                         ∧ In p [candidate; "src/" +:+ candidate]) as (candidate & Hc & Hfile).
    { apply in_app_or in Hp as [Hp|Hp].
      - exists p. split; [apply importCandidate_spec, Hp | left; reflexivity].
      - apply in_map_iff in Hp as (c & <- & Hc). exists c.
        split; [apply importCandidate_spec, Hc | right; left; reflexivity]. }
    assert (Spec.withoutLeading ["./"] target (Checker.stripDotSlash target)) as Hs
      by (apply withoutLeading_dotSlash; reflexivity).
    pose proof (H _ _ _ Hs Hc Hfile "" ltac:(left; reflexivity)) as H1.
    pose proof (H _ _ _ Hs Hc Hfile "./" ltac:(right; left; reflexivity)) as H2.
    pose proof (H _ _ _ Hs Hc Hfile "/" ltac:(right; right; left; reflexivity)) as H3.
    rewrite !orb_true_iff, !bool_decide_eq_true in Hin.
    exfalso. destruct Hin as [[Hin|Hin]|Hin]; [exact (H1 Hin) | exact (H2 Hin) | exact (H3 Hin)].
Qed.

Lemma missingScripts_spec createdFiles path content m :
  In m (Checker.missingScripts createdFiles path content)
  ↔ ∃ mt, In mt (Regex.matchAll Regex.scriptSrc content)
          ∧ m = Checker.mkMissingRef path "script" "src" (Regex.group1 mt)
          ∧ Spec.unresolvedLiteral createdFiles (Regex.group1 mt).
Proof.
  unfold Checker.missingScripts. rewrite in_flat_map. split.
  - intros (mt & Hmt & Hin). exists mt. split; [exact Hmt |].
    destruct (_ && _) eqn:E; [| destruct Hin].
    destruct Hin as [<-|[]]. split; [reflexivity |]. apply unresolvedLiteral_spec, E.
  - intros (mt & Hmt & -> & Hu). exists mt. split; [exact Hmt |].
    apply unresolvedLiteral_spec in Hu. rewrite Hu. left. reflexivity.
Qed.

Lemma missingLinks_spec createdFiles path content m :
  In m (Checker.missingLinks createdFiles path content)
  ↔ ∃ mt, In mt (Regex.matchAll Regex.linkHref content)
          ∧ Checker.includes (Regex.whole mt) "stylesheet" = true
          ∧ m = Checker.mkMissingRef path "link" "href" (Regex.group1 mt)
          ∧ Spec.unresolvedLiteral createdFiles (Regex.group1 mt).
Proof.
  unfold Checker.missingLinks. rewrite in_flat_map. split.
  - intros (mt & Hmt & Hin). exists mt. split; [exact Hmt |].
    destruct (Checker.includes _ _); [| destruct Hin]. split; [reflexivity |].
    destruct (_ && _) eqn:E; [| destruct Hin].
    destruct Hin as [<-|[]]. split; [reflexivity |]. apply unresolvedLiteral_spec, E.
  - intros (mt & Hmt & Hs & -> & Hu). exists mt. split; [exact Hmt |].
    apply unresolvedLiteral_spec in Hu. rewrite Hs, Hu. left. reflexivity.
Qed.

Lemma missingImports_spec createdFiles path content m :
  In m (Checker.missingImports createdFiles path content)
  ↔ ∃ mt, In mt (Regex.matchAll Regex.importFrom content)
          ∧ Checker.startsWith (Regex.group1 mt) "." = true
          ∧ m = Checker.mkMissingRef path "import" "from" (Regex.group1 mt)
          ∧ Spec.unresolvedImport createdFiles (Regex.group1 mt).
Proof.
  unfold Checker.missingImports. rewrite in_flat_map. split.
  - intros (mt & Hmt & Hin). exists mt. split; [exact Hmt |].
    destruct (Checker.startsWith _ _); [| destruct Hin]. split; [reflexivity |].
    simpl in Hin. destruct (Checker.importExists _ _) eqn:E; [destruct Hin |].
    destruct Hin as [<-|[]]. split; [reflexivity |]. apply unresolvedImport_spec, E.
  - intros (mt & Hmt & Hs & -> & Hu). exists mt. split; [exact Hmt |].
    apply unresolvedImport_spec in Hu. rewrite Hs, Hu. left. reflexivity.
Qed.

Lemma isHtmlWrite_spec tu path :
  tu_name tu = "either-write" → getField (tu_input tu) "path" = JStr path →
  Checker.isHtmlWrite tu = Some (Checker.endsWith (Checker.toLowerCase path) ".html").
Proof.
  intros Hname Hpath. unfold Checker.isHtmlWrite, Checker.isWriteOrEdit.
  rewrite Hname, Hpath. reflexivity.
Qed.

Lemma isReactWrite_spec tu path :
  tu_name tu = "either-write" → getField (tu_input tu) "path" = JStr path →
  Checker.isReactWrite tu = Some (Spec.isSourcePath path).
Proof.
  intros Hname Hpath. unfold Checker.isReactWrite, Checker.isWriteOrEdit.
  rewrite Hname, Hpath. reflexivity.
Qed.

(** What the checker returns, when it returns: the references flagged in
    the files it scans. *)
Lemma checkMissingFileReferences_spec createdFiles toolResults toolUses missing :
  Checker.checkMissingFileReferences createdFiles toolResults toolUses = Some missing →
  ∀ m, In m missing
       ↔ ∃ idx tu path content,
           toolUses !! idx = Some tu ∧ Spec.scanned toolResults idx tu path content
           ∧ Spec.flagged createdFiles path content m.
Proof.
  unfold Checker.checkMissingFileReferences. intros Hcheck m.
  destruct (Checker.filterIndexed Checker.isHtmlWrite 0 toolUses) as [htmlWrites|] eqn:Hh;
    simpl in Hcheck; [| discriminate].
  destruct (Checker.filterIndexed Checker.isReactWrite 0 toolUses) as [reactWrites|] eqn:Hr;
    simpl in Hcheck; [| discriminate].
  injection Hcheck as <-.
  pose proof (filterIndexed_spec _ _ _ _ Hh) as Hhtml.
  pose proof (filterIndexed_spec _ _ _ _ Hr) as Hreact.
  rewrite in_app_iff, !in_flat_map. split.
  - intros [([idx tu] & Hin & Hm)|([idx tu] & Hin & Hm)].
    + apply Hhtml in Hin as (k & -> & Hk & Hp). change (0 + k) with k in *.
      unfold Checker.scanHtmlWrite in Hm. cbn [fst snd] in Hm.
      destruct (Checker.contentToScan toolResults k tu) as [[path content]|] eqn:Hc;
        [| destruct Hm].
      apply contentToScan_spec in Hc. exists k, tu, path, content.
      split; [exact Hk |]. split; [exact Hc |].
      destruct Hc as (Hname & Hpath & _).
      rewrite (isHtmlWrite_spec tu path Hname Hpath) in Hp. injection Hp as Hp.
      apply in_app_iff in Hm as [Hm|Hm].
      * left. split; [exact Hp |]. apply missingScripts_spec, Hm.
      * right. left. split; [exact Hp |]. apply missingLinks_spec, Hm.
    + apply Hreact in Hin as (k & -> & Hk & Hp). change (0 + k) with k in *.
      unfold Checker.scanReactWrite in Hm. cbn [fst snd] in Hm.
      destruct (Checker.contentToScan toolResults k tu) as [[path content]|] eqn:Hc;
        [| destruct Hm].
      apply contentToScan_spec in Hc. exists k, tu, path, content.
      split; [exact Hk |]. split; [exact Hc |].
      destruct Hc as (Hname & Hpath & _).
      rewrite (isReactWrite_spec tu path Hname Hpath) in Hp. injection Hp as Hp.
      right. right. split; [exact Hp |]. apply missingImports_spec, Hm.
  - intros (idx & tu & path & content & Hidx & Hscan & Hflag).
    pose proof Hscan as (Hname & Hpath & _).
    apply contentToScan_spec in Hscan.
    destruct Hflag as [[Hp Hm]|[[Hp Hm]|[Hp Hm]]].
    + left. exists (idx, tu). split.
      * apply Hhtml. exists idx. split; [reflexivity |]. split; [exact Hidx |].
        rewrite (isHtmlWrite_spec tu path Hname Hpath), Hp. reflexivity.
      * unfold Checker.scanHtmlWrite. cbn [fst snd]. rewrite Hscan.
        apply in_app_iff. left. apply missingScripts_spec, Hm.
    + left. exists (idx, tu). split.
      * apply Hhtml. exists idx. split; [reflexivity |]. split; [exact Hidx |].
        rewrite (isHtmlWrite_spec tu path Hname Hpath), Hp. reflexivity.
      * unfold Checker.scanHtmlWrite. cbn [fst snd]. rewrite Hscan.
        apply in_app_iff. right. apply missingLinks_spec, Hm.
    + right. exists (idx, tu). split.
      * apply Hreact. exists idx. split; [reflexivity |]. split; [exact Hidx |].
        rewrite (isReactWrite_spec tu path Hname Hpath), Hp. reflexivity.
      * unfold Checker.scanReactWrite. cbn [fst snd]. rewrite Hscan.
        apply missingImports_spec, Hm.
Qed.

Lemma reportedPaths_from (results : list ToolResult) : ∀ (acc : gset JValue) (v : JValue),
  v ∈ fold_left (fun acc result =>
                   if truthy (metadata_path result) && negb (is_error result)
                   then {[ metadata_path result ]} ∪ acc else acc) results acc
  ↔ v ∈ acc ∨ ∃ result, In result results ∧ metadata_path result = v
                        ∧ truthy v = true ∧ is_error result = false.
Proof.
  induction results as [|x results IH]; intros acc v; simpl.
  - split; [auto | intros [?|(? & [] & _)]; assumption].
  - rewrite IH. destruct (truthy (metadata_path x) && negb (is_error x)) eqn:E.
    + apply andb_true_iff in E as [Ht He]. apply negb_true_iff in He.
      rewrite elem_of_union, elem_of_singleton. split.
      * intros [[->|?]|(result & Hin & H)]; [right; exists x | left | right; exists result];
          intuition.
      * intros [?|(result & [<-|Hin] & <- & H)]; [left; right | left; left | right; exists result];
          intuition.
    + split.
      * intros [?|(result & Hin & H)]; [left | right; exists result]; intuition.
      * intros [?|(result & [<-|Hin] & <- & Ht & He)]; [left; assumption | | right; exists result; intuition].
        rewrite Ht, He in E. discriminate.
Qed.

(** *** One pass through the loop body *)

Lemma sends_app evs1 evs2 : Spec.sends (evs1 ++ evs2) = Spec.sends evs1 ++ Spec.sends evs2.
Proof. apply flat_map_app. Qed.

Lemma replies_app evs1 evs2 :
  Spec.replies (evs1 ++ evs2) = Spec.replies evs1 ++ Spec.replies evs2.
Proof. apply flat_map_app. Qed.

Lemma phases_app evs1 evs2 : Spec.phases (evs1 ++ evs2) = Spec.phases evs1 ++ Spec.phases evs2.
Proof. apply flat_map_app. Qed.

Lemma executed_app evs1 evs2 :
  Spec.executed (evs1 ++ evs2) = Spec.executed evs1 ++ Spec.executed evs2.
Proof. apply flat_map_app. Qed.

Lemma warnings_app evs1 evs2 :
  Spec.warnings (evs1 ++ evs2) = Spec.warnings evs1 ++ Spec.warnings evs2.
Proof. apply flat_map_app. Qed.

Lemma requestsTools_spec ids deltas response :
  Spec.requestsTools (deltas, inr response) = true
  ↔ (Enforcer.injectReadBeforeWriteBlocks ids (r_content response)).2 ≠ [].
Proof.
  unfold Spec.requestsTools. cbn [fst snd]. rewrite negb_true_iff, bool_decide_eq_false.
  pose proof (enforce_requests ids (r_content response)) as H. tauto.
Qed.

Section LoopFacts.

Variable World : Type.
Variable sendMessage : World → list Message → World * SendResult.
Variable executeTools : World → ToolUse → World * list ToolResult.
Variable runVerification : World → gset JValue → World * string.
Variable stringify : ToolInput → string.
Variable injectedId : nat → nat → string.
Variable MAX_AGENT_TURNS : nat.
Variable REASONING_STREAM_CHUNK_SIZE : positive.
Variable dryRun : bool.
Variable callbacks : option StreamingCallbacks.

#[local] Set Default Proof Using "Type".

Local Abbreviation handleDelta := (Loop.handleDelta callbacks).
Local Abbreviation handleDeltas := (Loop.handleDeltas callbacks).
Local Abbreviation thinkingTransition :=
  (Loop.thinkingTransition REASONING_STREAM_CHUNK_SIZE callbacks).
Local Abbreviation flushSummary := (Loop.flushSummary REASONING_STREAM_CHUNK_SIZE callbacks).
Local Abbreviation trackFileOperation := (Loop.trackFileOperation callbacks).
Local Abbreviation executeToolUse := (Loop.executeToolUse World executeTools callbacks).
Local Abbreviation executeToolUsesFrom := (Loop.executeToolUsesFrom World executeTools callbacks).
Local Abbreviation executeToolUses := (Loop.executeToolUses World executeTools callbacks).
Local Abbreviation afterResponse :=
  (Loop.afterResponse World executeTools runVerification stringify injectedId
     REASONING_STREAM_CHUNK_SIZE dryRun callbacks).
Local Abbreviation turn :=
  (Loop.turn World sendMessage executeTools runVerification stringify injectedId
     REASONING_STREAM_CHUNK_SIZE dryRun callbacks).
Local Abbreviation turnLoop :=
  (Loop.turnLoop World sendMessage executeTools runVerification stringify injectedId
     MAX_AGENT_TURNS REASONING_STREAM_CHUNK_SIZE dryRun callbacks).
Local Abbreviation processRequest :=
  (Loop.processRequest World sendMessage executeTools runVerification stringify injectedId
     MAX_AGENT_TURNS REASONING_STREAM_CHUNK_SIZE dryRun callbacks).

(** *** The [onDelta] closure *)

Lemma handleDelta_events het buf d :
  Forall Spec.internal (handleDelta het buf d).2
  ∧ Spec.executed (handleDelta het buf d).2 = [].
Proof.
  unfold Loop.handleDelta.
  destruct (bool_decide (delta_type d = "text")); [| split; [each_event | reflexivity]].
  destruct (negb het && supplied callbacks onPhase); simpl.
  - split; [each_event | reflexivity].
  - destruct (isInThinkingPhase buf); [split; [each_event | reflexivity] |].
    destruct (isInSummaryPhase buf); [split; [each_event | reflexivity] |].
    destruct (supplied callbacks onDelta); split; first [each_event | reflexivity].
Qed.

Lemma handleDeltas_events deltas : ∀ het buf,
  Forall Spec.internal (handleDeltas het buf deltas).2
  ∧ Spec.executed (handleDeltas het buf deltas).2 = [].
Proof.
  induction deltas as [|d rest IH]; intros het buf; simpl.
  - split; [constructor | reflexivity].
  - destruct (handleDelta_events het buf d) as [H1 H2].
    destruct (handleDelta het buf d) as [[het1 buf1] evs1].
    destruct (IH het1 buf1) as [H3 H4].
    destruct (handleDeltas het1 buf1 rest) as [[het2 buf2] evs2]. simpl in *.
    split; [apply Forall_app_2; assumption |].
    unfold Spec.executed in *. rewrite flat_map_app, H2, H4. reflexivity.
Qed.

Lemma handleDeltas_buffering deltas : ∀ buf,
  isInThinkingPhase buf || isInSummaryPhase buf = true →
  handleDeltas true buf deltas = (true, Spec.buffered buf (Spec.streamedText deltas), []).
Proof.
  induction deltas as [|d rest IH]; intros buf Hphase; simpl.
  - unfold Spec.buffered. rewrite !string_app_nil_r. destruct buf as [tb [] sb sp]; reflexivity.
  - unfold Loop.handleDelta, Spec.isText.
    destruct (bool_decide (delta_type d = "text")); simpl.
    + destruct buf as [tb [] sb sp]; simpl in *.
      * rewrite IH by reflexivity. unfold Spec.buffered. simpl. rewrite string_app_assoc. reflexivity.
      * subst sp. rewrite IH by reflexivity. unfold Spec.buffered. simpl.
        rewrite string_app_assoc. reflexivity.
    + rewrite IH by assumption. reflexivity.
Qed.

(** On the first turn the first text delta starts the thinking phase,
    provided there is an [onPhase] handler. *)
Lemma handleDeltas_first deltas : ∀ buf,
  supplied callbacks onPhase = true → isInThinkingPhase buf = false →
  handleDeltas false buf deltas
  = if Spec.hasText deltas
    then (true,
          mkBuffers (thinkingBuffer buf +:+ Spec.streamedText deltas) true
                    (summaryBuffer buf) (isInSummaryPhase buf),
          [Phase thinking])
    else (false, buf, []).
Proof.
  intros buf Hcb. revert buf.
  induction deltas as [|d rest IH]; intros buf Hth; simpl; [reflexivity |].
  unfold Loop.handleDelta, Spec.isText.
  destruct (bool_decide (delta_type d = "text")); simpl.
  - rewrite Hcb. simpl. rewrite handleDeltas_buffering by reflexivity.
    unfold Spec.buffered. simpl. rewrite string_app_assoc. reflexivity.
  - rewrite IH by assumption. destruct (Spec.hasText rest); reflexivity.
Qed.

(** Once [hasEmittedThinking] is set, a model call emits no phase. *)
Lemma handleDeltas_no_phase deltas : ∀ buf, Spec.phases (handleDeltas true buf deltas).2 = [].
Proof.
  induction deltas as [|d rest IH]; intros buf; simpl; [reflexivity |].
  unfold Loop.handleDelta at 1.
  destruct (bool_decide (delta_type d = "text")); simpl.
  - destruct (isInThinkingPhase buf); simpl.
    + specialize (IH (mkBuffers (thinkingBuffer buf +:+ delta_content d) true
                                (summaryBuffer buf) (isInSummaryPhase buf))).
      destruct (handleDeltas _ _ rest) as [[? ?] ?]. exact IH.
    + destruct (isInSummaryPhase buf); simpl.
      * specialize (IH (mkBuffers (thinkingBuffer buf) false
                                  (summaryBuffer buf +:+ delta_content d) true)).
        destruct (handleDeltas _ _ rest) as [[? ?] ?]. exact IH.
      * specialize (IH buf). destruct (handleDeltas _ _ rest) as [[? ?] ?]. simpl in *.
        rewrite IH. destruct (supplied callbacks onDelta); reflexivity.
  - specialize (IH buf). destruct (handleDeltas _ _ rest) as [[? ?] ?]. exact IH.
Qed.

(** *** The pieces of the loop body *)

Lemma thinkingTransition_events buf toolUses :
  Forall Spec.internal (thinkingTransition buf toolUses).2
  ∧ Spec.executed (thinkingTransition buf toolUses).2 = []
  ∧ Spec.phases (thinkingTransition buf toolUses).2
    = if isInThinkingPhase buf && nonEmpty (thinkingBuffer buf)
         && (0 <? length toolUses) && supplied callbacks onPhase
      then [reasoning] else [].
Proof.
  unfold Loop.thinkingTransition.
  destruct (isInThinkingPhase buf && nonEmpty (thinkingBuffer buf)) eqn:Hth; simpl.
  - destruct toolUses as [|tu toolUses]; simpl.
    + split; [each_event |]. split; [apply flat_map_nil_Forall; each_event |].
      apply flat_map_nil_Forall. each_event.
    + split; [each_event |]. split.
      * apply flat_map_nil_Forall. each_event.
      * unfold Spec.phases. rewrite !flat_map_app, !flat_map_emit. simpl.
        rewrite (flat_map_nil_Forall Spec.phaseOf
                   (if supplied callbacks onReasoning
                    then map Reasoning _ else [])) by each_event.
        destruct (supplied callbacks onThinkingComplete), (supplied callbacks onPhase);
          reflexivity.
  - split; [constructor |]. split; reflexivity.
Qed.

Lemma thinkingTransition_idle buf toolUses :
  isInThinkingPhase buf = false → thinkingTransition buf toolUses = (buf, []).
Proof. intros H. unfold Loop.thinkingTransition. rewrite H. reflexivity. Qed.

Lemma thinkingTransition_leaves buf toolUses :
  toolUses ≠ [] → nonEmpty (thinkingBuffer buf) = true →
  isInThinkingPhase (thinkingTransition buf toolUses).1 = false.
Proof.
  intros Htools Hbuf. unfold Loop.thinkingTransition. rewrite Hbuf.
  destruct toolUses as [|tu toolUses]; [contradiction |]. simpl.
  destruct (isInThinkingPhase buf) eqn:Hth; simpl; [reflexivity | assumption].
Qed.

Lemma flushSummary_events buf :
  Forall Spec.internal (flushSummary buf).2
  ∧ Spec.executed (flushSummary buf).2 = []
  ∧ Spec.phases (flushSummary buf).2
    = if isInSummaryPhase buf && nonEmpty (summaryBuffer buf) && supplied callbacks onPhase
      then [building] else [].
Proof.
  unfold Loop.flushSummary.
  destruct (isInSummaryPhase buf && nonEmpty (summaryBuffer buf)); simpl.
  - split; [each_event |]. split.
    + apply flat_map_nil_Forall. each_event.
    + unfold Spec.phases. rewrite flat_map_app, flat_map_emit.
      rewrite (flat_map_nil_Forall Spec.phaseOf
                 (if supplied callbacks onDelta then map (DeltaOut "text") _ else []))
        by each_event.
      destruct (supplied callbacks onPhase); reflexivity.
  - split; [constructor |]. split; reflexivity.
Qed.

Lemma trackFileOperation_events ft newOps tu :
  Forall Spec.internal (trackFileOperation ft newOps tu).2
  ∧ Spec.phases (trackFileOperation ft newOps tu).2 = []
  ∧ Spec.executed (trackFileOperation ft newOps tu).2 = [].
Proof.
  unfold Loop.trackFileOperation.
  destruct (truthy _ && isWriteTool _); [| repeat split; constructor].
  destruct (if bool_decide (_ ∈ _) then _ else _) as [operation filesCreated].
  destruct (negb _); simpl; [| repeat split; constructor].
  split; [each_event |]. split; apply flat_map_nil_Forall; each_event.
Qed.

Lemma executeToolUse_events tl tu :
  Forall Spec.internal (executeToolUse tl tu).2
  ∧ Spec.phases (executeToolUse tl tu).2 = []
  ∧ Spec.executed (executeToolUse tl tu).2 = [tu].
Proof.
  unfold Loop.executeToolUse.
  destruct (trackFileOperation_events (tl_files World tl) (newFileOpsThisTurn World tl) tu)
    as (H1 & H2 & H3).
  destruct (trackFileOperation _ _ tu) as [[ft newOps] evStarting].
  destruct (executeTools _ tu) as [w result]. simpl in *.
  split; [each_event; assumption |]. split.
  - unfold Spec.phases in *. rewrite flat_map_app, H2. apply flat_map_nil_Forall. each_event.
  - unfold Spec.executed in *. rewrite !flat_map_app, H3, flat_map_emit. simpl.
    rewrite flat_map_app, flat_map_emit,
      (flat_map_nil_Forall Spec.toolOf (if truthy _ && _ then _ else _)) by each_event.
    destruct (supplied callbacks onToolStart && _), (supplied callbacks onToolEnd && _);
      reflexivity.
Qed.

(** The runner is called once per invocation, in the order of the list. *)
Lemma executeToolUsesFrom_events toolUses : ∀ tl,
  Forall Spec.internal (executeToolUsesFrom tl toolUses).2
  ∧ Spec.phases (executeToolUsesFrom tl toolUses).2 = []
  ∧ Spec.executed (executeToolUsesFrom tl toolUses).2 = toolUses.
Proof.
  induction toolUses as [|tu rest IH]; intros tl; simpl.
  - repeat split. constructor.
  - destruct (executeToolUse_events tl tu) as (H1 & H2 & H3).
    destruct (executeToolUse tl tu) as [tl1 evs1].
    destruct (IH tl1) as (H4 & H5 & H6).
    destruct (executeToolUsesFrom tl1 rest) as [tl2 evs2]. simpl in *.
    split; [apply Forall_app_2; assumption |].
    unfold Spec.phases, Spec.executed in *. rewrite !flat_map_app, H2, H3, H5, H6.
    split; reflexivity.
Qed.

(** *** From the response to the end of the iteration *)

Lemma afterResponse_spec st response evs r :
  afterResponse st response = (evs, r) →
  let enforced :=
    Enforcer.injectReadBeforeWriteBlocks (injectedId (turnCount st)) (r_content response) in
  let buf := (thinkingTransition (buffers st) enforced.2).1 in
  Forall Spec.internal evs
  ∧ Spec.phases evs
    = Spec.phases (thinkingTransition (buffers st) enforced.2).2
      ++ (if bool_decide (enforced.2 = []) then Spec.phases (flushSummary buf).2
          else if supplied callbacks onPhase then [code_writing] else [])
  ∧ Spec.executed evs = (if dryRun then [] else enforced.2)
  ∧ match r with
    | Break st' =>
        enforced.2 = [] ∧ turnCount st' = turnCount st
        ∧ conversationHistory st' = conversationHistory st ++ [Spec.assistantMessage enforced.1]
    | Continue st' =>
        enforced.2 ≠ [] ∧ turnCount st' = turnCount st
        ∧ justExecutedTools st' = true ∧ buffers st' = buf
        ∧ ∃ results,
            conversationHistory st'
            = conversationHistory st
              ++ [Spec.assistantMessage enforced.1;
                  mkMessage user (ContentArray (map ToolResultBlock results))]
    | Abort reason => enforced.2 ≠ [] ∧ reason = TypeError ∧ dryRun = false
    end.
Proof.
  unfold Loop.afterResponse. intros Hrun. cbv zeta.
  destruct (Enforcer.injectReadBeforeWriteBlocks _ _) as [blocks toolUses].
  cbn [fst snd] in *.
  destruct (thinkingTransition_events (buffers st) toolUses) as (Hti & Hte & Htp).
  clear Htp.
  destruct (thinkingTransition (buffers st) toolUses) as [buf evThinking]. simpl in *.
  assert (∀ h (evPush : list Event),
            (if 0 <? length blocks
             then (conversationHistory st ++ [mkMessage assistant (ContentArray blocks)], [])
             else (conversationHistory st ++ [mkMessage assistant (ContentArray [TextBlock "..."])],
                   [PlaceholderWarning])) = (h, evPush) →
            h = conversationHistory st ++ [Spec.assistantMessage blocks]
            ∧ Forall Spec.internal evPush ∧ Spec.phases evPush = []
            ∧ Spec.executed evPush = []) as Hpush.
  { intros h evPush. unfold Spec.assistantMessage. destruct (0 <? length blocks); intros [= <- <-];
      repeat split; each_event. }
  destruct (if 0 <? length blocks then _ else _) as [history evPush].
  destruct (Hpush history evPush eq_refl) as (-> & Hpi & Hpp & Hpe). clear Hpush.
  destruct toolUses as [|tu toolUses]; simpl in Hrun.
  - destruct (flushSummary_events buf) as (Hfi & Hfe & Hfp).
    destruct (flushSummary buf) as [buf' evSummary]. simpl in *.
    destruct (hasExecutedTools st && negb dryRun).
    + destruct (runVerification _ _) as [w summary]. injection Hrun as <- <-.
      split; [each_event; assumption |]. split; [| split].
      * unfold Spec.phases in *. rewrite !flat_map_app, Hpp. simpl. rewrite app_nil_r.
        reflexivity.
      * unfold Spec.executed in *. rewrite !flat_map_app, Hte, Hpe, Hfe.
        destruct dryRun; reflexivity.
      * auto.
    + injection Hrun as <- <-.
      split; [each_event; assumption |]. split; [| split].
      * unfold Spec.phases in *. rewrite !flat_map_app, Hpp. simpl. rewrite app_nil_r.
        reflexivity.
      * unfold Spec.executed in *. rewrite !flat_map_app, Hte, Hpe, Hfe.
        destruct dryRun; reflexivity.
      * auto.
  - destruct dryRun.
    + assert (∀ st' : LoopState World,
                (if bool_decide (stopReason response = Some "end_turn")
                 then Continue st' else Continue st') = Continue st') as Hcont
        by (intros; destruct (bool_decide _); reflexivity).
      rewrite Hcont in Hrun. injection Hrun as <- <-.
      split; [each_event; assumption |]. split; [| split].
      * unfold Spec.phases in *. rewrite !flat_map_app, Hpp, flat_map_emit. simpl.
        reflexivity.
      * unfold Spec.executed in *. rewrite !flat_map_app, Hte, Hpe, flat_map_emit.
        destruct (supplied callbacks onPhase); reflexivity.
      * simpl. split; [discriminate |]. split; [reflexivity |]. split; [reflexivity |].
        split; [reflexivity |]. exists (map (dryRunResult stringify) (tu :: toolUses)).
        rewrite <- app_assoc. reflexivity.
    + unfold Loop.executeToolUses in Hrun.
      destruct (executeToolUsesFrom_events (tu :: toolUses)
                  (mkToolLoop World (world st) (files st) ∅ [])) as (Hxi & Hxp & Hxe).
      destruct (executeToolUsesFrom _ (tu :: toolUses)) as [tl evTools]. simpl in Hxi, Hxp, Hxe.
      destruct (Checker.checkMissingFileReferences _ _ _) as [missingRefs|].
      * assert (∀ st' : LoopState World,
                  (if bool_decide (stopReason response = Some "end_turn")
                   then Continue st' else Continue st') = Continue st') as Hcont
          by (intros; destruct (bool_decide _); reflexivity).
        destruct (if (0 <? length missingRefs) && _ then _ else _) as [results evWarn] eqn:Hw.
        assert (Forall Spec.internal evWarn ∧ Spec.phases evWarn = []
                ∧ Spec.executed evWarn = []) as (Hwi & Hwp & Hwe).
        { destruct ((0 <? length missingRefs) && _); injection Hw as <- <-;
            repeat split; each_event. }
        rewrite Hcont in Hrun. injection Hrun as <- <-.
        split; [each_event; assumption |]. split; [| split].
        -- unfold Spec.phases in *. rewrite !flat_map_app, Hpp, Hxp, Hwp, flat_map_emit.
           simpl. rewrite app_nil_r. reflexivity.
        -- unfold Spec.executed in *.
           rewrite !flat_map_app, Hte, Hpe, Hxe, Hwe, flat_map_emit.
           destruct (supplied callbacks onPhase); simpl; rewrite app_nil_r; reflexivity.
        -- simpl. split; [discriminate |]. split; [reflexivity |]. split; [reflexivity |].
           split; [reflexivity |]. exists results. rewrite <- app_assoc. reflexivity.
      * injection Hrun as <- <-.
        split; [each_event; assumption |]. split; [| split].
        -- unfold Spec.phases in *. rewrite !flat_map_app, Hpp, Hxp, flat_map_emit.
           simpl. rewrite app_nil_r. reflexivity.
        -- unfold Spec.executed in *. rewrite !flat_map_app, Hte, Hpe, Hxe, flat_map_emit.
           destruct (supplied callbacks onPhase); reflexivity.
        -- split; [discriminate |]. split; reflexivity.
Qed.

Lemma turn_unfold st evs r ws :
  Validator.validateConversationHistory (conversationHistory st) = (ws, None) →
  turn st = (evs, r) →
  let sr := (sendMessage (world st) (conversationHistory st)).2 in
  let hd := handleDeltas (Spec.turnStart st).1 (Spec.turnStart st).2 sr.1 in
  ∃ st1 evs2,
    evs = map ValidatorWarning ws ++ [SendMessage (conversationHistory st)]
          ++ hd.2 ++ [ModelReplied sr] ++ evs2
    ∧ conversationHistory st1 = conversationHistory st
    ∧ turnCount st1 = S (turnCount st)
    ∧ buffers st1 = hd.1.2
    ∧ hasExecutedTools st1 = hasExecutedTools st
    ∧ files st1 = files st
    ∧ changedFiles st1 = changedFiles st
    ∧ match sr.2 with
      | inl message => r = Abort (ModelClientError message) ∧ evs2 = []
      | inr response => afterResponse st1 response = (evs2, r)
      end.
Proof.
  intros Hv. unfold Loop.turn, Spec.turnStart. rewrite Hv. cbv zeta.
  destruct (sendMessage (world st) (conversationHistory st)) as [w [deltas reply]].
  cbn [fst snd].
  destruct (if justExecutedTools st then _ else _) as [het buf].
  cbn [fst snd].
  destruct (handleDeltas het buf deltas) as [[het' buf'] evDeltas]. cbn [fst snd].
  destruct reply as [message|response].
  - intros [= <- <-].
    exists (mkLoopState w (conversationHistory st) (finalResponse st) (S (turnCount st))
              (changedFiles st) (hasExecutedTools st) (totalInputTokens st)
              (totalOutputTokens st) false buf' (files st)), [].
    rewrite app_nil_r. repeat split.
  - destruct (afterResponse _ response) as [evs2 r2] eqn:Hafter. intros [= <- <-].
    exists (mkLoopState w (conversationHistory st) (finalResponse st) (S (turnCount st))
              (changedFiles st) (hasExecutedTools st) (totalInputTokens st)
              (totalOutputTokens st) false buf' (files st)), evs2.
    split; [repeat (rewrite <- app_assoc; simpl); reflexivity |].
    repeat split. exact Hafter.
Qed.

Lemma map_warning_projections ws :
  Spec.sends (map ValidatorWarning ws) = []
  ∧ Spec.replies (map ValidatorWarning ws) = []
  ∧ Spec.phases (map ValidatorWarning ws) = []
  ∧ Spec.executed (map ValidatorWarning ws) = []
  ∧ Spec.warnings (map ValidatorWarning ws) = ws.
Proof.
  induction ws as [|w ws (H1 & H2 & H3 & H4 & H5)]; [repeat split |].
  simpl. rewrite H5. repeat split; assumption.
Qed.

(** The model traffic of one pass: nothing if validation fails, otherwise
    one call with the current history and one reply, which decides how the
    pass ends. *)
Lemma turn_traffic st evs r :
  turn st = (evs, r) →
  let v := Validator.validateConversationHistory (conversationHistory st) in
  let sr := (sendMessage (world st) (conversationHistory st)).2 in
  Spec.warnings evs = v.1
  ∧ match v.2 with
    | Some e =>
        r = Abort (ValidationFailed e) ∧ Spec.sends evs = [] ∧ Spec.replies evs = []
        ∧ Spec.phases evs = [] ∧ Spec.executed evs = []
    | None =>
        Spec.sends evs = [conversationHistory st] ∧ Spec.replies evs = [sr]
        ∧ match r with
          | Break st' => Spec.requestsTools sr = false ∧ turnCount st' = S (turnCount st)
          | Continue st' =>
              Spec.requestsTools sr = true ∧ turnCount st' = S (turnCount st)
              ∧ justExecutedTools st' = true
          | Abort reason =>
              (∃ message, sr.2 = inl message ∧ reason = ModelClientError message)
              ∨ (Spec.requestsTools sr = true ∧ reason = TypeError)
          end
    end.
Proof.
  intros Hturn v sr. subst v.
  destruct (Validator.validateConversationHistory (conversationHistory st)) as [ws [e|]] eqn:Hv.
  - unfold Loop.turn in Hturn. rewrite Hv in Hturn. injection Hturn as <- <-.
    destruct (map_warning_projections ws) as (H1 & H2 & H3 & H4 & H5).
    cbn [fst snd]. repeat split; assumption.
  - destruct (turn_unfold st evs r ws Hv Hturn)
      as (st1 & evs2 & -> & Hh & Htc & Hbuf & _ & _ & _ & Hrest).
    fold sr in Hrest.
    destruct (handleDeltas_events sr.1 (Spec.turnStart st).1 (Spec.turnStart st).2)
      as [Hdi Hde].
    destruct (map_warning_projections ws) as (H1 & H2 & H3 & H4 & H5).
    cbn [fst snd].
    assert (Forall Spec.internal evs2 ∧
            match r with
            | Break st' => Spec.requestsTools sr = false ∧ turnCount st' = S (turnCount st)
            | Continue st' =>
                Spec.requestsTools sr = true ∧ turnCount st' = S (turnCount st)
                ∧ justExecutedTools st' = true
            | Abort reason =>
                (∃ message, sr.2 = inl message ∧ reason = ModelClientError message)
                ∨ (Spec.requestsTools sr = true ∧ reason = TypeError)
            end) as [Hi Hr].
    { destruct sr as [deltas [message|response]] eqn:Hsr; cbn [fst snd] in *.
      - destruct Hrest as [-> ->]. split; [constructor |]. left. eauto.
      - destruct (afterResponse_spec st1 response evs2 r Hrest) as (Hi & _ & _ & Hr).
        split; [exact Hi |].
        pose proof (requestsTools_spec (injectedId (turnCount st1)) deltas response) as Hreq.
        destruct r as [st'|st'|reason].
        + destruct Hr as (Ht & Hc & Hj & _). split; [apply Hreq, Ht |]. split; [congruence | exact Hj].
        + destruct Hr as (Ht & Hc & _). split; [| congruence].
          destruct (Spec.requestsTools (deltas, inr response)); [| reflexivity].
          exfalso. apply (proj1 Hreq eq_refl). exact Ht.
        + destruct Hr as (Ht & -> & _). right. split; [apply Hreq, Ht | reflexivity]. }
    fold sr.
    split; [| split; [| split; [| exact Hr]]].
    + rewrite !warnings_app, H5, (internal_warnings _ Hdi), (internal_warnings _ Hi).
      simpl. rewrite app_nil_r. reflexivity.
    + rewrite !sends_app, H1, (internal_sends _ Hdi), (internal_sends _ Hi). reflexivity.
    + rewrite !replies_app, H2, (internal_replies _ Hdi), (internal_replies _ Hi). reflexivity.
Qed.

(** With fuel for the turns that remain, the loop ends by itself; it calls
    the model once per turn, and the replies it gets have the shape above. *)
Lemma turnLoop_spec fuel : ∀ st evs res,
  MAX_AGENT_TURNS - turnCount st ≤ fuel →
  turnLoop fuel st = (evs, res) →
  res ≠ OutOfFuel
  ∧ length (Spec.sends evs) = length (Spec.replies evs)
  ∧ Spec.repliesOfRun (MAX_AGENT_TURNS - turnCount st) (Spec.replies evs) (Spec.exited res).
Proof.
  induction fuel as [|fuel IH]; intros st evs res Hfuel Hrun; simpl in Hrun.
  - destruct (turnCount st <? MAX_AGENT_TURNS) eqn:Hlt.
    + apply Nat.ltb_lt in Hlt. lia.
    + apply Nat.ltb_ge in Hlt. injection Hrun as <- <-.
      split; [discriminate |]. split; [reflexivity |]. simpl. lia.
  - destruct (turnCount st <? MAX_AGENT_TURNS) eqn:Hlt.
    + apply Nat.ltb_lt in Hlt.
      destruct (turn st) as [evs1 r] eqn:Hturn.
      pose proof (turn_traffic st evs1 r Hturn) as [_ Htr]. cbv zeta in Htr.
      destruct (Validator.validateConversationHistory (conversationHistory st)) as [ws [e|]];
        cbn [snd] in Htr.
      * destruct Htr as (-> & Hs & Hr & _). injection Hrun as <- <-.
        rewrite Hs, Hr. split; [discriminate |]. split; [reflexivity |]. simpl. discriminate.
      * destruct Htr as (Hs & Hr & Hres).
        destruct r as [st'|st'|reason].
        -- destruct Hres as (Hreq & Htc & _).
           destruct (turnLoop fuel st') as [evs2 res2] eqn:Hloop.
           injection Hrun as <- <-.
           destruct (IH st' evs2 res2 ltac:(lia) Hloop) as (H1 & H2 & H3).
           split; [exact H1 |]. rewrite sends_app, replies_app, Hs, Hr. simpl.
           split; [congruence |]. split; [lia |]. rewrite Hreq.
           replace (MAX_AGENT_TURNS - turnCount st - 1)
             with (MAX_AGENT_TURNS - turnCount st') by lia.
           exact H3.
        -- destruct Hres as (Hreq & Htc). injection Hrun as <- <-.
           rewrite Hs, Hr. split; [discriminate |]. split; [reflexivity |]. simpl.
           split; [lia |]. rewrite Hreq. split; [reflexivity |].
           split; [intros _ | reflexivity].
           unfold Spec.requestsTools in Hreq.
           destruct ((sendMessage (world st) (conversationHistory st)).2.2) as [m|response] eqn:E.
           ++ exfalso. pose proof (turn_unfold st evs1 (Break st')) as Hu.
              destruct (Validator.validateConversationHistory (conversationHistory st))
                as [ws' [e'|]] eqn:Hv.
              ** unfold Loop.turn in Hturn. rewrite Hv in Hturn. discriminate.
              ** destruct (Hu ws' eq_refl Hturn) as (? & ? & _ & _ & _ & _ & _ & _ & _ & Hm).
                 rewrite E in Hm. destruct Hm as [Hm _]. discriminate.
           ++ eauto.
        -- injection Hrun as <- <-. rewrite Hs, Hr.
           split; [discriminate |]. split; [reflexivity |]. simpl. split; [lia |].
           destruct Hres as [(message & Hm & _)|[Hreq _]].
           ++ unfold Spec.requestsTools. rewrite Hm. split; [reflexivity |].
              split; [discriminate |]. intros [response Hresp]. discriminate.
           ++ rewrite Hreq. simpl. discriminate.
    + apply Nat.ltb_ge in Hlt. injection Hrun as <- <-.
      split; [discriminate |]. split; [reflexivity |]. simpl. lia.
Qed.

Lemma processRequest_spec w history userMessage :
  let run := processRequest w history userMessage in
  run.2 ≠ Unfinished
  ∧ length (Spec.sends run.1) = length (Spec.replies run.1)
  ∧ Spec.repliesOfRun MAX_AGENT_TURNS (Spec.replies run.1) (Spec.returned run.2).
Proof.
  unfold Loop.processRequest.
  destruct (turnLoop MAX_AGENT_TURNS (initialState World w history userMessage))
    as [evs res] eqn:Hloop.
  destruct (turnLoop_spec MAX_AGENT_TURNS _ evs res ltac:(simpl; lia) Hloop) as (H1 & H2 & H3).
  simpl in H3. rewrite Nat.sub_0_r in H3.
  destruct res as [st|reason|]; cbn [fst snd]; try contradiction.
  - split; [discriminate |].
    rewrite !sends_app, !replies_app.
    rewrite (internal_sends (emit _ (Phase completed))) by each_event.
    rewrite (internal_sends (emit _ (Complete _ _))) by each_event.
    rewrite (internal_replies (emit _ (Phase completed))) by each_event.
    rewrite (internal_replies (emit _ (Complete _ _))) by each_event.
    rewrite !app_nil_r. split; assumption.
  - split; [discriminate |]. split; assumption.
Qed.

(** C1. A request makes at most [MAX_AGENT_TURNS] calls to the model
    client's [sendMessage], whatever the model replies, and the turn loop
    ends: the request returns its text or throws. *)
Theorem processRequest_turn_bound :
  ∀ (w : World) (history : list Message) (userMessage : string),
    let run := processRequest w history userMessage in
    length (Spec.sends run.1) ≤ MAX_AGENT_TURNS
    ∧ ((∃ text st, run.2 = Returned text st) ∨ (∃ reason, run.2 = Threw reason)).
Proof.
  intros w history userMessage run.
  destruct (processRequest_spec w history userMessage) as (Hfin & Hlen & Hrs).
  fold run in Hfin, Hlen, Hrs. split.
  - rewrite Hlen. eapply repliesOfRun_length, Hrs.
  - destruct run.2 as [text st|reason|]; [left; eauto | right; eauto | contradiction].
Qed.

(** The stop reason of a response has no influence on the loop. *)
Lemma afterResponse_stop_reason st response reason :
  afterResponse st (Spec.withStopReason reason response) = afterResponse st response.
Proof.
  unfold Loop.afterResponse, Spec.withStopReason.
  cbn [r_content inputTokens outputTokens stopReason].
  destruct (Enforcer.injectReadBeforeWriteBlocks _ _) as [blocks toolUses].
  destruct (thinkingTransition _ _) as [buf evThinking].
  destruct (if 0 <? length blocks then _ else _) as [h evPush].
  destruct (length toolUses =? 0); [reflexivity |].
  destruct dryRun.
  - destruct (bool_decide (reason = _)), (bool_decide (stopReason response = _)); reflexivity.
  - destruct (executeToolUses _ _ _) as [tl evTools].
    destruct (Checker.checkMissingFileReferences _ _ _); [| reflexivity].
    destruct (if (0 <? _) && _ then _ else _) as [results evWarn].
    destruct (bool_decide (reason = _)), (bool_decide (stopReason response = _)); reflexivity.
Qed.

(** Why a request throws, read off its last reply: after a reply that asks
    for tools, the checker threw or the next validation failed; after a reply
    without tools, the model client failed; without any reply, the first
    validation failed. *)
Lemma turnLoop_aborts fuel : ∀ st evs reason,
  turnLoop fuel st = (evs, Aborted reason) →
  match last (Spec.replies evs) with
  | Some r =>
      if Spec.requestsTools r
      then reason = TypeError ∨ ∃ e, reason = ValidationFailed e
      else ∃ message, reason = ModelClientError message
  | None => ∃ e, reason = ValidationFailed e
  end.
Proof.
  induction fuel as [|fuel IH]; intros st evs reason Hrun; simpl in Hrun.
  - destruct (turnCount st <? MAX_AGENT_TURNS); discriminate Hrun.
  - destruct (turnCount st <? MAX_AGENT_TURNS); [| discriminate Hrun].
    destruct (turn st) as [evs1 r] eqn:Hturn.
    pose proof (turn_traffic st evs1 r Hturn) as [_ Htr]. cbv zeta in Htr.
    destruct (Validator.validateConversationHistory (conversationHistory st)) as [ws [e|]];
      cbn [snd] in Htr.
    + destruct Htr as (-> & _ & Hr & _). injection Hrun as <- <-. rewrite Hr.
      cbn [last]. eauto.
    + destruct Htr as (_ & Hr & Hres). destruct r as [st'|st'|reason'].
      * destruct Hres as (Hreq & _).
        destruct (turnLoop fuel st') as [evs2 res2] eqn:Hloop.
        injection Hrun as <- ->. specialize (IH st' evs2 reason Hloop).
        rewrite replies_app, Hr. cbn [app].
        destruct (Spec.replies evs2) as [|r2 rs2]; [| exact IH].
        cbn [last]. rewrite Hreq. right. exact IH.
      * discriminate Hrun.
      * injection Hrun as <- <-. rewrite Hr. cbn [last].
        destruct Hres as [(message & Hm & ->)|[Hreq ->]].
        -- unfold Spec.requestsTools. rewrite Hm. eauto.
        -- rewrite Hreq. left. reflexivity.
Qed.

(** C2 (amended). Writing [rs] for the replies of the model in a request:
    every reply but the last asked for tools, so the loop went on to another
    model call after them.  A reply that asks for tools is followed by
    another call, unless it is the reply of the last permitted turn (the
    request then returns) or the request throws first: a [TypeError] of the
    missing-reference checker, or a validation error for the extended
    history.  A reply that yields no tool invocation is the last one, and
    the request returns on it; and before the ceiling is reached the request
    returns exactly when its last reply is such a response.  A reply asks for
    tools exactly when its enforced content yields an executable invocation,
    and none of this looks at the stop reason: changing it changes nothing in
    what the loop does with a response. *)
Theorem loop_continues_exactly_while_tools_are_requested :
  ∀ (w : World) (history : list Message) (userMessage : string),
    let run := processRequest w history userMessage in
    let rs := Spec.replies run.1 in
    (∀ i r, rs !! i = Some r → i + 1 < length rs → Spec.requestsTools r = true)
    ∧ (∀ i r, rs !! i = Some r → Spec.requestsTools r = true →
         i + 1 < length rs
         ∨ (i + 1 = length rs
            ∧ ((i + 1 = MAX_AGENT_TURNS ∧ Spec.returned run.2 = true)
               ∨ run.2 = Threw TypeError
               ∨ ∃ e, run.2 = Threw (ValidationFailed e))))
    ∧ (∀ i r, rs !! i = Some r → Spec.requestsTools r = false →
              i + 1 = length rs
              ∧ (Spec.returned run.2 = true ↔ ∃ response, r.2 = inr response))
    ∧ (length rs < MAX_AGENT_TURNS →
       (Spec.returned run.2 = true
        ↔ ∃ r response, last rs = Some r ∧ r.2 = inr response
                        ∧ Spec.requestsTools r = false))
    ∧ (∀ ids deltas response,
         Spec.requestsTools (deltas, inr response) = true
         ↔ (Enforcer.injectReadBeforeWriteBlocks ids (r_content response)).2 ≠ [])
    ∧ (∀ st response reason,
         afterResponse st (Spec.withStopReason reason response) = afterResponse st response).
Proof.
  intros w history userMessage run rs.
  destruct (processRequest_spec w history userMessage) as (Hfin & _ & Hrs).
  fold run in Hfin, Hrs. fold rs in Hrs.
  pose proof (repliesOfRun_length rs _ _ Hrs) as Hlen.
  split; [| split; [| split; [| split; [| split]]]].
  - intros i r Hi. apply (repliesOfRun_inner rs _ _ i r Hrs Hi).
  - intros i r Hi Hreq.
    destruct (repliesOfRun_inner rs _ _ i r Hrs Hi) as (_ & Hnext & _).
    pose proof (lookup_lt_Some _ _ _ Hi) as Hlt.
    destruct (decide (i + 1 < length rs)) as [Hmore|Hlast]; [left; exact Hmore |].
    right. split; [lia |].
    assert (last rs = Some r) as Hend.
    { rewrite last_lookup. replace (pred (length rs)) with i by lia. exact Hi. }
    subst run rs. unfold Loop.processRequest in *.
    destruct (turnLoop MAX_AGENT_TURNS (initialState World w history userMessage))
      as [evs [st|reason|]] eqn:Hloop; cbn [fst snd] in *.
    + left. split; [| reflexivity].
      destruct (decide (i + 1 < MAX_AGENT_TURNS)) as [Hbelow|Hat]; [| lia].
      specialize (Hnext Hreq Hbelow eq_refl). lia.
    + right. apply turnLoop_aborts in Hloop. rewrite Hend, Hreq in Hloop.
      destruct Hloop as [->|[e ->]]; [left; reflexivity | right; eauto].
    + contradiction.
  - intros i r Hi. apply (repliesOfRun_inner rs _ _ i r Hrs Hi).
  - intros Hbelow. split.
    + intros Hret. rewrite Hret in Hrs.
      destruct (repliesOfRun_last rs _ Hrs Hbelow) as (r & Hlast & Hreq).
      assert (rs !! pred (length rs) = Some r) as Hi by (rewrite <- last_lookup; exact Hlast).
      rewrite <- Hret in Hrs.
      destruct (repliesOfRun_inner rs _ _ _ r Hrs Hi) as (_ & _ & H3).
      destruct (H3 Hreq) as [_ Hiff]. destruct (proj1 Hiff Hret) as [response Hresp].
      exists r, response. auto.
    + intros (r & response & Hlast & Hresp & Hreq).
      rewrite last_lookup in Hlast.
      destruct (repliesOfRun_inner rs _ _ _ r Hrs Hlast) as (_ & _ & H3).
      apply (H3 Hreq). eauto.
  - apply requestsTools_spec.
  - apply afterResponse_stop_reason.
Qed.

(** *** Validation before every model call *)

Lemma turnLoop_sends_validated fuel : ∀ st,
  Forall (fun h => (Validator.validateConversationHistory h).2 = None)
         (Spec.sends (turnLoop fuel st).1).
Proof.
  induction fuel as [|fuel IH]; intros st; simpl.
  - destruct (turnCount st <? MAX_AGENT_TURNS); constructor.
  - destruct (turnCount st <? MAX_AGENT_TURNS); [| constructor].
    destruct (turn st) as [evs1 r] eqn:Hturn.
    pose proof (turn_traffic st evs1 r Hturn) as [_ Htr]. cbv zeta in Htr.
    destruct (Validator.validateConversationHistory (conversationHistory st))
      as [ws [e|]] eqn:Hv; cbn [snd] in Htr.
    + destruct Htr as (-> & Hs & _). cbn [fst]. rewrite Hs. constructor.
    + destruct Htr as (Hs & _).
      assert (Forall (fun h => (Validator.validateConversationHistory h).2 = None)
                     (Spec.sends evs1)) as H1.
      { rewrite Hs. constructor; [rewrite Hv; reflexivity | constructor]. }
      destruct r as [st'|st'|reason]; cbn [fst]; try exact H1.
      specialize (IH st'). destruct (turnLoop fuel st') as [evs2 res2]. cbn [fst] in *.
      rewrite sends_app. apply Forall_app_2; assumption.
Qed.

Lemma validate_spec (history : list Message) :
  let result := Validator.validateConversationHistory history in
  (∀ e, result.2 = Some e →
        ∃ msg, history !! Validator.errorIndex e = Some msg
               ∧ Spec.offending (length history) (Validator.errorIndex e) msg
               ∧ (∀ j m, j < Validator.errorIndex e → history !! j = Some m →
                         ¬ Spec.offending (length history) j m)
               ∧ ((∃ v, content msg = ContentOther v
                        ∧ e = Validator.InvalidContentFormat (Validator.errorIndex e) (typeof v))
                  ∨ (content msg = ContentArray []
                     ∧ e = Validator.EmptyContentArray (Validator.errorIndex e))))
  ∧ (result.2 = None →
     ∀ j m, history !! j = Some m → ¬ Spec.offending (length history) j m)
  ∧ (∀ i id, In (Validator.ServerToolUseWithoutResult i id) result.1
             ↔ ∃ msg, history !! i = Some msg ∧ Spec.unpaired msg id
                      ∧ ∀ e, result.2 = Some e → i < Validator.errorIndex e).
Proof.
  intros result. unfold result, Validator.validateConversationHistory.
  destruct (Validator.validateFrom (length history) 0 history) as [ws r] eqn:Hv.
  destruct (validateFrom_spec (length history) history 0 ws r Hv) as (He & Hn & Hw).
  cbn [fst snd]. split; [| split].
  - intros e Hr. destruct (He e Hr) as (k & msg & Hi & Hk & Hoff & Hshape & Hbefore).
    simpl in *. subst k. exists msg. auto.
  - exact Hn.
  - intros i id. rewrite Hw. simpl. split.
    + intros (k & msg & -> & H). eauto.
    + intros (msg & H). exists i, msg. auto.
Qed.

(** C4. The validator throws exactly when some message has a content that
    is not a list, or an empty list without being the final message with role
    assistant.  The error names the first such message and says which of the
    two it is.  In the loop the validation comes before the model call: a
    failing validation ends the pass with the error and without a call, and
    every history that is sent to the model has passed it. *)
Theorem validator_raises_exactly_on_shape_violations :
  ∀ (history : list Message),
    let result := Validator.validateConversationHistory history in
    ((∃ idx msg, history !! idx = Some msg ∧ Spec.offending (length history) idx msg)
     ↔ ∃ e, result.2 = Some e)
    ∧ (∀ e, result.2 = Some e →
            ∃ msg, history !! Validator.errorIndex e = Some msg
                   ∧ Spec.offending (length history) (Validator.errorIndex e) msg
                   ∧ (∀ j m, j < Validator.errorIndex e → history !! j = Some m →
                             ¬ Spec.offending (length history) j m)
                   ∧ ((∃ v, content msg = ContentOther v
                            ∧ e = Validator.InvalidContentFormat
                                    (Validator.errorIndex e) (typeof v))
                      ∨ (content msg = ContentArray []
                         ∧ e = Validator.EmptyContentArray (Validator.errorIndex e))))
    ∧ (∀ st : LoopState World, conversationHistory st = history →
         match result.2 with
         | Some e => (turn st).2 = Abort (ValidationFailed e) ∧ Spec.sends (turn st).1 = []
         | None => Spec.sends (turn st).1 = [history]
         end)
    ∧ (∀ w history0 userMessage,
         Forall (fun h => (Validator.validateConversationHistory h).2 = None)
                (Spec.sends (processRequest w history0 userMessage).1)).
Proof.
  intros history result.
  destruct (validate_spec history) as (He & Hn & _). fold result in He, Hn.
  split; [| split; [exact He | split]].
  - split.
    + intros (idx & msg & Hidx & Hoff).
      destruct result.2 as [e|] eqn:Hr; [eauto |].
      exfalso. exact (Hn eq_refl idx msg Hidx Hoff).
    + intros [e Hr]. destruct (He e Hr) as (msg & Hidx & Hoff & _). eauto.
  - intros st <-. destruct (turn st) as [evs r] eqn:Hturn.
    pose proof (turn_traffic st evs r Hturn) as [_ Htr]. cbv zeta in Htr. fold result in Htr.
    destruct result.2 as [e|]; cbn [fst snd].
    + destruct Htr as (-> & Hs & _). auto.
    + apply Htr.
  - intros w history0 userMessage. unfold Loop.processRequest.
    pose proof (turnLoop_sends_validated MAX_AGENT_TURNS
                  (initialState World w history0 userMessage)) as H.
    destruct (turnLoop _ _) as [evs [st|reason|]]; cbn [fst] in *; try exact H.
    rewrite !sends_app.
    rewrite (internal_sends (emit _ (Phase completed))) by each_event.
    rewrite (internal_sends (emit _ (Complete _ _))) by each_event.
    rewrite !app_nil_r. exact H.
Qed.

(** C9. A [server_tool_use] block without a [web_search_tool_result] of the
    same id in its assistant message never makes the validator throw: a
    history free of shape violations passes, whatever its pairing.  The
    condition is logged, once per such block, for every message the validator
    reaches, and the pass goes on to call the model. *)
Theorem unpaired_server_tool_use_only_warns :
  ∀ (history : list Message),
    let result := Validator.validateConversationHistory history in
    ((∀ idx msg, history !! idx = Some msg → ¬ Spec.offending (length history) idx msg) →
     result.2 = None)
    ∧ (∀ idx id, In (Validator.ServerToolUseWithoutResult idx id) result.1
                 ↔ ∃ msg, history !! idx = Some msg ∧ Spec.unpaired msg id
                          ∧ ∀ e, result.2 = Some e → idx < Validator.errorIndex e)
    ∧ (∀ st : LoopState World, conversationHistory st = history → result.2 = None →
         Spec.sends (turn st).1 = [history] ∧ Spec.warnings (turn st).1 = result.1).
Proof.
  intros history result.
  destruct (validate_spec history) as (He & _ & Hw). fold result in He, Hw.
  split; [| split; [exact Hw |]].
  - intros Hok. destruct result.2 as [e|] eqn:Hr; [| reflexivity].
    destruct (He e eq_refl) as (msg & Hidx & Hoff & _).
    exfalso. exact (Hok _ msg Hidx Hoff).
  - intros st <- Hr. destruct (turn st) as [evs r] eqn:Hturn.
    pose proof (turn_traffic st evs r Hturn) as [Hws Htr]. cbv zeta in Hws, Htr.
    fold result in Hws, Htr. rewrite Hr in Htr. cbn [fst snd].
    split; [apply Htr | exact Hws].
Qed.

(** *** Phases *)

Lemma afterResponse_no_thinking st response evs r :
  afterResponse st response = (evs, r) → ¬ In thinking (Spec.phases evs).
Proof.
  intros Hrun. destruct (afterResponse_spec st response evs r Hrun) as (_ & Hp & _).
  cbv zeta in Hp. rewrite Hp. clear Hp.
  set (toolUses := (Enforcer.injectReadBeforeWriteBlocks _ _).2).
  destruct (thinkingTransition_events (buffers st) toolUses) as (_ & _ & ->).
  destruct (flushSummary_events (thinkingTransition (buffers st) toolUses).1) as (_ & _ & ->).
  rewrite in_app_iff.
  destruct (_ && supplied callbacks onPhase), (bool_decide (toolUses = []));
    try destruct (_ && supplied callbacks onPhase);
    try destruct (supplied callbacks onPhase); simpl; intuition discriminate.
Qed.

(** "Thinking..." is never shown on a turn that follows tool execution. *)
Lemma turn_no_thinking st evs r :
  justExecutedTools st = true → turn st = (evs, r) → ¬ In thinking (Spec.phases evs).
Proof.
  intros Hj Hturn.
  destruct (Validator.validateConversationHistory (conversationHistory st)) as [ws [e|]] eqn:Hv.
  - pose proof (turn_traffic st evs r Hturn) as [_ Htr]. cbv zeta in Htr.
    rewrite Hv in Htr. destruct Htr as (_ & _ & _ & -> & _). intros [].
  - destruct (turn_unfold st evs r ws Hv Hturn) as (st1 & evs2 & -> & _ & _ & _ & _ & _ & _ & Hrest).
    unfold Spec.turnStart. rewrite Hj. cbn [fst snd].
    destruct (map_warning_projections ws) as (_ & _ & Hwp & _).
    rewrite !phases_app, Hwp, handleDeltas_no_phase. simpl.
    destruct ((sendMessage (world st) (conversationHistory st)).2.2) as [m|response].
    + destruct Hrest as [_ ->]. intros [].
    + eapply afterResponse_no_thinking, Hrest.
Qed.

Lemma turnLoop_no_thinking fuel : ∀ st evs res,
  justExecutedTools st = true → turnLoop fuel st = (evs, res) →
  ¬ In thinking (Spec.phases evs).
Proof.
  induction fuel as [|fuel IH]; intros st evs res Hj Hrun; simpl in Hrun.
  - destruct (turnCount st <? MAX_AGENT_TURNS); injection Hrun as <- <-; intros [].
  - destruct (turnCount st <? MAX_AGENT_TURNS); [| injection Hrun as <- <-; intros []].
    destruct (turn st) as [evs1 r] eqn:Hturn.
    pose proof (turn_no_thinking st evs1 r Hj Hturn) as H1.
    destruct r as [st'|st'|reason]; try (injection Hrun as <- <-; exact H1).
    destruct (turnLoop fuel st') as [evs2 res2] eqn:Hloop. injection Hrun as <- <-.
    pose proof (turn_traffic st evs1 (Continue st') Hturn) as [_ Htr]. cbv zeta in Htr.
    assert (justExecutedTools st' = true) as Hj'.
    { destruct (Validator.validateConversationHistory _).2; [destruct Htr; discriminate |].
      apply Htr. }
    rewrite phases_app, in_app_iff. intros [H|H]; [exact (H1 H) |].
    exact (IH st' evs2 res2 Hj' Hloop H).
Qed.

(** A turn that follows tool execution, once the thinking phase is over:
    its text goes to the summary buffer. *)
Lemma turn_later st evs r ws :
  supplied callbacks onPhase = true →
  justExecutedTools st = true → isInThinkingPhase (buffers st) = false →
  Validator.validateConversationHistory (conversationHistory st) = (ws, None) →
  turn st = (evs, r) →
  let sr := (sendMessage (world st) (conversationHistory st)).2 in
  match r with
  | Continue st' =>
      Spec.phases evs = [code_writing] ∧ isInThinkingPhase (buffers st') = false
  | Break _ => Spec.phases evs = if Spec.streamsText sr then [building] else []
  | Abort _ => True
  end.
Proof.
  intros Hcb Hj Hth Hv Hturn sr.
  destruct (turn_unfold st evs r ws Hv Hturn)
    as (st1 & evs2 & -> & _ & _ & Hbuf & _ & _ & _ & Hrest).
  fold sr in Hbuf, Hrest |- *. unfold Spec.turnStart in *. rewrite Hj, Hth in *.
  cbn [fst snd] in *.
  rewrite handleDeltas_buffering in Hbuf by reflexivity. cbn in Hbuf.
  change ("" +:+ Spec.streamedText sr.1) with (Spec.streamedText sr.1) in Hbuf.
  destruct (map_warning_projections ws) as (_ & _ & Hwp & _).
  rewrite !phases_app, Hwp, handleDeltas_no_phase.
  cbn [Spec.phases flat_map Spec.phaseOf app].
  destruct sr.2 as [m|response]; [destruct Hrest as [-> _]; exact I |].
  destruct (afterResponse_spec st1 response evs2 r Hrest) as (_ & Hp & _ & Hr).
  cbv zeta in Hp, Hr. rewrite Hbuf in Hp, Hr.
  rewrite thinkingTransition_idle in Hp, Hr by reflexivity. cbn [fst snd] in Hp, Hr.
  destruct r as [st'|st'|reason]; [| | exact I].
  - destruct Hr as (Htools & _ & _ & Hb & _).
    rewrite bool_decide_eq_false_2 in Hp by exact Htools. rewrite Hcb in Hp.
    split; [exact Hp | rewrite Hb; reflexivity].
  - destruct Hr as (Htools & _). rewrite bool_decide_eq_true_2 in Hp by exact Htools.
    destruct (flushSummary_events
                (mkBuffers (thinkingBuffer (buffers st)) false (Spec.streamedText sr.1) true))
      as (_ & _ & Hf).
    rewrite Hp, Hf. cbn [isInSummaryPhase summaryBuffer]. rewrite Hcb.
    unfold Spec.streamsText, nonEmpty. destruct (negb _); reflexivity.
Qed.

Lemma turnLoop_later fuel : ∀ st evs st',
  supplied callbacks onPhase = true →
  justExecutedTools st = true → isInThinkingPhase (buffers st) = false →
  turnLoop fuel st = (evs, Exited st') →
  Spec.phases evs = Spec.laterPhases (Spec.replies evs).
Proof.
  induction fuel as [|fuel IH]; intros st evs st' Hcb Hj Hth Hrun; simpl in Hrun.
  - destruct (turnCount st <? MAX_AGENT_TURNS); [discriminate |].
    injection Hrun as <- <-. reflexivity.
  - destruct (turnCount st <? MAX_AGENT_TURNS); [| injection Hrun as <- <-; reflexivity].
    destruct (turn st) as [evs1 r] eqn:Hturn.
    pose proof (turn_traffic st evs1 r Hturn) as [_ Htr]. cbv zeta in Htr.
    destruct (Validator.validateConversationHistory (conversationHistory st))
      as [ws [e|]] eqn:Hv; cbn [snd] in Htr.
    { destruct Htr as (-> & _). discriminate. }
    destruct Htr as (_ & Hr & Hres).
    pose proof (turn_later st evs1 r ws Hcb Hj Hth Hv Hturn) as Hp. cbv zeta in Hp.
    destruct r as [st1|st1|reason]; [| | discriminate].
    + destruct (turnLoop fuel st1) as [evs2 res2] eqn:Hloop. injection Hrun as <- ->.
      destruct Hp as [Hp Hth1]. destruct Hres as (Hreq & _ & Hj1).
      rewrite phases_app, replies_app, Hp, Hr. simpl. rewrite Hreq.
      rewrite (IH st1 evs2 st' Hcb Hj1 Hth1 Hloop). reflexivity.
    + injection Hrun as <- _. destruct Hres as (Hreq & _).
      rewrite Hr. simpl. rewrite Hreq. exact Hp.
Qed.

Lemma thinkingTransition_summary buf toolUses :
  isInSummaryPhase (thinkingTransition buf toolUses).1 = isInSummaryPhase buf.
Proof.
  unfold Loop.thinkingTransition.
  destruct (_ && (0 <? length toolUses)); [reflexivity |].
  destruct (_ && (length toolUses =? 0)); reflexivity.
Qed.

(** The first turn of a request. *)
Lemma turn_first st evs r ws :
  supplied callbacks onPhase = true →
  justExecutedTools st = false → buffers st = mkBuffers "" false "" false →
  Validator.validateConversationHistory (conversationHistory st) = (ws, None) →
  turn st = (evs, r) →
  let sr := (sendMessage (world st) (conversationHistory st)).2 in
  (∃ ps, Spec.phases evs = (if Spec.hasText sr.1 then [thinking] else []) ++ ps
         ∧ ¬ In thinking ps)
  ∧ match r with
    | Continue st' =>
        Spec.streamsText sr = true →
        Spec.phases evs = [thinking; reasoning; code_writing]
        ∧ isInThinkingPhase (buffers st') = false
    | Break _ => ¬ In reasoning (Spec.phases evs)
    | Abort _ => True
    end.
Proof.
  intros Hcb Hj Hbuf0 Hv Hturn sr.
  destruct (turn_unfold st evs r ws Hv Hturn)
    as (st1 & evs2 & -> & _ & _ & Hbuf & _ & _ & _ & Hrest).
  fold sr in Hbuf, Hrest |- *. unfold Spec.turnStart in *. rewrite Hj, Hbuf0 in *.
  cbn [fst snd] in *.
  rewrite handleDeltas_first in Hbuf |- * by (assumption || reflexivity).
  cbn [thinkingBuffer summaryBuffer isInSummaryPhase isInThinkingPhase] in Hbuf |- *.
  destruct (map_warning_projections ws) as (_ & _ & Hwp & _).
  rewrite !phases_app, Hwp. cbn [Spec.phases flat_map Spec.phaseOf app].
  assert (Spec.phases (if Spec.hasText sr.1
                       then (true, mkBuffers ("" +:+ Spec.streamedText sr.1) true "" false,
                             [Phase thinking])
                       else (false, mkBuffers "" false "" false, [])).2
          = if Spec.hasText sr.1 then [thinking] else []) as ->
    by (destruct (Spec.hasText sr.1); reflexivity).
  fold (Spec.phases evs2).
  destruct sr.2 as [m|response].
  { destruct Hrest as [-> ->]. split; [| exact I]. exists []. split; [reflexivity | intros []]. }
  pose proof (afterResponse_no_thinking st1 response evs2 r Hrest) as Hnt.
  split; [exists (Spec.phases evs2); split; [reflexivity | exact Hnt] |].
  destruct (afterResponse_spec st1 response evs2 r Hrest) as (_ & Hp & _ & Hr).
  cbv zeta in Hp, Hr.
  set (toolUses := (Enforcer.injectReadBeforeWriteBlocks _ _).2) in *.
  destruct (thinkingTransition_events (buffers st1) toolUses) as (_ & _ & Htp).
  destruct r as [st'|st'|reason]; [| | exact I].
  - intros Hstreams. destruct Hr as (Htools & _ & _ & Hb & _).
    unfold Spec.streamsText in Hstreams. apply negb_true_iff, bool_decide_eq_false in Hstreams.
    rewrite (streamedText_hasText _ Hstreams) in *. cbn [fst snd] in Hbuf.
    change ("" +:+ Spec.streamedText sr.1) with (Spec.streamedText sr.1) in Hbuf.
    assert (nonEmpty (thinkingBuffer (buffers st1)) = true) as Hne.
    { rewrite Hbuf. unfold nonEmpty. cbn. apply negb_true_iff, bool_decide_eq_false.
      exact Hstreams. }
    split.
    + rewrite Hp, Htp, Hne, Hcb. rewrite bool_decide_eq_false_2 by exact Htools.
      rewrite Hbuf. cbn [isInThinkingPhase andb].
      destruct toolUses; [contradiction | reflexivity].
    + rewrite Hb. apply thinkingTransition_leaves; assumption.
  - destruct Hr as (Htools & _). rewrite Hp, Htp, Htools.
    rewrite bool_decide_eq_true_2 by reflexivity.
    destruct (flushSummary_events (thinkingTransition (buffers st1) []).1) as (_ & _ & ->).
    rewrite thinkingTransition_summary.
    assert (isInSummaryPhase (buffers st1) = false) as ->
      by (rewrite Hbuf; destruct (Spec.hasText sr.1); reflexivity).
    cbn. rewrite !andb_false_r. cbn. rewrite app_nil_r.
    destruct (Spec.hasText sr.1); simpl; intuition discriminate.
Qed.

Lemma phases_of_the_end evs (st : LoopState World) :
  supplied callbacks onPhase = true →
  Spec.phases (evs ++ emit (supplied callbacks onPhase) (Phase completed)
                   ++ emit (supplied callbacks onComplete)
                           (Complete (totalInputTokens st) (totalOutputTokens st)))
  = Spec.phases evs ++ [completed].
Proof.
  intros ->. rewrite phases_app. destruct (supplied callbacks onComplete); reflexivity.
Qed.

Lemma replies_of_the_end evs (st : LoopState World) :
  Spec.replies (evs ++ emit (supplied callbacks onPhase) (Phase completed)
                    ++ emit (supplied callbacks onComplete)
                            (Complete (totalInputTokens st) (totalOutputTokens st)))
  = Spec.replies evs.
Proof.
  rewrite replies_app, (internal_replies (_ ++ _)) by each_event. apply app_nil_r.
Qed.

Lemma turnLoop_done fuel st :
  MAX_AGENT_TURNS ≤ turnCount st → turnLoop fuel st = ([], Exited st).
Proof.
  intros H. apply Nat.ltb_ge in H. destruct fuel; simpl; rewrite H; reflexivity.
Qed.

Lemma turnLoop_step fuel st :
  turnCount st < MAX_AGENT_TURNS →
  turnLoop (S fuel) st
  = match turn st with
    | (evs, Continue st') => let '(evs', r) := turnLoop fuel st' in (evs ++ evs', r)
    | (evs, Break st') => (evs, Exited st')
    | (evs, Abort reason) => (evs, Aborted reason)
    end.
Proof. intros H. apply Nat.ltb_lt in H. simpl. rewrite H. reflexivity. Qed.

(** C5 (amended). With an [onPhase] handler: for a request that returns and
    whose first model turn streams non-empty text and produces at least one
    tool invocation, the phases are, in this order, thinking, reasoning,
    code-writing once per tool-executing turn, building if the request ends on
    a turn without tool invocations that streamed non-empty text, and
    completed.  If the first turn has no tool invocation, reasoning is not
    emitted.  Thinking is only ever the first phase of a request: it is
    emitted on no later turn. *)
Theorem phases_in_order :
  supplied callbacks onPhase = true →
  ∀ (w : World) (history : list Message) (userMessage : string),
    let run := processRequest w history userMessage in
    let rs := Spec.replies run.1 in
    (∀ r1 rest, rs = r1 :: rest → Spec.returned run.2 = true →
                Spec.streamsText r1 = true → Spec.requestsTools r1 = true →
                Spec.phases run.1
                = [thinking; reasoning] ++ repeat code_writing (Spec.toolTurns rs)
                  ++ (if Spec.endsWithSummary rs then [building] else []) ++ [completed])
    ∧ (∀ r1 rest, rs = r1 :: rest → Spec.returned run.2 = true →
                  Spec.requestsTools r1 = false → ¬ In reasoning (Spec.phases run.1))
    ∧ ¬ In thinking (tail (Spec.phases run.1)).
Proof.
  intros Hcb w history userMessage. unfold Loop.processRequest.
  set (st0 := initialState World w history userMessage).
  destruct (Nat.eq_dec MAX_AGENT_TURNS 0) as [Hmax|Hmax].
  { rewrite turnLoop_done by (simpl; lia). cbn [fst snd].
    rewrite replies_of_the_end, phases_of_the_end by assumption.
    split; [intros; discriminate |]. split; [intros; discriminate | intros []]. }
  set (fuel := MAX_AGENT_TURNS - 1).
  assert (turnLoop MAX_AGENT_TURNS st0
          = match turn st0 with
            | (evs, Continue st') => let '(evs', r) := turnLoop fuel st' in (evs ++ evs', r)
            | (evs, Break st') => (evs, Exited st')
            | (evs, Abort reason) => (evs, Aborted reason)
            end) as ->.
  { pose proof (turnLoop_step fuel st0 ltac:(simpl; lia)) as H.
    replace (S fuel) with MAX_AGENT_TURNS in H by (unfold fuel; lia). exact H. }
  destruct (turn st0) as [evs1 r] eqn:Hturn.
  pose proof (turn_traffic st0 evs1 r Hturn) as [_ Htr]. cbv zeta in Htr.
  destruct (Validator.validateConversationHistory (conversationHistory st0))
    as [ws [e|]] eqn:Hv; cbn [snd] in Htr.
  { destruct Htr as (-> & _ & Hr & Hp & _). cbn [fst snd]. rewrite Hr, Hp.
    split; [intros; discriminate |]. split; [intros; discriminate | intros []]. }
  destruct Htr as (_ & Hr & Hres).
  destruct (turn_first st0 evs1 r ws Hcb eq_refl eq_refl Hv Hturn) as [(ps & Hps & Hnt) Hfirst].
  cbv zeta in Hps, Hfirst.
  set (sr := (sendMessage (world st0) (conversationHistory st0)).2) in *.
  destruct r as [st1|st1|reason].
  - destruct Hres as (Hreq & Htc & Hj).
    destruct (turnLoop fuel st1) as [evs2 res2] eqn:Hloop.
    pose proof (turnLoop_no_thinking fuel st1 evs2 res2 Hj Hloop) as Hnt2.
    destruct res2 as [st'|reason|]; cbn [fst snd].
    + rewrite replies_of_the_end, phases_of_the_end, replies_app, phases_app, Hr
        by assumption.
      split; [| split].
      * intros r1 rest [= <- <-] _ Hstreams _.
        destruct (Hfirst Hstreams) as [Hp1 Hth].
        rewrite Hp1, (turnLoop_later fuel st1 evs2 st' Hcb Hj Hth Hloop).
        destruct (turnLoop_spec fuel st1 evs2 (Exited st') ltac:(unfold fuel; lia) Hloop)
          as (_ & _ & Hshape).
        rewrite (laterPhases_shape _ _ _ Hshape).
        unfold Spec.toolTurns, Spec.endsWithSummary. simpl. rewrite Hreq. simpl.
        destruct (Spec.replies evs2) as [|r2 rs2]; simpl; [rewrite Hreq |];
          rewrite <- ?app_assoc; reflexivity.
      * intros r1 rest [= <- <-] _ Hno. congruence.
      * rewrite Hps, <- !app_assoc. apply tail_after_thinking.
        rewrite !in_app_iff. simpl. intuition discriminate.
    + split; [intros; discriminate |]. split; [intros; discriminate |].
      rewrite phases_app, Hps, <- app_assoc. apply tail_after_thinking.
      rewrite in_app_iff. tauto.
    + split; [intros; discriminate |]. split; [intros; discriminate |].
      rewrite phases_app, Hps, <- app_assoc. apply tail_after_thinking.
      rewrite in_app_iff. tauto.
  - destruct Hres as (Hreq & _). cbn [fst snd].
    rewrite replies_of_the_end, phases_of_the_end, Hr by assumption.
    split; [| split].
    + intros r1 rest [= <- <-] _ _ Hyes. congruence.
    + intros r1 rest _ _ _. rewrite in_app_iff. simpl. intuition discriminate.
    + rewrite Hps, <- app_assoc. apply tail_after_thinking.
      rewrite in_app_iff. simpl. intuition discriminate.
  - cbn [fst snd].
    split; [intros; discriminate |]. split; [intros; discriminate |].
    rewrite Hps. apply tail_after_thinking. exact Hnt.
Qed.

(** *** The enforcer inside the loop *)

(** C6. An [either-write] invocation is emitted as it is, with nothing
    injected before it.  The enforcer starts every turn with an empty set of
    read paths: in whatever state the loop is (whatever earlier turns
    created or read), when a response edits the non-empty path [P] with
    [either-line-replace] and no read of [P] was emitted earlier in this
    turn, the blocks stored for the turn have a synthetic read of [P]
    immediately before the edit, and the runner is given the invocations in
    that order. *)
Theorem create_passes_and_reads_are_per_turn :
  (∀ (ids : nat → string) (pre post : list ContentBlock) (id : string) (input : ToolInput),
     let write := ToolUseBlock id "either-write" input in
     let before := (Enforcer.injectReadBeforeWriteBlocks ids pre).1 in
     let result := Enforcer.injectReadBeforeWriteBlocks ids (pre ++ write :: post) in
     ∃ tail, result.1 = before ++ write :: tail
             ∧ result.2 = toolUsesOf before ++ mkToolUse id "either-write" input
                                               :: toolUsesOf tail)
  ∧ (∀ (st : LoopState World) (response : Response) (pre post : list ContentBlock)
       (id : string) (input : ToolInput) (P : string) (evs : list Event) (r : TurnResult World),
       let edit := ToolUseBlock id "either-line-replace" input in
       let before := (Enforcer.injectReadBeforeWriteBlocks (injectedId (turnCount st)) pre).1 in
       r_content response = pre ++ edit :: post →
       getField input "path" = JStr P → P ≠ "" →
       existsb (Spec.isReadOf P) before = false →
       afterResponse st response = (evs, r) →
       ∃ k tail,
         let blocks :=
           before ++ Enforcer.injectedRead (injectedId (turnCount st) k) P
                  :: Spec.annotate edit :: tail in
         (Enforcer.injectReadBeforeWriteBlocks (injectedId (turnCount st))
            (r_content response)).1 = blocks
         ∧ (dryRun = false → Spec.executed evs = toolUsesOf blocks)
         ∧ (∀ st', r = Continue st' →
              ∃ results,
                conversationHistory st'
                = conversationHistory st
                  ++ [mkMessage assistant (ContentArray blocks);
                      mkMessage user (ContentArray (map ToolResultBlock results))])).
Proof.
  split.
  - intros ids pre post id input write before result.
    destruct (enforce_at ids pre post write) as (_ & Hout & Htools & tail & Hres).
    exists tail. unfold before. rewrite <- Hout.
    change (Spec.injection ids _ write) with (@nil ContentBlock) in Hres.
    change (Spec.annotate write) with write in Hres. rewrite app_nil_l in Hres.
    split; [exact Hres |]. subst result. rewrite Htools, Hres, toolUsesOf_app. reflexivity.
  - intros st response pre post id input P evs r edit before Hcontent Hpath Hne Hunread Hrun.
    destruct (enforce_at (injectedId (turnCount st)) pre post edit)
      as (Hst & Hout & Htools & tail & Hres).
    set (est := Enforcer.run (injectedId (turnCount st)) Enforcer.initial pre) in *.
    pose proof (injection_edit (injectedId (turnCount st)) est id input P Hst Hpath Hne)
      as Hinj.
    fold edit in Hinj. fold before in Hout. rewrite Hout, Hunread in Hinj.
    rewrite Hinj, Hout in Hres. rewrite <- Hcontent in Hres, Htools.
    exists (Enforcer.injectedSoFar est), tail. cbv zeta. split; [exact Hres |].
    destruct (afterResponse_spec st response evs r Hrun) as (_ & _ & Hex & Hr).
    cbv zeta in Hex, Hr. split.
    + intros Hdry. rewrite Hdry in Hex. rewrite Hex, Htools, Hres. reflexivity.
    + intros st' ->. destruct Hr as (_ & _ & _ & _ & results & Hh). exists results.
      rewrite Hh, Hres. unfold Spec.assistantMessage.
      rewrite length_app. simpl.
      replace (0 <? length before + S (S (length tail))) with true
        by (symmetry; apply Nat.ltb_lt; lia).
      reflexivity.
Qed.

(** *** Events around tool execution *)




Lemma reportedPaths_spec (results : list ToolResult) (v : JValue) :
  v ∈ reportedPaths results
  ↔ ∃ result, In result results ∧ metadata_path result = v
              ∧ truthy v = true ∧ is_error result = false.
Proof.
  unfold Loop.reportedPaths. rewrite reportedPaths_from. split; [| auto].
  intros [H|H]; [| exact H]. apply not_elem_of_empty in H. contradiction.
Qed.

Lemma thinkingTransition_no_checker_warning buf toolUses :
  Spec.checkerWarnings (thinkingTransition buf toolUses).2 = [].
Proof.
  unfold Loop.thinkingTransition.
  destruct (_ && (0 <? length toolUses)); [apply flat_map_nil_Forall; each_event |].
  destruct (_ && (length toolUses =? 0)); apply flat_map_nil_Forall; each_event.
Qed.

Lemma executeToolUse_no_checker_warning tl tu :
  Spec.checkerWarnings (executeToolUse tl tu).2 = [].
Proof.
  unfold Loop.executeToolUse, Loop.trackFileOperation.
  destruct (truthy _ && isWriteTool _).
  - destruct (if bool_decide (_ ∈ filesCreatedThisRequest _) then _ else _) as [op fc].
    destruct (negb _); destruct (executeTools _ tu);
      apply flat_map_nil_Forall; each_event.
  - destruct (executeTools _ tu); apply flat_map_nil_Forall; each_event.
Qed.

Lemma executeToolUsesFrom_no_checker_warning toolUses : ∀ tl,
  Spec.checkerWarnings (executeToolUsesFrom tl toolUses).2 = [].
Proof.
  induction toolUses as [|tu rest IH]; intros tl; [reflexivity |]. simpl.
  pose proof (executeToolUse_no_checker_warning tl tu) as H0.
  destruct (executeToolUse tl tu) as [tl1 e1].
  specialize (IH tl1). destruct (executeToolUsesFrom tl1 rest) as [tl2 e2].
  cbn [fst snd] in *. unfold Spec.checkerWarnings in *.
  rewrite flat_map_app, H0, IH. reflexivity.
Qed.

(** Outside dry runs the loop gives the checker the paths reported by the
    results of this turn, and appends its findings to the last of them. *)
Lemma afterResponse_checker st response evs st' :
  dryRun = false → afterResponse st response = (evs, Continue st') →
  let enforced :=
    Enforcer.injectReadBeforeWriteBlocks (injectedId (turnCount st)) (r_content response) in
  let results := toolResults World (executeToolUses (world st) (files st) enforced.2).1 in
  ∃ missing,
    Checker.checkMissingFileReferences (reportedPaths results) results enforced.2
    = Some missing
    ∧ conversationHistory st'
      = conversationHistory st
        ++ [Spec.assistantMessage enforced.1;
            mkMessage user
              (ContentArray
                 (map ToolResultBlock
                    (if (0 <? length missing) && (0 <? length results)
                     then appendToLast results (Checker.warningMessage missing)
                     else results)))]
    ∧ Spec.checkerWarnings evs
      = if (0 <? length missing) && (0 <? length results)
        then [Checker.warningMessage missing] else [].
Proof.
  intros Hdry. unfold Loop.afterResponse. rewrite Hdry. cbv zeta.
  destruct (Enforcer.injectReadBeforeWriteBlocks _ _) as [blocks toolUses]. cbn [fst snd].
  pose proof (thinkingTransition_no_checker_warning (buffers st) toolUses) as Hw1.
  destruct (thinkingTransition _ _) as [buf evThinking]. cbn [snd] in Hw1.
  assert (∀ h (evPush : list Event),
            (if 0 <? length blocks
             then (conversationHistory st ++ [mkMessage assistant (ContentArray blocks)], [])
             else (conversationHistory st ++ [mkMessage assistant (ContentArray [TextBlock "..."])],
                   [PlaceholderWarning])) = (h, evPush) →
            h = conversationHistory st ++ [Spec.assistantMessage blocks]
            ∧ Spec.checkerWarnings evPush = []) as Hpush.
  { intros h evPush. unfold Spec.assistantMessage.
    destruct (0 <? length blocks); intros [= <- <-]; split; reflexivity. }
  destruct (if 0 <? length blocks then _ else _) as [history evPush].
  destruct (Hpush history evPush eq_refl) as (-> & Hw0). clear Hpush.
  destruct (length toolUses =? 0).
  { destruct (flushSummary _). destruct (_ && _); [destruct (runVerification _ _) |];
      discriminate. }
  unfold Loop.executeToolUses.
  pose proof (executeToolUsesFrom_no_checker_warning toolUses
                (mkToolLoop World (world st) (files st) ∅ [])) as Hw2.
  destruct (executeToolUsesFrom _ toolUses) as [tl evTools]. cbn [fst snd] in *.
  destruct (Checker.checkMissingFileReferences _ _ toolUses) as [missing|]; [| discriminate].
  intros Hrun. exists missing. split; [reflexivity |].
  assert (∀ st'' : LoopState World,
            (if bool_decide (stopReason response = Some "end_turn")
             then Continue st'' else Continue st'') = Continue st'') as Hcont
    by (intros; destruct (bool_decide _); reflexivity).
  destruct ((0 <? length missing) && (0 <? length (toolResults World tl)));
    rewrite Hcont in Hrun; injection Hrun as <- <-; cbn [conversationHistory];
    (split; [rewrite <- app_assoc; reflexivity |]);
    unfold Spec.checkerWarnings in *;
    rewrite !flat_map_app, Hw0, Hw1, Hw2, flat_map_emit;
    destruct (_ && supplied callbacks onPhase); reflexivity.
Qed.

(** C7 (amended). The checker scans the files written with [either-write]
    in the current turn (non-empty string path and content, result not an
    error).  It flags a reference of such a file exactly when the target
    resolves to no member of the set of files it is given, where a script or
    stylesheet target of an [.html] file is tried as written and without a
    leading [./] or [/], and a relative import of a [.js], [.jsx], [.ts] or
    [.tsx] file is tried as written, with the source extensions, as
    [index.*] and relative to [src/].  The set the loop gives it holds the
    paths reported by the successful results of the current turn. *)
Theorem missing_references_of_the_turn :
  (∀ (createdFiles : gset JValue) (results : list ToolResult) (toolUses : list ToolUse)
     (missing : list Checker.MissingRef),
     Checker.checkMissingFileReferences createdFiles results toolUses = Some missing →
     ∀ m, In m missing
          ↔ ∃ idx tu path content,
              toolUses !! idx = Some tu ∧ Spec.scanned results idx tu path content
              ∧ Spec.flagged createdFiles path content m)
  ∧ (∀ (st : LoopState World) (response : Response) (evs : list Event) (st' : LoopState World),
       dryRun = false → afterResponse st response = (evs, Continue st') →
       let enforced :=
         Enforcer.injectReadBeforeWriteBlocks (injectedId (turnCount st))
           (r_content response) in
       let results := toolResults World (executeToolUses (world st) (files st) enforced.2).1 in
       ∃ missing,
         Checker.checkMissingFileReferences (reportedPaths results) results enforced.2
         = Some missing
         ∧ conversationHistory st'
           = conversationHistory st
             ++ [Spec.assistantMessage enforced.1;
                 mkMessage user
                   (ContentArray
                      (map ToolResultBlock
                         (if (0 <? length missing) && (0 <? length results)
                          then appendToLast results (Checker.warningMessage missing)
                          else results)))]
         ∧ Spec.checkerWarnings evs
           = if (0 <? length missing) && (0 <? length results)
             then [Checker.warningMessage missing] else [])
  ∧ (∀ (results : list ToolResult) (v : JValue),
       v ∈ reportedPaths results
       ↔ ∃ result, In result results ∧ metadata_path result = v
                   ∧ truthy v = true ∧ is_error result = false).
Proof.
  split; [| split].
  - apply checkMissingFileReferences_spec.
  - apply afterResponse_checker.
  - apply reportedPaths_spec.
Qed.

End LoopFacts.

(** ** The properties on concrete requests *)

Lemma processRequest_turn_bound_witness :
  let run := Scenario.request Scenario.createThenEdit false Scenario.allCallbacks in
  length (Spec.sends run.1) = 3
  ∧ length (Spec.sends run.1) ≤ 20
  ∧ ((∃ text st, run.2 = Loop.Returned text st) ∨ (∃ reason, run.2 = Loop.Threw reason)).
Proof.
  intros run. split; [vm_compute; reflexivity |].
  apply (processRequest_turn_bound nat (Scenario.send Scenario.createThenEdit)
           Scenario.runner Scenario.verifier Scenario.stringify Scenario.ids 20 3%positive
           false Scenario.allCallbacks 0 [] "Build the app").
Defined.

(** In this request the second turn stops with [end_turn] after asking for
    a tool; the loop still calls the model a third time, and returns on the
    third reply, which asks for no tool. *)
Lemma loop_continues_exactly_while_tools_are_requested_witness :
  let run := Scenario.request Scenario.createThenEdit false Scenario.allCallbacks in
  let rs := Spec.replies run.1 in
  map Spec.requestsTools rs = [true; true; false]
  ∧ (∃ r, rs !! 1 = Some r ∧ ∃ response, r.2 = inr response
          ∧ Loop.stopReason response = Some "end_turn")
  ∧ length rs < 20
  ∧ (Spec.returned run.2 = true
     ↔ ∃ r response, last rs = Some r ∧ r.2 = inr response
                     ∧ Spec.requestsTools r = false).
Proof.
  intros run rs. split; [vm_compute; reflexivity |]. split.
  { eexists. split; [vm_compute; reflexivity |]. eexists. split; reflexivity. }
  assert (length rs < 20) as Hbelow by (vm_compute; lia).
  split; [exact Hbelow |].
  destruct (loop_continues_exactly_while_tools_are_requested nat
              (Scenario.send Scenario.createThenEdit) Scenario.runner Scenario.verifier
              Scenario.stringify Scenario.ids 20 3%positive false Scenario.allCallbacks
              0 [] "Build the app") as (_ & _ & _ & H4 & _).
  exact (H4 Hbelow).
Defined.

(** C2, as stated, fails at the turn ceiling: the model asks for a tool in
    every turn, the tools of the twentieth turn are executed, and the request
    returns without a twenty-first model call. *)
Lemma tools_of_the_last_turn_are_followed_by_no_call :
  let run := Loop.processRequest nat Scenario.insistent Scenario.runner Scenario.verifier
               Scenario.stringify Scenario.ids 20 3%positive false Scenario.allCallbacks
               0 [] "Build the app" in
  let rs := Spec.replies run.1 in
  ¬ (∀ i r, rs !! i = Some r → Spec.requestsTools r = true → i + 1 < length rs)
  ∧ length (Spec.executed run.1) = 20
  ∧ length (Spec.sends run.1) = 20
  ∧ Spec.returned run.2 = true.
Proof.
  intros run rs.
  assert (length rs = 20) as Hlen by (vm_compute; reflexivity).
  split; [| repeat split; vm_compute; reflexivity].
  intros H.
  assert (∃ r, rs !! 19 = Some r ∧ Spec.requestsTools r = true) as (r & Hr & Hreq)
    by (eexists; split; vm_compute; reflexivity).
  specialize (H 19 r Hr Hreq). lia.
Qed.

Lemma phases_in_order_witness :
  let run := Scenario.request Scenario.createThenEdit false Scenario.allCallbacks in
  Loop.supplied Scenario.allCallbacks Loop.onPhase = true
  ∧ Spec.phases run.1
    = [Loop.thinking; Loop.reasoning; Loop.code_writing; Loop.code_writing;
       Loop.building; Loop.completed].
Proof.
  intros run. split; [reflexivity |].
  destruct (phases_in_order nat (Scenario.send Scenario.createThenEdit) Scenario.runner
              Scenario.verifier Scenario.stringify Scenario.ids 20 3%positive false
              Scenario.allCallbacks eq_refl 0 [] "Build the app") as [H _].
  unfold run, Scenario.request.
  etransitivity; [eapply H; vm_compute; reflexivity |].
  vm_compute. reflexivity.
Defined.

(** C5, as stated, fails when the first turn asks for a tool without
    streaming any text: neither thinking nor reasoning is emitted. *)
Lemma first_turn_without_text_has_no_thinking_phase :
  let run := Scenario.request Scenario.toolsWithoutText false Scenario.allCallbacks in
  (∃ r1 rest, Spec.replies run.1 = r1 :: rest ∧ Spec.requestsTools r1 = true)
  ∧ Spec.phases run.1 = [Loop.code_writing; Loop.building; Loop.completed].
Proof.
  intros run. split.
  - eexists _, _. split; vm_compute; reflexivity.
  - vm_compute. reflexivity.
Qed.

(** The response of the second turn of scenario B, which edits the file
    that the first turn created: the enforcer starts every response with no
    path read, so the read is injected. *)
Lemma create_passes_and_reads_are_per_turn_witness :
  let st := Loop.initialState nat 0 [] "Build the app" in
  let edit := Scenario.lineReplace "toolu_2" "src/App.tsx" in
  let response := Loop.mkResponse [TextBlock "Now the title."; edit] 10 5 (Some "end_turn") in
  let run := Loop.afterResponse nat Scenario.runner Scenario.verifier Scenario.stringify
               Scenario.ids 3%positive false Scenario.allCallbacks st response in
  ∃ k tail,
    let blocks := [TextBlock "Now the title."]
                  ++ Enforcer.injectedRead (Scenario.ids 0 k) "src/App.tsx"
                     :: Spec.annotate edit :: tail in
    (Enforcer.injectReadBeforeWriteBlocks (Scenario.ids 0) (Loop.r_content response)).1
    = blocks
    ∧ Spec.executed run.1 = toolUsesOf blocks.
Proof.
  intros st edit response run.
  destruct (create_passes_and_reads_are_per_turn nat Scenario.runner Scenario.verifier
              Scenario.stringify Scenario.ids 3%positive false Scenario.allCallbacks)
    as [_ H].
  destruct (H st response [TextBlock "Now the title."] [] "toolu_2"
              (Some {[ "path" := JStr "src/App.tsx";
                       "replacement" := JStr "<h1>Hello</h1>" ]})
              "src/App.tsx" run.1 run.2)
    as (k & tail & Hblocks & Hexec & _).
  - reflexivity.
  - vm_compute. reflexivity.
  - discriminate.
  - vm_compute. reflexivity.
  - apply surjective_pairing.
  - exists k, tail. split; [exact Hblocks | exact (Hexec eq_refl)].
Defined.

(** C7, as stated, fails twice.  The page written in the second turn refers
    to a script created in the first turn of the same request, and the loop
    still reports it; and a script target is not looked up under [src/],
    although an import of the same target would be. *)
Lemma script_of_an_earlier_turn_is_reported :
  let run := Scenario.request Scenario.scriptFromEarlierTurn false Scenario.allCallbacks in
  let page := "<html><script src='main.js'></script></html>" in
  let missing := [Checker.mkMissingRef "index.html" "script" "src" "main.js"] in
  Spec.checkerWarnings run.1 = [Checker.warningMessage missing]
  ∧ match run.2 with
    | Loop.Returned _ st =>
        bool_decide (JStr "main.js" ∈ Loop.filesCreatedThisRequest (Loop.files st))
    | _ => false
    end = true
  ∧ Checker.checkMissingFileReferences {[ JStr "src/main.js" ]}
      [mkToolResult "toolu_2" "ok" false (JStr "index.html")]
      [mkToolUse "toolu_2" "either-write"
         (Some {[ "path" := JStr "index.html"; "content" := JStr page ]})]
    = Some missing
  ∧ Checker.importExists {[ JStr "src/main.js" ]} "./main.js" = true.
Proof. repeat split; vm_compute; reflexivity. Qed.



(** The bare string of the specification's example: the validator throws
    and names the second message. *)
Lemma validator_raises_exactly_on_shape_violations_witness :
  let history := [mkMessage user (ContentArray [TextBlock "hi"]);
                  mkMessage assistant (ContentOther (JStr "hello"))] in
  (∃ idx msg, history !! idx = Some msg ∧ Spec.offending (length history) idx msg)
  ∧ ∃ e, (Validator.validateConversationHistory history).2 = Some e
         ∧ Validator.errorIndex e = 1.
Proof.
  intros history.
  assert (∃ idx msg, history !! idx = Some msg ∧ Spec.offending (length history) idx msg)
    as Hoff.
  { exists 1, (mkMessage assistant (ContentOther (JStr "hello"))).
    split; [reflexivity | exact I]. }
  split; [exact Hoff |].
  destruct (validator_raises_exactly_on_shape_violations nat (Scenario.send [])
              Scenario.runner Scenario.verifier Scenario.stringify Scenario.ids 20 3%positive
              false Scenario.allCallbacks history) as (H1 & H2 & _).
  destruct (proj1 H1 Hoff) as [e He]. exists e. split; [exact He |].
  destruct (H2 e He) as (msg & Hidx & Hoffe & _).
  destruct (Validator.errorIndex e) as [|[|n]]; [| reflexivity | discriminate Hidx].
  exfalso. injection Hidx as <-. destruct Hoffe as [H _]. discriminate H.
Defined.

Lemma unpaired_server_tool_use_only_warns_witness :
  let history := [mkMessage user (ContentArray [TextBlock "search"]);
                  mkMessage assistant
                    (ContentArray [ServerToolUseBlock "srvtoolu_1" "web_search"])] in
  let result := Validator.validateConversationHistory history in
  result.2 = None ∧ In (Validator.ServerToolUseWithoutResult 1 "srvtoolu_1") result.1.
Proof.
  intros history result.
  destruct (unpaired_server_tool_use_only_warns nat (Scenario.send []) Scenario.runner
              Scenario.verifier Scenario.stringify Scenario.ids 3%positive false
              Scenario.allCallbacks history) as (H1 & H2 & _).
  fold result in H1, H2.
  assert (result.2 = None) as Hnone.
  { apply H1. intros [|[|n]] msg Hidx; [| | discriminate Hidx];
      injection Hidx as <-; intros [H _]; discriminate H. }
  split; [exact Hnone |]. apply H2. eexists. split; [reflexivity |]. split.
  - split; [reflexivity |]. eexists. split; [reflexivity |]. split.
    + exists "web_search". left. reflexivity.
    + intros [H|[]]. discriminate H.
  - intros e He. rewrite Hnone in He. discriminate He.
Defined.

(** Two imports of [src/App.jsx]: [./components/Header] resolves to the
    index file of a directory under [src/]; [./components/Footer], written
    after a no-break space, resolves to nothing and is reported. *)
Lemma missing_references_of_the_turn_witness :
  let nbsp := String (ascii_of_nat 194) (String (ascii_of_nat 160) "") in
  let component := "import Header from './components/Header'" +:+ Checker.newline
                   +:+ "import" +:+ nbsp +:+ "Footer from './components/Footer'" in
  let results := [mkToolResult "toolu_1" "ok" false (JStr "src/App.jsx")] in
  let toolUses := [mkToolUse "toolu_1" "either-write"
                     (Some {[ "path" := JStr "src/App.jsx";
                              "content" := JStr component ]})] in
  let created : gset JValue :=
    {[ JStr "src/App.jsx"; JStr "src/components/Header/index.tsx" ]} in
  let m := Checker.mkMissingRef "src/App.jsx" "import" "from" "./components/Footer" in
  Checker.checkMissingFileReferences created results toolUses = Some [m]
  ∧ ∃ idx tu path content,
      toolUses !! idx = Some tu ∧ Spec.scanned results idx tu path content
      ∧ Spec.flagged created path content m.
Proof.
  intros nbsp component results toolUses created m.
  assert (Checker.checkMissingFileReferences created results toolUses = Some [m]) as Hc
    by (vm_compute; reflexivity).
  split; [exact Hc |].
  apply (proj1 (missing_references_of_the_turn nat Scenario.runner Scenario.verifier
                  Scenario.stringify Scenario.ids 3%positive false Scenario.allCallbacks)
           _ results toolUses [m] Hc).
  left. reflexivity.
Defined.

(** * Further properties *)

Import Props.

(** ** Further properties of the enforcer *)

Lemma snoc_eq_split {A : Type} (l before after : list A) (x e : A) :
  l ++ [x] = before ++ e :: after →
  (after = [] ∧ before = l ∧ e = x)
  ∨ ∃ after', after = after' ++ [x] ∧ l = before ++ e :: after'.
Proof.
  revert before. induction l as [|a l IH]; intros before H.
  - destruct before as [|b before]; simpl in H.
    + injection H as <- <-. left. auto.
    + injection H as _ H. destruct before; discriminate H.
  - destruct before as [|b before]; simpl in H.
    + injection H as <- <-. right. exists l. auto.
    + injection H as <- H. destruct (IH before H) as [(-> & -> & ->)|(after' & -> & ->)].
      * left. auto.
      * right. exists after'. auto.
Qed.

Lemma annotate_edit b id input :
  Spec.annotate b = ToolUseBlock id "either-line-replace" input →
  ∃ input0, b = ToolUseBlock id "either-line-replace" input0
            ∧ getField input "path" = getField input0 "path"
            ∧ truthy (getField input "needle") = truthy (getField input0 "needle").
Proof.
  destruct b as [t|id0 name input0|r|id0 name|tid|ty]; cbn [Spec.annotate]; try discriminate.
  destruct (bool_decide (name = "either-line-replace") && negb (truthy (getField input0 "needle")))
    eqn:Hc.
  - intros [= <- -> <-]. exists input0. split; [reflexivity |].
    split; [| f_equal]; apply getField_spreadWith_ne; discriminate.
  - intros [= <- -> <-]. exists input0. auto.
Qed.

Lemma injection_not_edit ids st b id input :
  ¬ In (ToolUseBlock id "either-line-replace" input) (Spec.injection ids st b).
Proof.
  destruct b as [t|id0 name input0|r|id0 name|tid|ty]; cbn [Spec.injection]; try (intros []).
  destruct (bool_decide _); [| intros []].
  destruct (nonEmptyString _); [| intros []].
  destruct (bool_decide _); [intros [] |].
  intros [H|[]]. discriminate H.
Qed.

Lemma step_guarded ids st b :
  Spec.consistent st → guarded (Enforcer.out st) → guarded (Enforcer.out (Enforcer.step ids st b)).
Proof.
  intros Hst Hg before id input after P Hout Hpath Hne.
  rewrite step_out, app_assoc in Hout.
  apply snoc_eq_split in Hout as [(-> & -> & Hann)|(after' & -> & Hout)].
  - symmetry in Hann. apply annotate_edit in Hann as (input0 & -> & Hp & _).
    rewrite Hp in Hpath.
    rewrite (injection_edit ids st id input0 P Hst Hpath Hne), existsb_app.
    destruct (existsb (Spec.isReadOf P) (Enforcer.out st)) eqn:Hread; [reflexivity |].
    cbn [existsb]. rewrite isReadOf_injectedRead, orb_false_r, orb_false_l.
    rewrite bool_decide_eq_true_2; [reflexivity | reflexivity].
  - destruct (injection_shape ids st b) as [Hnil|(k & Q & Hinj)]; rewrite ?Hnil, ?Hinj in Hout.
    + rewrite app_nil_r in Hout. exact (Hg _ _ _ _ _ Hout Hpath Hne).
    + apply snoc_eq_split in Hout as [(_ & _ & Hr)|(after'' & _ & Hout)].
      * discriminate Hr.
      * exact (Hg _ _ _ _ _ Hout Hpath Hne).
Qed.

Lemma run_guarded ids blocks : ∀ st,
  Spec.consistent st → guarded (Enforcer.out st) → guarded (Enforcer.out (Enforcer.run ids st blocks)).
Proof.
  induction blocks as [|b blocks IH]; intros st Hst Hg; [exact Hg |].
  apply IH; [apply step_consistent, Hst | apply step_guarded; assumption].
Qed.

Lemma toolUsesOf_split blocks : ∀ before tu after,
  toolUsesOf blocks = before ++ tu :: after →
  ∃ B A, blocks = B ++ ToolUseBlock (tu_id tu) (tu_name tu) (tu_input tu) :: A
         ∧ toolUsesOf B = before.
Proof.
  induction blocks as [|b blocks IH]; intros before tu after H.
  - destruct before; discriminate H.
  - assert (∀ B A, blocks = B ++ ToolUseBlock (tu_id tu) (tu_name tu) (tu_input tu) :: A
                   → toolUseOf b = [] → toolUsesOf (b :: B) = toolUsesOf B) as Hskip
      by (intros B A _ Hb; unfold toolUsesOf; simpl; rewrite Hb; reflexivity).
    destruct b as [t|id name input|r|id name|tid|ty];
      try (destruct (IH before tu after H) as (B & A & -> & <-);
           eexists (_ :: B), A; split; reflexivity).
    change (mkToolUse id name input :: toolUsesOf blocks = before ++ tu :: after) in H.
    destruct before as [|x before]; simpl in H.
    + injection H as <- _. exists [], blocks. split; reflexivity.
    + injection H as <- H. destruct (IH before tu after H) as (B & A & -> & <-).
      exists (ToolUseBlock id name input :: B), A. split; reflexivity.
Qed.

Lemma isReadOf_toolUse P blocks :
  existsb (Spec.isReadOf P) blocks = true →
  ∃ read, In read (toolUsesOf blocks) ∧ tu_name read = "either-view"
          ∧ getField (tu_input read) "path" = JStr P.
Proof.
  intros H. apply existsb_exists in H as (b & Hin & Hb).
  destruct b as [t|id name input|r|id name|tid|ty]; try discriminate Hb.
  cbn [Spec.isReadOf] in Hb. apply andb_true_iff in Hb as [Hn Hp].
  apply bool_decide_eq_true_1 in Hn, Hp.
  exists (mkToolUse id name input). split; [| auto].
  unfold toolUsesOf. apply in_flat_map. exists (ToolUseBlock id name input).
  split; [assumption | left; reflexivity].
Qed.

(** X1. In the executable list the enforcer returns, every
    [either-line-replace] of a non-empty string path comes after an
    [either-view] of the same path. *)
Theorem every_edit_follows_a_read_of_its_path :
  ∀ (ids : nat → string) (blocks : list ContentBlock)
    (before : list ToolUse) (edit : ToolUse) (after : list ToolUse) (P : string),
    (Enforcer.injectReadBeforeWriteBlocks ids blocks).2 = before ++ edit :: after →
    tu_name edit = "either-line-replace" →
    getField (tu_input edit) "path" = JStr P → P ≠ "" →
    ∃ read, In read before ∧ tu_name read = "either-view"
            ∧ getField (tu_input read) "path" = JStr P.
Proof.
  intros ids blocks before edit after P Hres Hname Hpath Hne.
  pose proof (run_consistent ids blocks Enforcer.initial initial_consistent) as Hst.
  pose proof (run_guarded ids blocks Enforcer.initial initial_consistent) as Hg.
  unfold Enforcer.injectReadBeforeWriteBlocks in Hres. cbn [snd] in Hres.
  destruct Hst as [Hc _]. rewrite Hc in Hres.
  apply toolUsesOf_split in Hres as (B & A & Hout & <-).
  apply isReadOf_toolUse. rewrite Hname in Hout.
  apply (Hg ltac:(intros [|? ?] ? ? ? ? H; discriminate H) B _ _ A P Hout Hpath Hne).
Qed.

Lemma every_edit_follows_a_read_of_its_path_witness :
  let edit := mkToolUse "toolu_2" "either-line-replace"
                (Some {[ "path" := JStr "src/App.tsx"; "needle" := JStr "<h1>" ]}) in
  ∃ read, In read [mkToolUse "enforcer-view-0" "either-view"
                     (Some {[ "path" := JStr "src/App.tsx" ]})]
          ∧ tu_name read = "either-view"
          ∧ getField (tu_input read) "path" = JStr "src/App.tsx".
Proof.
  intros edit.
  apply (every_edit_follows_a_read_of_its_path
           (fun k => "enforcer-view-" +:+ pretty k)
           [TextBlock "A title."; ToolUseBlock "toolu_2" "either-line-replace" (tu_input edit)]
           _ edit [] "src/App.tsx").
  - vm_compute. reflexivity.
  - reflexivity.
  - vm_compute. reflexivity.
  - discriminate.
Defined.

Lemma spreadWith_twice (input : ToolInput) (k : string) (v : JValue) :
  spreadWith (spreadWith input k v) k v = spreadWith input k v.
Proof. unfold spreadWith. simpl. rewrite insert_insert_eq. reflexivity. Qed.

Lemma step_injected_read ids st id P :
  P ≠ "" →
  Enforcer.step ids st (Enforcer.injectedRead id P)
  = Enforcer.pushAndCollect (Enforcer.injectedRead id P) (Enforcer.markRead P st).
Proof.
  intros Hne. unfold Enforcer.injectedRead, Enforcer.step.
  rewrite decide_True by reflexivity.
  assert (nonEmptyString (getField (Some {[ "path" := JStr P ]}) "path") = Some P) as ->.
  { apply nonEmptyString_Some. split; [| assumption].
    unfold getField. rewrite lookup_singleton_eq. reflexivity. }
  reflexivity.
Qed.

(** An edit as the enforcer emits it, met again when its path has been
    read (or is unusable), is pushed as it is. *)
Lemma step_annotated ids st id input :
  match nonEmptyString (getField input "path") with
  | Some P => P ∈ Enforcer.seenReadForPath st
  | None => True
  end →
  let edit := Spec.annotate (ToolUseBlock id "either-line-replace" input) in
  Enforcer.step ids st edit = Enforcer.pushAndCollect edit st.
Proof.
  intros Hpath. cbn [Spec.annotate].
  rewrite bool_decide_eq_true_2 by reflexivity. cbn [andb].
  destruct (truthy (getField input "needle")) eqn:Hneedle; cbn [negb Enforcer.step].
  - unfold Enforcer.READ_TOOL, Enforcer.EDIT_TOOL.
    rewrite decide_False by discriminate. rewrite decide_True by reflexivity.
    rewrite Hneedle.
    destruct (nonEmptyString (getField input "path")) as [P|]; [| reflexivity].
    rewrite decide_True by assumption. reflexivity.
  - unfold Enforcer.READ_TOOL, Enforcer.EDIT_TOOL.
    rewrite decide_False by discriminate. rewrite decide_True by reflexivity.
    rewrite !getField_spreadWith_ne by discriminate. rewrite Hneedle, spreadWith_twice.
    destruct (nonEmptyString (getField input "path")) as [P|]; [| reflexivity].
    rewrite decide_True by assumption. reflexivity.
Qed.

Lemma step_again ids ids' st1 st2 b :
  sameOutput st1 st2 →
  sameOutput (Enforcer.step ids st1 b)
             (Enforcer.run ids' st2 (Spec.injection ids st1 b ++ [Spec.annotate b])).
Proof.
  intros (Hout & Hcol & Hseen). unfold sameOutput.
  destruct b as [t|id name input|r|id name|tid|ty];
    try (cbn; rewrite Hout, Hcol, Hseen; repeat split; reflexivity).
  destruct (decide (name = "either-view")) as [->|Hr].
  { cbn [Spec.injection Spec.annotate Enforcer.step].
    unfold Enforcer.READ_TOOL, Enforcer.EDIT_TOOL.
    rewrite (bool_decide_eq_false_2 ("either-view" = "either-line-replace")) by discriminate.
    cbn [andb app Enforcer.run fold_left Enforcer.step].
    unfold Enforcer.READ_TOOL. rewrite !decide_True by reflexivity.
    destruct (nonEmptyString (getField input "path")); cbn; rewrite Hout, Hcol, Hseen;
      repeat split; reflexivity. }
  destruct (decide (name = "either-line-replace")) as [->|He].
  2:{ cbn [Spec.injection Spec.annotate Enforcer.step].
      unfold Enforcer.READ_TOOL, Enforcer.EDIT_TOOL.
      rewrite (bool_decide_eq_false_2 _ He).
      cbn [andb app Enforcer.run fold_left Enforcer.step].
      unfold Enforcer.READ_TOOL, Enforcer.EDIT_TOOL.
      rewrite !(decide_False (P := name = "either-view")) by assumption.
      rewrite !(decide_False (P := name = "either-line-replace")) by assumption.
      destruct (decide (name ∈ Enforcer.WRITE_TOOLS)); cbn; rewrite Hout, Hcol, Hseen;
        repeat split; reflexivity. }
  set (edit := ToolUseBlock id "either-line-replace" input).
  assert (Enforcer.step ids st1 edit
          = Enforcer.pushAndCollect (Spec.annotate edit)
              (fold_left (fun st b => Enforcer.pushAndCollect b st)
                 (Spec.injection ids st1 edit)
                 (match Spec.injection ids st1 edit with
                  | [] => st1
                  | _ => Enforcer.markRead
                           (default "" (nonEmptyString (getField input "path")))
                           (Enforcer.drawId st1)
                  end))) as Hstep.
  { unfold edit. cbn [Spec.injection Spec.annotate Enforcer.step].
    unfold Enforcer.READ_TOOL, Enforcer.EDIT_TOOL.
    rewrite decide_False by discriminate. rewrite decide_True by reflexivity.
    rewrite (bool_decide_eq_true_2 ("either-line-replace" = "either-line-replace")) by reflexivity.
    cbn [andb].
    destruct (truthy (getField input "needle")); cbn [negb];
      (destruct (nonEmptyString (getField input "path")) as [P|]; [| reflexivity]);
      (destruct (decide (P ∈ Enforcer.seenReadForPath st1));
       [rewrite bool_decide_eq_true_2 by assumption
       |rewrite bool_decide_eq_false_2 by assumption]); reflexivity. }
  rewrite Hstep. clear Hstep.
  unfold Enforcer.run. rewrite fold_left_app. cbn [fold_left].
  assert (match nonEmptyString (getField input "path") with
          | Some P => P ∈ Enforcer.seenReadForPath
                            (fold_left (Enforcer.step ids') (Spec.injection ids st1 edit) st2)
          | None => True
          end
          ∧ sameOutput
              (fold_left (fun st b => Enforcer.pushAndCollect b st)
                 (Spec.injection ids st1 edit)
                 (match Spec.injection ids st1 edit with
                  | [] => st1
                  | _ => Enforcer.markRead
                           (default "" (nonEmptyString (getField input "path")))
                           (Enforcer.drawId st1)
                  end))
              (fold_left (Enforcer.step ids') (Spec.injection ids st1 edit) st2))
    as [Hpath (Hout' & Hcol' & Hseen')].
  { unfold edit. cbn [Spec.injection].
    rewrite (bool_decide_eq_true_2 ("either-line-replace" = "either-line-replace")) by reflexivity.
    destruct (nonEmptyString (getField input "path")) as [P|] eqn:HP;
      [| split; [exact I | repeat split; assumption]].
    destruct (decide (P ∈ Enforcer.seenReadForPath st1)) as [Hin|Hni].
    - rewrite bool_decide_eq_true_2 by assumption. cbn [fold_left].
      split; [rewrite Hseen; assumption | repeat split; assumption].
    - rewrite bool_decide_eq_false_2 by assumption. cbn [fold_left default].
      apply nonEmptyString_Some in HP as [_ Hne].
      rewrite step_injected_read by assumption.
      split; [cbn; apply elem_of_union_l, elem_of_singleton; reflexivity |].
      unfold sameOutput. cbn. rewrite Hout, Hcol, Hseen.
      repeat split; reflexivity. }
  pose proof (step_annotated ids' _ id input Hpath) as Hs. cbv zeta in Hs. fold edit in Hs.
  rewrite Hs. clear Hs.
  unfold Enforcer.pushAndCollect. cbn [Enforcer.out Enforcer.toolUsesCollected Enforcer.seenReadForPath].
  rewrite Hout', Hcol', Hseen'. repeat split; reflexivity.
Qed.

(** X2. The enforcer is idempotent: given its own block sequence again, it
    injects nothing and returns the same blocks and the same executable
    list. *)
Theorem enforcer_is_idempotent :
  ∀ (ids ids' : nat → string) (blocks : list ContentBlock),
    let result := Enforcer.injectReadBeforeWriteBlocks ids blocks in
    Enforcer.injectReadBeforeWriteBlocks ids' result.1 = result.
Proof.
  intros ids ids' blocks. cbv zeta. unfold Enforcer.injectReadBeforeWriteBlocks. cbn [fst].
  enough (sameOutput (Enforcer.run ids Enforcer.initial blocks)
            (Enforcer.run ids' Enforcer.initial
               (Enforcer.out (Enforcer.run ids Enforcer.initial blocks))))
    as (H1 & H2 & _) by (rewrite H1, H2; reflexivity).
  induction blocks as [|b blocks IH] using rev_ind.
  - repeat split; reflexivity.
  - rewrite (run_app ids). cbn [Enforcer.run fold_left].
    rewrite step_out, (run_app ids').
    apply step_again. exact IH.
Qed.

(** ** Chunked streaming *)

Lemma substring_all (s : string) : substring 0 (String.length s) s = s.
Proof. induction s as [|c s IH]; simpl; [reflexivity | rewrite IH; reflexivity]. Qed.

Lemma substring_split (n : nat) : ∀ s : string,
  substring 0 n s +:+ substring n (String.length s - n) s = s.
Proof.
  induction n as [|n IH]; intros s.
  - rewrite Nat.sub_0_r, substring_all. destruct s; reflexivity.
  - destruct s as [|c s]; [reflexivity |].
    change (String c (substring 0 n s +:+ substring n (String.length s - n) s) = String c s).
    rewrite IH. reflexivity.
Qed.

Lemma substring_prefix_length (n : nat) : ∀ s : string,
  String.length (substring 0 n s) = Nat.min n (String.length s).
Proof.
  induction n as [|n IH]; intros s; [destruct s; reflexivity |].
  destruct s as [|c s]; [reflexivity |]. simpl. rewrite IH. reflexivity.
Qed.

Lemma substring_suffix_length (n : nat) : ∀ s : string,
  String.length (substring n (String.length s - n) s) = String.length s - n.
Proof.
  induction n as [|n IH]; intros s.
  - rewrite Nat.sub_0_r, substring_all. reflexivity.
  - destruct s as [|c s]; [reflexivity |]. simpl. apply IH.
Qed.

Lemma length_zero_empty (s : string) : String.length s = 0 ↔ s = "".
Proof. destruct s; simpl; split; intros H; try reflexivity; discriminate H. Qed.

Lemma chunksFrom_spec (size : nat) (Hsize : 0 < size) : ∀ fuel buf,
  String.length buf ≤ fuel →
  let cs := chunksFrom fuel size buf in
  concatenation cs = buf
  ∧ Forall (fun c => 0 < String.length c ≤ size) cs
  ∧ (∀ i c, cs !! i = Some c → i + 1 < length cs → String.length c = size)
  ∧ length cs * size < String.length buf + size
  ∧ String.length buf ≤ length cs * size.
Proof.
  induction fuel as [|fuel IH]; intros buf Hfuel.
  - assert (buf = "") as -> by (apply length_zero_empty; lia).
    simpl. repeat split; try constructor; try lia; intros i c H; discriminate H.
  - cbn [chunksFrom]. destruct (bool_decide (buf = "")) eqn:Hbuf.
    + apply bool_decide_eq_true_1 in Hbuf as ->.
      simpl. repeat split; try constructor; try lia; intros i c H; discriminate H.
    + apply bool_decide_eq_false_1 in Hbuf.
      assert (0 < String.length buf) as Hpos
        by (destruct (String.length buf) eqn:E; [apply length_zero_empty in E; contradiction | lia]).
      pose proof (substring_prefix_length size buf) as Hhead.
      pose proof (substring_suffix_length size buf) as Htail.
      set (rest := substring size (String.length buf - size) buf) in *.
      assert (String.length rest ≤ fuel) as Hrest by lia.
      destruct (IH rest Hrest) as (Hcat & Hall & Hfull & Hub & Hlb).
      cbv zeta. cbn [concatenation foldr length].
      fold (concatenation (chunksFrom fuel size rest)). rewrite Hcat.
      split; [apply substring_split |]. split; [constructor; [lia | assumption] |].
      split; [| cbn [length]; clear Hall Hfull Hcat;
                destruct (length (chunksFrom fuel size rest)); simpl in *; lia].
      intros [|i] c Hc Hi.
      * injection Hc as <-. cbn [length] in Hi.
        destruct (chunksFrom fuel size rest) as [|c' cs'] eqn:Hcs; [cbn in Hi; lia |].
        assert (0 < String.length rest).
        { destruct (String.length rest) eqn:E; [| lia].
          apply length_zero_empty in E. rewrite E in Hcs.
          destruct fuel; simpl in Hcs; discriminate Hcs. }
        lia.
      * apply (Hfull i c Hc). cbn [length] in Hi. lia.
Qed.

(** ** Further properties of the checker *)

Lemma filterIndexed_throws (p : ToolUse → option bool) (toolUses : list ToolUse) : ∀ idx,
  Checker.filterIndexed p idx toolUses = None ↔ ∃ tu, In tu toolUses ∧ p tu = None.
Proof.
  induction toolUses as [|tu rest IH]; intros idx; cbn [Checker.filterIndexed].
  - split; [discriminate | intros (tu & [] & _)].
  - destruct (p tu) as [b|] eqn:Hp; cbn.
    + destruct (Checker.filterIndexed p (S idx) rest) as [kept|] eqn:Hrest; cbn.
      * split; [discriminate |]. intros (tu' & [<-|Hin] & Hnone); [congruence |].
        assert (Checker.filterIndexed p (S idx) rest = None) as H
          by (apply IH; eauto).
        congruence.
      * split; [| reflexivity]. intros _.
        apply IH in Hrest as (tu' & Hin & Hnone). exists tu'. split; [right |]; assumption.
    + split; [| reflexivity]. intros _. exists tu. split; [left; reflexivity | exact Hp].
Qed.

Lemma optionalCall_throws (path : JValue) (method : string → bool) :
  Checker.optionalCall path method = None ↔ unusablePath path = true.
Proof. destruct path; cbn; split; intros H; try reflexivity; discriminate H. Qed.

Lemma isHtmlWrite_throws tu :
  Checker.isHtmlWrite tu = None
  ↔ Checker.isWriteOrEdit tu = true ∧ unusablePath (getField (tu_input tu) "path") = true.
Proof.
  unfold Checker.isHtmlWrite. destruct (Checker.isWriteOrEdit tu).
  - rewrite optionalCall_throws. tauto.
  - split; [discriminate | intros [H _]; discriminate H].
Qed.

Lemma isReactWrite_throws tu :
  Checker.isReactWrite tu = None
  ↔ Checker.isWriteOrEdit tu = true ∧ unusablePath (getField (tu_input tu) "path") = true.
Proof.
  unfold Checker.isReactWrite. destruct (Checker.isWriteOrEdit tu).
  - rewrite optionalCall_throws. tauto.
  - split; [discriminate | intros [H _]; discriminate H].
Qed.

Lemma checkMissingFileReferences_throws
    (createdFiles : gset JValue) (results : list ToolResult) (toolUses : list ToolUse) :
  Checker.checkMissingFileReferences createdFiles results toolUses = None
  ↔ ∃ tu, In tu toolUses ∧ Checker.isWriteOrEdit tu = true
          ∧ unusablePath (getField (tu_input tu) "path") = true.
Proof.
  unfold Checker.checkMissingFileReferences.
  destruct (Checker.filterIndexed Checker.isHtmlWrite 0 toolUses) as [html|] eqn:Hhtml; cbn.
  - destruct (Checker.filterIndexed Checker.isReactWrite 0 toolUses) as [react|] eqn:Hreact; cbn.
    + split; [discriminate |]. intros (tu & Hin & Hbad).
      assert (Checker.filterIndexed Checker.isHtmlWrite 0 toolUses = None) as H.
      { apply filterIndexed_throws. exists tu. split; [exact Hin |].
        apply isHtmlWrite_throws. exact Hbad. }
      congruence.
    + split; [| reflexivity]. intros _.
      apply filterIndexed_throws in Hreact as (tu & Hin & Hnone).
      exists tu. split; [exact Hin |]. apply isReactWrite_throws. exact Hnone.
  - split; [| reflexivity]. intros _.
    apply filterIndexed_throws in Hhtml as (tu & Hin & Hnone).
    exists tu. split; [exact Hin |]. apply isHtmlWrite_throws. exact Hnone.
Qed.

Lemma flat_map_sublist {A B : Type} (f g : A → list B) (l : list A) :
  (∀ x, sublist (f x) (g x)) → sublist (flat_map f l) (flat_map g l).
Proof.
  intros H. induction l as [|x l IH]; [constructor |].
  cbn. apply sublist_app; [apply H | exact IH].
Qed.

Lemma has_mono (small large : gset JValue) (p : string) :
  small ⊆ large → Checker.has small p = true → Checker.has large p = true.
Proof.
  unfold Checker.has. intros Hsub H. apply bool_decide_eq_true_1 in H.
  apply bool_decide_eq_true_2. apply Hsub. exact H.
Qed.

Lemma negb_has_mono (small large : gset JValue) (p : string) :
  small ⊆ large → negb (Checker.has large p) = true → negb (Checker.has small p) = true.
Proof.
  intros Hsub H. destruct (Checker.has small p) eqn:Hs; [| reflexivity].
  rewrite (has_mono small large p Hsub Hs) in H. discriminate H.
Qed.

(** X13. The checker is monotone in the set of created files: with more
    files known, it reports a sub-sequence of what it reports with fewer,
    for the same invocations and results. *)
Theorem more_created_files_mean_fewer_findings :
  ∀ (small large : gset JValue) (results : list ToolResult) (toolUses : list ToolUse)
    (findings : list Checker.MissingRef),
    small ⊆ large →
    Checker.checkMissingFileReferences large results toolUses = Some findings →
    ∃ more, Checker.checkMissingFileReferences small results toolUses = Some more
            ∧ sublist findings more.
Proof.
  intros small large results toolUses findings Hsub.
  unfold Checker.checkMissingFileReferences.
  destruct (Checker.filterIndexed Checker.isHtmlWrite 0 toolUses) as [html|]; cbn;
    [| discriminate].
  destruct (Checker.filterIndexed Checker.isReactWrite 0 toolUses) as [react|]; cbn;
    [| discriminate].
  intros [= <-]. eexists. split; [reflexivity |].
  assert (∀ b1 b2 b1' b2' : bool, (b1 = true → b1' = true) → (b2 = true → b2' = true) →
            ∀ x : Checker.MissingRef,
              sublist (if b1 && b2 then [x] else []) (if b1' && b2' then [x] else [])) as Hif.
  { intros [|] [|] b1' b2' H1 H2 x; cbn; try apply sublist_nil_l.
    rewrite H1, H2 by reflexivity. reflexivity. }
  apply sublist_app; apply flat_map_sublist; intros [idx tu].
  - unfold Checker.scanHtmlWrite. destruct (Checker.contentToScan results _ _) as [[path c]|];
      [| constructor].
    unfold Checker.missingScripts, Checker.missingLinks.
    apply sublist_app; apply flat_map_sublist; intros m; cbv zeta.
    + apply Hif; apply negb_has_mono; exact Hsub.
    + destruct (Checker.includes _ _); [| constructor].
      apply Hif; apply negb_has_mono; exact Hsub.
  - unfold Checker.scanReactWrite. destruct (Checker.contentToScan results _ _) as [[path c]|];
      [| constructor].
    unfold Checker.missingImports. apply flat_map_sublist. intros m. cbv zeta.
    destruct (negb (Checker.startsWith _ _)); [constructor |].
    destruct (Checker.importExists large (Regex.group1 m)) eqn:Hl; [apply sublist_nil_l |].
    destruct (Checker.importExists small (Regex.group1 m)) eqn:Hs; [| reflexivity].
    exfalso. unfold Checker.importExists in Hl, Hs.
    apply existsb_exists in Hs as (p & Hin & Hp).
    assert (existsb (fun p => Checker.has large p || Checker.has large ("./" +:+ p)
                              || Checker.has large ("/" +:+ p))
              (Checker.possiblePaths (Checker.stripDotSlash (Regex.group1 m))
               ++ Checker.srcPaths (Checker.stripDotSlash (Regex.group1 m))) = true) as H.
    { apply existsb_exists. exists p. split; [exact Hin |].
      apply orb_true_iff in Hp as [Hp|Hp]; [apply orb_true_iff in Hp as [Hp|Hp] |];
        rewrite (has_mono small large _ Hsub Hp), ?orb_true_r; reflexivity. }
    cbv zeta in Hl. congruence.
Qed.

(** ** The stored history *)

(** *** The base64 test *)

Section Base64.

Import DatabaseAgent.

Lemma star_chr_succeeds (p : ascii → bool)
    (k : list ascii → option (list ascii) → option Regex.Result) (cap : option (list ascii)) :
  ∀ s, Regex.matchHere (Regex.Star (Regex.Chr p)) s cap k ≠ None
       ↔ ∃ a b, s = a ++ b ∧ forallb p a = true ∧ k b cap ≠ None.
Proof.
  intros s. cbn [Regex.matchHere].
  set (iterate := fix iterate (n : nat) (s : list ascii) (cap : option (list ascii))
                    : option Regex.Result :=
         match n with
         | 0 => k s cap
         | S n' =>
             match
               match s with
               | [] => None
               | c :: s' =>
                   if p c
                   then (fun (s'0 : list ascii) (cap' : option (list ascii)) =>
                           if length s'0 <? length s then iterate n' s'0 cap' else None)
                          s' cap
                   else None
               end
             with
             | Some x => Some x
             | None => k s cap
             end
         end).
  enough (∀ n s, length s ≤ n →
            iterate n s cap ≠ None
            ↔ ∃ a b, s = a ++ b ∧ forallb p a = true ∧ k b cap ≠ None) as H
    by (apply H; lia).
  clear s. induction n as [|n IH]; intros s Hlen.
  - destruct s; [| cbn in Hlen; lia]. cbn. split.
    + intros H. exists [], []. auto.
    + intros (a & b & Hs & _ & Hk). symmetry in Hs. apply app_eq_nil in Hs as [-> ->].
      exact Hk.
  - cbn [iterate]. destruct s as [|c s].
    + split.
      * intros H. exists [], []. auto.
      * intros (a & b & Hs & _ & Hk). symmetry in Hs. apply app_eq_nil in Hs as [-> ->].
        exact Hk.
    + destruct (p c) eqn:Hp.
      * cbn beta. replace (length s <? length (c :: s)) with true
          by (symmetry; apply Nat.ltb_lt; cbn; lia).
        specialize (IH s ltac:(cbn in Hlen; lia)).
        destruct (iterate n s cap) as [x|] eqn:Hit.
        -- split; [| discriminate]. intros _.
           destruct (proj1 IH ltac:(discriminate)) as (a & b & -> & Ha & Hk).
           exists (c :: a), b. cbn. rewrite Hp, Ha. auto.
        -- split.
           ++ intros Hk. exists [], (c :: s). auto.
           ++ intros (a & b & Hs & Ha & Hk). destruct a as [|c' a].
              ** cbn in Hs. subst b. exact Hk.
              ** cbn in Hs, Ha. injection Hs as <- ->.
                 apply andb_true_iff in Ha as [_ Ha].
                 exfalso. apply (proj2 IH); [| reflexivity]. eauto.
      * split.
        -- intros Hk. exists [], (c :: s). auto.
        -- intros (a & b & Hs & Ha & Hk). destruct a as [|c' a].
           ++ cbn in Hs. subst b. exact Hk.
           ++ cbn in Hs, Ha. injection Hs as <- ->. rewrite Hp in Ha. discriminate Ha.
Qed.

Lemma base64Char_alphabet (c : ascii) :
  (let n := nat_of_ascii c in
   (((48 <=? n) && (n <=? 57)) || ((65 <=? n) && (n <=? 90))
    || ((97 <=? n) && (n <=? 122)) || (n =? 43) || (n =? 47))%nat)
  = inAlphabet base64Alphabet c.
Proof.
  destruct c as [[|] [|] [|] [|] [|] [|] [|] [|]]; vm_compute; reflexivity.
Qed.

Lemma exactly_eqb (c x : ascii) : bool_decide (x = c) = Ascii.eqb c x.
Proof.
  destruct (Ascii.eqb c x) eqn:H.
  - apply Ascii.eqb_eq in H. apply bool_decide_eq_true_2. congruence.
  - apply Ascii.eqb_neq in H. apply bool_decide_eq_false_2. congruence.
Qed.

Lemma forallb_ext_eq {A : Type} (p q : A → bool) (l : list A) :
  (∀ x, p x = q x) → forallb p l = forallb q l.
Proof. intros H. induction l as [|x l IH]; cbn; [reflexivity | rewrite H, IH; reflexivity]. Qed.

Lemma matchHere_seq (r1 r2 : Regex.re) s cap k :
  Regex.matchHere (Regex.Seq r1 r2) s cap k
  = Regex.matchHere r1 s cap (fun s' cap' => Regex.matchHere r2 s' cap' k).
Proof. reflexivity. Qed.

Lemma matchHere_chr (p : ascii → bool) s cap k :
  Regex.matchHere (Regex.Chr p) s cap k
  = match s with
    | c :: s' => if p c then k s' cap else None
    | [] => None
    end.
Proof. reflexivity. Qed.

(** A run of [p] characters, at least one, then a run of [q] characters, up
    to the end of the subject. *)
Lemma plus_then_star_anchored (p q : ascii → bool) (s : list ascii) :
  Regex.matchHere (Regex.Seq (Regex.Plus (Regex.Chr p)) (Regex.Star (Regex.Chr q))) s None atEnd
  ≠ None
  ↔ ∃ body padding,
      s = body ++ padding ∧ body ≠ [] ∧ forallb p body = true ∧ forallb q padding = true.
Proof.
  assert (∀ b cap, Regex.matchHere (Regex.Star (Regex.Chr q)) b cap atEnd ≠ None
                   ↔ forallb q b = true) as Hpad.
  { intros b cap. rewrite star_chr_succeeds. split.
    - intros (a & b' & -> & Ha & Hk). destruct b'; [| contradiction].
      rewrite app_nil_r. exact Ha.
    - intros H. exists b, []. rewrite app_nil_r. split; [reflexivity |].
      split; [exact H | discriminate]. }
  unfold Regex.Plus. rewrite !matchHere_seq, matchHere_chr.
  destruct s as [|c s'].
  - split; [intros H; exfalso; apply H; reflexivity |].
    intros (body & padding & Hs & Hne & _).
    symmetry in Hs. apply app_eq_nil in Hs as [-> _]. contradiction.
  - destruct (p c) eqn:Hc.
    + rewrite star_chr_succeeds. split.
      * intros (a & b & -> & Ha & Hk). exists (c :: a), b.
        split; [reflexivity |]. split; [discriminate |]. split; [| apply Hpad in Hk; exact Hk].
        cbn. rewrite Hc. exact Ha.
      * intros (body & padding & Hs & Hne & Hbody & Hpadding).
        destruct body as [|c' body]; [contradiction |]. cbn in Hs. injection Hs as <- ->.
        exists body, padding. split; [reflexivity |]. cbn in Hbody.
        apply andb_true_iff in Hbody as [_ Hbody]. split; [exact Hbody |].
        apply (Hpad padding None). exact Hpadding.
    + split; [intros H; exfalso; apply H; reflexivity |].
      intros (body & padding & Hs & Hne & Hbody & _).
      destruct body as [|c' body]; [contradiction |]. cbn in Hs, Hbody. injection Hs as <- _.
      rewrite Hc in Hbody. discriminate Hbody.
Qed.

Lemma testAnchored_base64 (str : string) :
  testAnchored base64Pattern str = true
  ↔ ∃ body padding,
      list_ascii_of_string str = body ++ padding ∧ body ≠ []
      ∧ forallb (inAlphabet base64Alphabet) body = true
      ∧ forallb (Ascii.eqb "=") padding = true.
Proof.
  unfold testAnchored, base64Pattern, base64Char, Regex.exactly.
  assert (∀ r : option Regex.Result,
            match r with Some _ => true | None => false end = true ↔ r ≠ None) as Hb
    by (intros [x|]; split; intros H; try reflexivity; try discriminate; contradiction).
  rewrite Hb, plus_then_star_anchored.
  split; intros (body & padding & Hs & Hne & Hbody & Hpadding); exists body, padding;
    (split; [exact Hs |]); (split; [exact Hne |]); split.
  - etransitivity; [| exact Hbody]. apply forallb_ext_eq. intros x. symmetry.
    apply base64Char_alphabet.
  - etransitivity; [| exact Hpadding]. apply forallb_ext_eq. intros x. symmetry.
    apply exactly_eqb.
  - etransitivity; [| exact Hbody]. apply forallb_ext_eq. intros x. apply base64Char_alphabet.
  - etransitivity; [| exact Hpadding]. apply forallb_ext_eq. intros x. apply exactly_eqb.
Qed.

(** X16. [isBase64Encrypted] accepts exactly the strings of at least 100
    characters that consist of one or more characters of the base64 alphabet
    followed by any number of [=] signs. *)
Theorem base64_test_accepts_long_padded_base64 :
  ∀ str : string,
    isBase64Encrypted str = true
    ↔ 100 ≤ String.length str
      ∧ ∃ body padding,
          list_ascii_of_string str = body ++ padding ∧ body ≠ []
          ∧ forallb (inAlphabet base64Alphabet) body = true
          ∧ forallb (Ascii.eqb "=") padding = true.
Proof.
  intros str. unfold isBase64Encrypted.
  destruct (String.length str <? 100) eqn:Hlen.
  - apply Nat.ltb_lt in Hlen. split; [discriminate |]. intros [H _]. lia.
  - apply Nat.ltb_ge in Hlen. rewrite testAnchored_base64. tauto.
Qed.

End Base64.

(** *** The cleanup of stored blocks *)

Section Cleanup.

Import DatabaseAgent.

Variable numberToString : Z → string.

Local Abbreviation toString := (DatabaseAgent.toString numberToString).
Local Abbreviation cleanupBlock := (DatabaseAgent.cleanupBlock numberToString).
Local Abbreviation cleanup := (DatabaseAgent.cleanupInvalidRedactedThinkingBlocks numberToString).
Local Abbreviation fake := (fakeRedacted numberToString).
Local Abbreviation sound := (Props.sound numberToString).

Lemma short_is_not_base64 (s : string) :
  (String.length s <? 50) || negb (isBase64Encrypted s) = negb (isBase64Encrypted s).
Proof.
  destruct (String.length s <? 50) eqn:Hlen; [| reflexivity].
  apply Nat.ltb_lt in Hlen. unfold isBase64Encrypted.
  rewrite (proj2 (Nat.ltb_lt _ _)) by lia. reflexivity.
Qed.

(** [String(v)] throws exactly on the values without a string form. *)
Lemma toString_throws : ∀ v : Json, toString v = None ↔ unprintable v = true.
Proof.
  fix IH 1. intros [|b|n|s|items|fields]; cbn [DatabaseAgent.toString unprintable];
    try (split; discriminate).
  - induction items as [|item items IHitems]; [split; discriminate |].
    cbn [mapM existsb]. rewrite orb_true_iff, <- IHitems.
    assert (match item with JsonNull => Some "" | _ => toString item end = None
            ↔ unprintable item = true) as Hitem.
    { pose proof (IH item) as H. destruct item; try exact H. split; discriminate. }
    rewrite <- Hitem.
    destruct (match item with JsonNull => Some "" | _ => toString item end) as [part|]; cbn.
    + destruct (mapM _ items) as [parts|]; cbn.
      * split; [discriminate | intros [H|H]; discriminate].
      * split; [right; reflexivity | reflexivity].
    + split; [left; reflexivity | reflexivity].
  - destruct (bool_decide (is_Some (fields !! "toString"))); split; congruence.
Qed.

Lemma thinkingBlock_sound (v : Json) : sound (thinkingBlock v) = true.
Proof.
  unfold Props.sound, fakeRedacted, redacted, thinkingBlock, get. cbn [truthy andb].
  rewrite lookup_insert_eq. reflexivity.
Qed.

Lemma cleanupBlock_cases (block : Json) :
  (throwing block = true ∧ cleanupBlock block = None)
  ∨ (throwing block = false
     ∧ if fake block
       then cleanupBlock block = Some JsonNull
            ∨ ∃ v, cleanupBlock block = Some (thinkingBlock v)
       else cleanupBlock block = Some block).
Proof.
  destruct block as [|b|n|s|items|fields];
    [left; split; reflexivity | right; split; reflexivity ..|].
  unfold DatabaseAgent.cleanupBlock, fakeRedacted, throwing, redacted.
  destruct (isString (get (JsonObject fields) "type") "redacted_thinking"
            && truthyField (get (JsonObject fields) "data")); cbn [andb];
    [| right; split; reflexivity].
  pose proof (toString_throws (default JsonNull (get (JsonObject fields) "data"))) as Hthrows.
  destruct (toString (default JsonNull (get (JsonObject fields) "data"))) as [dataStr|].
  - right. split.
    + destruct (unprintable _); [| reflexivity].
      destruct Hthrows as [_ H]. discriminate (H eq_refl).
    + cbn [mbind option_bind]. rewrite short_is_not_base64.
      destruct (negb (isBase64Encrypted dataStr)); [| reflexivity].
      destruct (truthyField (get (JsonObject fields) "text")
                || truthyField (get (JsonObject fields) "thinking")); eauto.
  - left. split; [apply Hthrows | ]; reflexivity.
Qed.

Lemma throwing_is_not_sound (block : Json) : throwing block = true → sound block = false.
Proof.
  unfold Props.sound, throwing, fakeRedacted. destruct block as [|b|n|s|items|fields];
    try reflexivity; intros H; apply andb_true_iff in H as [Hr Hu]; rewrite Hr;
    apply toString_throws in Hu; rewrite Hu; cbn;
    first [reflexivity | apply andb_false_r].
Qed.

Lemma cleanupBlock_sound (block : Json) :
  sound block = true → cleanupBlock block = Some block.
Proof.
  intros H. destruct (cleanupBlock_cases block) as [[Ht _]|[_ Hc]].
  - rewrite (throwing_is_not_sound block Ht) in H. discriminate H.
  - apply andb_true_iff in H as [_ Hf]. apply negb_true_iff in Hf.
    rewrite Hf in Hc. exact Hc.
Qed.

Lemma cleanup_cons (block : Json) (rest : list Json) :
  cleanup (block :: rest)
  = kept ← cleanupBlock block;
    out ← cleanup rest;
    Some (if truthy kept then kept :: out else out).
Proof.
  unfold DatabaseAgent.cleanupInvalidRedactedThinkingBlocks. cbn [mapM].
  destruct (cleanupBlock block) as [kept|]; [| reflexivity]. cbn.
  destruct (mapM cleanupBlock rest) as [mapped|]; [| reflexivity]. cbn.
  destruct (truthy kept); reflexivity.
Qed.

Lemma cleanup_of_sound (blocks : list Json) :
  forallb sound blocks = true → cleanup blocks = Some blocks.
Proof.
  induction blocks as [|block rest IH]; [reflexivity |].
  cbn [forallb]. intros H. apply andb_true_iff in H as [Hb Hrest].
  rewrite cleanup_cons, (cleanupBlock_sound block Hb), (IH Hrest). cbn.
  apply andb_true_iff in Hb as [-> _]. reflexivity.
Qed.

Lemma cleanup_throws (blocks : list Json) :
  (∃ block, In block blocks ∧ throwing block = true) ↔ cleanup blocks = None.
Proof.
  induction blocks as [|block rest IH];
    [split; [intros (block & [] & _) | discriminate] |].
  rewrite cleanup_cons.
  destruct (cleanupBlock_cases block) as [[Ht Hc]|[Hne Hc]].
  - rewrite Hc. cbn. split; [reflexivity |]. intros _. exists block. split; [left |]; auto.
  - assert (∃ kept, cleanupBlock block = Some kept) as [kept Hkept]
      by (destruct (fake block); [destruct Hc as [Hc|[v Hc]] |]; eauto).
    rewrite Hkept. cbn.
    destruct (cleanup rest) as [out|] eqn:Hrest; cbn.
    + split; [| discriminate]. intros (b & [<-|Hin] & Hb); [congruence |].
      assert (@None (list Json) = None → False) as Habs; [| destruct (Habs eq_refl)].
      intros _. assert (Some out = None) as H by (apply IH; eauto). discriminate H.
    + split; [reflexivity |]. intros _.
      destruct (proj2 IH eq_refl) as (b & Hin & Hb). exists b. split; [right |]; auto.
Qed.

(** X17. The cleanup of a stored block list throws exactly when the list
    contains [null] or a [redacted_thinking] block with truthy data that has
    no string form (an object with a property named [toString], or a list
    holding one).  Otherwise it keeps, in order and unchanged, the blocks
    that are truthy and are not fake [redacted_thinking] blocks (type
    [redacted_thinking], truthy data whose string form is not at least 100
    characters of padded base64), replaces a fake block that has a truthy
    [thinking] or [text] by a thinking block and drops the others; so the
    result has no fake block, is no longer than the input, equals the input
    when there was nothing to clean, and is left as it is by a second
    cleanup. *)
Theorem cleanup_removes_the_fake_blocks :
  ∀ blocks : list Json,
    (cleanup blocks = None ↔ ∃ block, In block blocks ∧ throwing block = true)
    ∧ ∀ out, cleanup blocks = Some out →
        forallb sound out = true
        ∧ length out ≤ length blocks
        ∧ sublist (List.filter sound blocks) out
        ∧ (forallb sound blocks = true → out = blocks)
        ∧ cleanup out = Some out.
Proof.
  intros blocks. split; [symmetry; apply cleanup_throws |].
  induction blocks as [|block rest IHsome].
  - intros out [= <-]. repeat split; try reflexivity; cbn; lia.
  - rewrite cleanup_cons. pose proof (cleanupBlock_cases block) as Hc.
    intros out Hout.
      assert (∃ kept out', cleanupBlock block = Some kept ∧ cleanup rest = Some out'
                           ∧ out = if truthy kept then kept :: out' else out')
        as (kept & out' & Hkept & Hrest & ->).
      { destruct (cleanupBlock block) as [kept|]; [| discriminate Hout]. cbn in Hout.
        destruct (cleanup rest) as [out'|]; [| discriminate Hout]. cbn in Hout.
        injection Hout as <-. eauto. }
      destruct (IHsome out' Hrest) as (Hsound & Hlen & Hsub & Hsame & Hagain).
      assert ((sound block = true ∧ kept = block)
              ∨ (sound block = false ∧ (truthy kept = false ∨ sound kept = true)))
        as Hcase.
      { destruct (sound block) eqn:Hs.
        - left. rewrite (cleanupBlock_sound block Hs) in Hkept. injection Hkept as <-. auto.
        - right. split; [reflexivity |]. unfold Props.sound in Hs.
          destruct Hc as [[_ Hc]|[_ Hc]]; [congruence |].
          destruct (fake block) eqn:Hf.
          + destruct Hc as [Hc|[v Hc]]; rewrite Hc in Hkept; injection Hkept as <-;
              [left; reflexivity | right; apply thinkingBlock_sound].
          + rewrite Hc in Hkept. injection Hkept as <-. left.
            cbn [negb] in Hs. rewrite andb_true_r in Hs. exact Hs. }
      destruct Hcase as [[Hs ->]|[Hs Hkept']].
      * pose proof Hs as Hs'. apply andb_true_iff in Hs' as [-> _].
        cbn [forallb List.filter length]. rewrite Hs, Hsound. cbn [andb].
        split; [reflexivity |]. split; [lia |]. split; [constructor; exact Hsub |].
        split; [intros H; rewrite (Hsame H); reflexivity |].
        apply cleanup_of_sound. cbn. rewrite Hs, Hsound. reflexivity.
      * cbn [List.filter forallb length]. rewrite Hs. cbn [andb].
        destruct (truthy kept) eqn:Ht.
        -- destruct Hkept' as [Hk|Hk]; [discriminate Hk |].
           cbn [forallb length]. rewrite Hk, Hsound.
           split; [reflexivity |]. split; [lia |].
           split; [apply sublist_cons; exact Hsub |]. split; [discriminate |].
           apply cleanup_of_sound. cbn. rewrite Hk, Hsound. reflexivity.
        -- split; [exact Hsound |]. split; [lia |]. split; [exact Hsub |].
           split; [discriminate | exact Hagain].
Qed.

End Cleanup.

(** ** Further properties of the turn loop *)

Section LoopMore.

Variable World : Type.
Variable sendMessage : World → list Message → World * SendResult.
Variable executeTools : World → ToolUse → World * list ToolResult.
Variable runVerification : World → gset JValue → World * string.
Variable stringify : ToolInput → string.
Variable injectedId : nat → nat → string.
Variable MAX_AGENT_TURNS : nat.
Variable REASONING_STREAM_CHUNK_SIZE : positive.
Variable dryRun : bool.
Variable callbacks : option StreamingCallbacks.

#[local] Set Default Proof Using "Type".

Local Abbreviation handleDelta := (Loop.handleDelta callbacks).
Local Abbreviation handleDeltas := (Loop.handleDeltas callbacks).
Local Abbreviation thinkingTransition :=
  (Loop.thinkingTransition REASONING_STREAM_CHUNK_SIZE callbacks).
Local Abbreviation flushSummary := (Loop.flushSummary REASONING_STREAM_CHUNK_SIZE callbacks).
Local Abbreviation trackFileOperation := (Loop.trackFileOperation callbacks).
Local Abbreviation executeToolUse := (Loop.executeToolUse World executeTools callbacks).
Local Abbreviation executeToolUsesFrom := (Loop.executeToolUsesFrom World executeTools callbacks).
Local Abbreviation executeToolUses := (Loop.executeToolUses World executeTools callbacks).
Local Abbreviation afterResponse :=
  (Loop.afterResponse World executeTools runVerification stringify injectedId
     REASONING_STREAM_CHUNK_SIZE dryRun callbacks).
Local Abbreviation turn :=
  (Loop.turn World sendMessage executeTools runVerification stringify injectedId
     REASONING_STREAM_CHUNK_SIZE dryRun callbacks).
Local Abbreviation turnLoop :=
  (Loop.turnLoop World sendMessage executeTools runVerification stringify injectedId
     MAX_AGENT_TURNS REASONING_STREAM_CHUNK_SIZE dryRun callbacks).
Local Abbreviation processRequest :=
  (Loop.processRequest World sendMessage executeTools runVerification stringify injectedId
     MAX_AGENT_TURNS REASONING_STREAM_CHUNK_SIZE dryRun callbacks).

(** *** Chunks *)

(** X3. The chunks in which buffered text is streamed are non-empty, have
    at most [REASONING_STREAM_CHUNK_SIZE] characters (exactly that many except
    for the last) and concatenate to the buffered text.  So what [onReasoning]
    receives at the thinking-to-reasoning transition is the thinking buffer,
    and what [onDelta] receives when the summary is flushed is the summary
    buffer. *)
Theorem buffered_text_is_streamed_whole :
  ∀ (buf : Buffers) (toolUses : list ToolUse),
    let size := Pos.to_nat REASONING_STREAM_CHUNK_SIZE in
    (∀ text : string,
       let cs := Loop.chunks REASONING_STREAM_CHUNK_SIZE text in
       concatenation cs = text
       ∧ Forall (fun c => 0 < String.length c ≤ size) cs
       ∧ (∀ i c, cs !! i = Some c → i + 1 < length cs → String.length c = size))
    ∧ (supplied callbacks onReasoning = true → isInThinkingPhase buf = true →
       toolUses ≠ [] →
       concatenation (flat_map reasoningOf (thinkingTransition buf toolUses).2)
       = thinkingBuffer buf)
    ∧ (supplied callbacks onDelta = true → isInSummaryPhase buf = true →
       concatenation (flat_map deltaOf (flushSummary buf).2) = summaryBuffer buf).
Proof.
  intros buf toolUses size.
  assert (∀ text : string,
            let cs := Loop.chunks REASONING_STREAM_CHUNK_SIZE text in
            concatenation cs = text
            ∧ Forall (fun c => 0 < String.length c ≤ size) cs
            ∧ (∀ i c, cs !! i = Some c → i + 1 < length cs → String.length c = size))
    as Hchunks.
  { intros text. unfold Loop.chunks.
    destruct (chunksFrom_spec size (Pos2Nat.is_pos _) (String.length text) text (le_n _))
      as (H1 & H2 & H3 & _).
    auto. }
  assert (∀ (f : string → Event) (g : Event → list string) (l : list string),
            (∀ s, g (f s) = [s]) → flat_map g (map f l) = l) as Hmap.
  { intros f g l Hfg. induction l as [|s l IH]; simpl; [reflexivity |].
    rewrite Hfg, IH. reflexivity. }
  split; [exact Hchunks |]. split.
  - intros Hcb Hphase Htools. unfold Loop.thinkingTransition. rewrite Hphase, Hcb.
    destruct toolUses as [|tu toolUses]; [contradiction |]. cbn [length Nat.ltb Nat.leb andb].
    rewrite andb_true_r.
    unfold nonEmpty. destruct (bool_decide (thinkingBuffer buf = "")) eqn:Hbuf; cbn [negb snd].
    + apply bool_decide_eq_true_1 in Hbuf. rewrite Hbuf. reflexivity.
    + rewrite !flat_map_app, !flat_map_emit.
      destruct (supplied callbacks onThinkingComplete), (supplied callbacks onPhase);
        cbn [reasoningOf app]; rewrite Hmap by reflexivity; apply Hchunks.
  - intros Hcb Hphase. unfold Loop.flushSummary. rewrite Hphase, Hcb. cbn [andb].
    unfold nonEmpty. destruct (bool_decide (summaryBuffer buf = "")) eqn:Hbuf; cbn [negb snd].
    + apply bool_decide_eq_true_1 in Hbuf. rewrite Hbuf. reflexivity.
    + rewrite flat_map_app, flat_map_emit.
      destruct (supplied callbacks onPhase);
        cbn [deltaOf app]; rewrite Hmap by reflexivity; apply Hchunks.
Qed.

(** *** Induction along the loop *)

Lemma turnLoop_rect (R : LoopState World → list Event → LoopResult World → Prop) :
  (∀ st, MAX_AGENT_TURNS ≤ turnCount st → R st [] (Exited st)) →
  (∀ st evs st' evs' res,
     turnCount st < MAX_AGENT_TURNS → turn st = (evs, Continue st') →
     R st' evs' res → R st (evs ++ evs') res) →
  (∀ st evs st',
     turnCount st < MAX_AGENT_TURNS → turn st = (evs, Break st') → R st evs (Exited st')) →
  (∀ st evs reason,
     turnCount st < MAX_AGENT_TURNS → turn st = (evs, Abort reason) →
     R st evs (Aborted reason)) →
  ∀ fuel st evs res,
    MAX_AGENT_TURNS - turnCount st ≤ fuel → turnLoop fuel st = (evs, res) → R st evs res.
Proof.
  intros Hdone Hcont Hbreak Habort.
  induction fuel as [|fuel IH]; intros st evs res Hfuel Hrun.
  - assert (MAX_AGENT_TURNS ≤ turnCount st) as Hle by lia.
    simpl in Hrun. rewrite (proj2 (Nat.ltb_ge _ _) Hle) in Hrun.
    injection Hrun as <- <-. apply Hdone, Hle.
  - simpl in Hrun. destruct (turnCount st <? MAX_AGENT_TURNS) eqn:Hlt.
    + apply Nat.ltb_lt in Hlt.
      destruct (turn st) as [evs1 [st'|st'|reason]] eqn:Hturn.
      * destruct (turnLoop fuel st') as [evs2 res2] eqn:Hloop.
        injection Hrun as <- <-.
        pose proof (turn_traffic World sendMessage executeTools runVerification stringify
                      injectedId REASONING_STREAM_CHUNK_SIZE dryRun callbacks st evs1 _ Hturn)
          as [_ Htr].
        cbv zeta in Htr.
        destruct (Validator.validateConversationHistory (conversationHistory st)).2;
          [destruct Htr as [Htr _]; discriminate Htr |].
        destruct Htr as (_ & _ & _ & Hcount & _).
        apply (Hcont st evs1 st' evs2 res2 Hlt Hturn).
        apply IH; [lia | exact Hloop].
      * injection Hrun as <- <-. apply Hbreak; assumption.
      * injection Hrun as <- <-. apply Habort; assumption.
    + apply Nat.ltb_ge in Hlt. injection Hrun as <- <-. apply Hdone, Hlt.
Qed.

(** The same for a whole request. *)
Lemma processRequest_rect (R : LoopState World → list Event → LoopResult World → Prop)
    (w : World) (history : list Message) (userMessage : string) :
  (∀ st, MAX_AGENT_TURNS ≤ turnCount st → R st [] (Exited st)) →
  (∀ st evs st' evs' res,
     turnCount st < MAX_AGENT_TURNS → turn st = (evs, Continue st') →
     R st' evs' res → R st (evs ++ evs') res) →
  (∀ st evs st',
     turnCount st < MAX_AGENT_TURNS → turn st = (evs, Break st') → R st evs (Exited st')) →
  (∀ st evs reason,
     turnCount st < MAX_AGENT_TURNS → turn st = (evs, Abort reason) →
     R st evs (Aborted reason)) →
  ∃ evs res,
    R (initialState World w history userMessage) evs res
    ∧ processRequest w history userMessage
      = match res with
        | Exited st =>
            (evs ++ emit (supplied callbacks onPhase) (Phase completed)
                 ++ emit (supplied callbacks onComplete)
                         (Complete (totalInputTokens st) (totalOutputTokens st)),
             Returned (finalResponse st) st)
        | Aborted reason => (evs, Threw reason)
        | OutOfFuel => (evs, Unfinished)
        end.
Proof.
  intros Hdone Hcont Hbreak Habort. unfold Loop.processRequest.
  destruct (turnLoop MAX_AGENT_TURNS (initialState World w history userMessage))
    as [evs res] eqn:Hloop.
  exists evs, res. split.
  - apply (turnLoop_rect R Hdone Hcont Hbreak Habort MAX_AGENT_TURNS _ _ _
             ltac:(simpl; lia) Hloop).
  - destruct res; reflexivity.
Qed.

(** *** One pass, spelled out *)

Lemma continue_either_way (b : bool) (st : LoopState World) :
  (if b then Continue st else Continue st) = Continue st.
Proof. destruct b; reflexivity. Qed.

(** [afterResponse] with its intermediate results named. *)
Lemma afterResponse_cases (st : LoopState World) (response : Response) :
  let enforced :=
    Enforcer.injectReadBeforeWriteBlocks (injectedId (turnCount st)) (r_content response) in
  let tt := thinkingTransition (buffers st) enforced.2 in
  let history := conversationHistory st ++ [Spec.assistantMessage enforced.1] in
  let evPush := if 0 <? length enforced.1 then [] else [PlaceholderWarning] in
  let totalIn := totalInputTokens st + inputTokens response in
  let totalOut := totalOutputTokens st + outputTokens response in
  let evCode := emit (supplied callbacks onPhase) (Phase code_writing) in
  afterResponse st response
  = if bool_decide (enforced.2 = []) then
      let fs := flushSummary tt.1 in
      let verify := hasExecutedTools st && negb dryRun in
      let ver := runVerification (world st) (changedFiles st) in
      (tt.2 ++ evPush ++ fs.2 ++ (if verify then [RunVerification (changedFiles st)] else []),
       Break (mkLoopState (if verify then ver.1 else world st) history
                (if verify then textBlocks (r_content response) +:+ ver.2
                 else textBlocks (r_content response))
                (turnCount st) (changedFiles st) (hasExecutedTools st) totalIn totalOut
                (justExecutedTools st) fs.1 (files st)))
    else if dryRun then
      (tt.2 ++ evPush ++ evCode,
       Continue (mkLoopState (world st)
                   (history ++ [mkMessage user
                                  (ContentArray
                                     (map ToolResultBlock
                                        (map (dryRunResult stringify) enforced.2)))])
                   (finalResponse st) (turnCount st) (changedFiles st) true totalIn totalOut
                   true tt.1 (files st)))
    else
      let run := executeToolUses (world st) (files st) enforced.2 in
      let results := toolResults World run.1 in
      match Checker.checkMissingFileReferences (reportedPaths results) results enforced.2 with
      | None => (tt.2 ++ evPush ++ evCode ++ run.2, Abort TypeError)
      | Some missing =>
          let warn := (0 <? length missing) && (0 <? length results) in
          (tt.2 ++ evPush ++ evCode ++ run.2
           ++ (if warn then [MissingRefsWarning (Checker.warningMessage missing)] else []),
           Continue (mkLoopState (tl_world World run.1)
                       (history ++ [mkMessage user
                                      (ContentArray
                                         (map ToolResultBlock
                                            (if warn
                                             then appendToLast results
                                                    (Checker.warningMessage missing)
                                             else results)))])
                       (finalResponse st) (turnCount st)
                       (changedFiles st ∪ reportedPaths results) true totalIn totalOut
                       true tt.1 (tl_files World run.1)))
      end.
Proof.
  cbv zeta. unfold Loop.afterResponse, Spec.assistantMessage. cbv zeta.
  destruct (Enforcer.injectReadBeforeWriteBlocks _ _) as [blocks toolUses]. cbn [fst snd].
  destruct (thinkingTransition (buffers st) toolUses) as [buf evThinking]. cbn [fst snd].
  destruct (0 <? length blocks); cbv beta iota.
  all: destruct toolUses as [|tu toolUses];
    [ rewrite (bool_decide_eq_true_2 (@nil ToolUse = [])) by reflexivity;
      cbn [length Nat.eqb];
      destruct (flushSummary buf) as [buf' evSummary]; cbn [fst snd];
      destruct (hasExecutedTools st && negb dryRun);
      [destruct (runVerification _ _) as [w summary] |]; reflexivity
    | rewrite (bool_decide_eq_false_2 (tu :: toolUses = [])) by discriminate;
      change (length (tu :: toolUses) =? 0) with false;
      change (0 <? length (tu :: toolUses)) with true; cbn [andb]; cbv beta iota;
      destruct dryRun;
      [ rewrite continue_either_way; reflexivity
      | destruct (executeToolUses _ _ _) as [tl evTools]; cbn [fst snd];
        destruct (Checker.checkMissingFileReferences _ _ _) as [missing|];
        [ destruct ((0 <? length missing) && (0 <? length (toolResults World tl)));
          cbv beta iota; rewrite continue_either_way; reflexivity
        | reflexivity ] ] ].
Qed.

(** [turn] with its intermediate results named. *)
Lemma turn_cases (st : LoopState World) :
  let v := Validator.validateConversationHistory (conversationHistory st) in
  let sent := sendMessage (world st) (conversationHistory st) in
  let hd := handleDeltas (Spec.turnStart st).1 (Spec.turnStart st).2 sent.2.1 in
  let st1 :=
    mkLoopState sent.1 (conversationHistory st) (finalResponse st) (S (turnCount st))
      (changedFiles st) (hasExecutedTools st) (totalInputTokens st) (totalOutputTokens st)
      false hd.1.2 (files st) in
  let evs := map ValidatorWarning v.1 ++ [SendMessage (conversationHistory st)]
             ++ hd.2 ++ [ModelReplied sent.2] in
  turn st
  = match v.2 with
    | Some e => (map ValidatorWarning v.1, Abort (ValidationFailed e))
    | None =>
        match sent.2.2 with
        | inl message => (evs, Abort (ModelClientError message))
        | inr response =>
            (evs ++ (afterResponse st1 response).1, (afterResponse st1 response).2)
        end
    end.
Proof.
  cbv zeta. unfold Loop.turn, Spec.turnStart.
  destruct (Validator.validateConversationHistory _) as [ws [e|]]; [reflexivity |].
  cbn [fst snd].
  destruct (sendMessage (world st) (conversationHistory st)) as [w [deltas reply]].
  cbn [fst snd].
  destruct (if justExecutedTools st then _ else _) as [het buf]. cbn [fst snd].
  destruct (handleDeltas het buf deltas) as [[het' buf'] evDeltas]. cbn [fst snd].
  destruct reply as [message|response]; [reflexivity |].
  destruct (afterResponse _ response) as [evs2 r2]. reflexivity.
Qed.

(** *** What a request can emit *)

(** An event that the mode and the handlers allow and that does not close
    the request. *)
Local Abbreviation inside :=
  (fun e : Event => permitted dryRun callbacks e = true ∧ closing e = false).

Ltac event_list :=
  cbn [fst snd];
  repeat first
    [ apply Forall_nil_2
    | apply Forall_app_2
    | apply Forall_cons_2
    | match goal with
      | |- Forall _ (emit ?b _) => let H := fresh "Hb" in destruct b eqn:H; cbn [emit]
      | |- Forall _ (if ?b then _ else _) => let H := fresh "Hb" in destruct b eqn:H
      | |- Forall _ (map _ _) => apply Forall_map, Forall_true; intros ?
      end ].

Ltac allowed :=
  split; [| reflexivity]; cbn [permitted];
  repeat match goal with
         | H : _ && _ = true |- _ => apply andb_true_iff in H as [? ?]
         | H : dryRun = false |- _ => rewrite H
         end;
  cbn [negb andb]; first [reflexivity | assumption].

Lemma handleDelta_inside het buf d : Forall inside (handleDelta het buf d).2.
Proof.
  unfold Loop.handleDelta.
  destruct (bool_decide (delta_type d = "text")); [| constructor].
  destruct (negb het && supplied callbacks onPhase) eqn:Hstart; cbn [fst snd].
  - constructor; [allowed | constructor].
  - destruct (isInThinkingPhase buf); [constructor |].
    destruct (isInSummaryPhase buf); [constructor |].
    cbn [snd app]. constructor; [| constructor].
    destruct (supplied callbacks onDelta) eqn:Hd; split; try reflexivity;
      cbn [permitted]; rewrite Hd; reflexivity.
Qed.

Lemma handleDeltas_inside deltas : ∀ het buf, Forall inside (handleDeltas het buf deltas).2.
Proof.
  induction deltas as [|d rest IH]; intros het buf; simpl; [constructor |].
  pose proof (handleDelta_inside het buf d) as H1.
  destruct (handleDelta het buf d) as [[het1 buf1] evs1].
  pose proof (IH het1 buf1) as H2.
  destruct (handleDeltas het1 buf1 rest) as [[het2 buf2] evs2].
  apply Forall_app_2; assumption.
Qed.

Lemma thinkingTransition_inside buf toolUses :
  Forall inside (thinkingTransition buf toolUses).2.
Proof.
  unfold Loop.thinkingTransition.
  destruct (_ && _ && (0 <? _)); [event_list; allowed |].
  destruct (_ && _ && (_ =? 0)); [event_list; allowed | constructor].
Qed.

Lemma flushSummary_inside buf : Forall inside (flushSummary buf).2.
Proof.
  unfold Loop.flushSummary.
  destruct (_ && _); [event_list; allowed | constructor].
Qed.

Lemma executeToolUse_inside tl tu :
  dryRun = false → Forall inside (executeToolUse tl tu).2.
Proof.
  intros Hdry. unfold Loop.executeToolUse, Loop.trackFileOperation.
  destruct (executeTools _ tu) as [w result].
  destruct (truthy _ && isWriteTool _).
  - destruct (if bool_decide (_ ∈ _) then _ else _) as [operation filesCreated].
    destruct (negb _); event_list; allowed.
  - event_list; allowed.
Qed.

Lemma executeToolUsesFrom_inside toolUses : ∀ tl,
  dryRun = false → Forall inside (executeToolUsesFrom tl toolUses).2.
Proof.
  induction toolUses as [|tu rest IH]; intros tl Hdry; simpl; [constructor |].
  pose proof (executeToolUse_inside tl tu Hdry) as H1.
  destruct (executeToolUse tl tu) as [tl1 evs1].
  pose proof (IH tl1 Hdry) as H2.
  destruct (executeToolUsesFrom tl1 rest) as [tl2 evs2].
  apply Forall_app_2; assumption.
Qed.

Lemma afterResponse_inside st response : Forall inside (afterResponse st response).1.
Proof.
  rewrite afterResponse_cases. cbv zeta.
  set (enforced := Enforcer.injectReadBeforeWriteBlocks _ _).
  pose proof (thinkingTransition_inside (buffers st) enforced.2) as Htt.
  pose proof (flushSummary_inside (thinkingTransition (buffers st) enforced.2).1) as Hfs.
  destruct (bool_decide (enforced.2 = [])).
  - cbn [fst]. apply Forall_app_2; [assumption |]. apply Forall_app_2; [event_list; allowed |].
    apply Forall_app_2; [assumption |].
    destruct (hasExecutedTools st && negb dryRun) eqn:Hv; [| constructor].
    apply andb_true_iff in Hv as [_ Hv]. apply negb_true_iff in Hv.
    constructor; [allowed | constructor].
  - destruct dryRun eqn:Hdry.
    + cbn [fst]. apply Forall_app_2; [assumption |]. event_list; allowed.
    + pose proof (executeToolUsesFrom_inside enforced.2
                    (mkToolLoop World (world st) (files st) ∅ []) Hdry) as Hx.
      rewrite Hdry in Hx.
      fold (executeToolUses (world st) (files st) enforced.2) in Hx.
      destruct (Checker.checkMissingFileReferences _ _ _); cbn [fst];
        (apply Forall_app_2; [assumption |]);
        (apply Forall_app_2; [event_list; allowed |]);
        (apply Forall_app_2; [event_list; allowed |]);
        [apply Forall_app_2; [assumption |]; event_list; allowed | assumption].
Qed.

Lemma turn_inside st : Forall inside (turn st).1.
Proof.
  rewrite turn_cases. cbv zeta.
  pose proof (handleDeltas_inside
                (sendMessage (world st) (conversationHistory st)).2.1
                (Spec.turnStart st).1 (Spec.turnStart st).2) as Hd.
  destruct (Validator.validateConversationHistory _).2; [event_list; allowed |].
  destruct (sendMessage _ _).2.2 as [message|response]; cbn [fst].
  - event_list; try allowed. assumption.
  - apply Forall_app_2; [| apply afterResponse_inside].
    event_list; try allowed. assumption.
Qed.

Lemma turnLoop_inside fuel st evs res :
  MAX_AGENT_TURNS - turnCount st ≤ fuel → turnLoop fuel st = (evs, res) → Forall inside evs.
Proof.
  apply (turnLoop_rect (fun _ evs _ => Forall inside evs)).
  - constructor.
  - intros st0 evs0 st' evs' res' _ Hturn IH. apply Forall_app_2; [| exact IH].
    pose proof (turn_inside st0) as H. rewrite Hturn in H. exact H.
  - intros st0 evs0 st' _ Hturn. pose proof (turn_inside st0) as H. rewrite Hturn in H. exact H.
  - intros st0 evs0 reason _ Hturn. pose proof (turn_inside st0) as H. rewrite Hturn in H.
    exact H.
Qed.

Lemma processRequest_events (w : World) (history : list Message) (userMessage : string) :
  let run := processRequest w history userMessage in
  ∃ evs,
    Forall inside evs
    ∧ match run.2 with
      | Returned text st =>
          run.1 = evs ++ emit (supplied callbacks onPhase) (Phase completed)
                      ++ emit (supplied callbacks onComplete)
                              (Complete (totalInputTokens st) (totalOutputTokens st))
      | _ => run.1 = evs
      end.
Proof.
  cbv zeta. unfold Loop.processRequest.
  destruct (turnLoop MAX_AGENT_TURNS _) as [evs res] eqn:Hloop.
  exists evs. split.
  - apply (turnLoop_inside MAX_AGENT_TURNS _ evs res ltac:(simpl; lia) Hloop).
  - destruct res; reflexivity.
Qed.

(** X4. Whatever a request does is allowed by its mode and its handlers.  In
    a dry run no tool is executed, no verification runs, and no file-operation
    or tool notification or missing-reference warning is produced.  A
    notification is only sent to a handler that was supplied, and text is
    written to standard output only when there is no [onDelta] handler. *)
Theorem every_action_is_permitted :
  ∀ (w : World) (history : list Message) (userMessage : string),
    let run := processRequest w history userMessage in
    Forall (fun e => permitted dryRun callbacks e = true) run.1
    ∧ (dryRun = true → Forall (fun e => actsOnWorkspace e = false) run.1).
Proof.
  intros w history userMessage run.
  assert (Forall (fun e => permitted dryRun callbacks e = true) run.1) as Hall.
  { destruct (processRequest_events w history userMessage) as (evs & Hin & Hrun).
    fold run in Hrun.
    assert (Forall (fun e => permitted dryRun callbacks e = true) evs) as Hevs
      by (eapply Forall_impl; [exact Hin | intros e [He _]; exact He]).
    destruct run.2; rewrite Hrun; [| assumption ..].
    apply Forall_app_2; [assumption |].
    event_list; cbn [permitted]; assumption. }
  split; [exact Hall |]. intros Hdry.
  eapply Forall_impl; [exact Hall |]. intros e He. rewrite Hdry in He.
  destruct e; try reflexivity; discriminate He.
Qed.

(** X5. A turn of a dry run touches nothing but the model: if it throws,
    it is a validation error or an error of the model client; otherwise the
    world is the one the model call left, the changed files and the file
    tables are those before the turn, and after a reply that asks for tools
    the history receives the assistant message and one synthesized result
    per invocation of the executable list, in order and under the id of its
    invocation. *)
Theorem dry_run_synthesizes_the_results :
  dryRun = true →
  ∀ (st : LoopState World) (evs : list Event) (r : TurnResult World),
    turn st = (evs, r) →
    let sent := sendMessage (world st) (conversationHistory st) in
    match r with
    | Abort reason =>
        (∃ e, reason = ValidationFailed e) ∨ (∃ message, reason = ModelClientError message)
    | Break st' =>
        world st' = sent.1 ∧ changedFiles st' = changedFiles st ∧ files st' = files st
    | Continue st' =>
        world st' = sent.1 ∧ changedFiles st' = changedFiles st ∧ files st' = files st
        ∧ ∃ response,
            sent.2.2 = inr response
            ∧ let enforced :=
                Enforcer.injectReadBeforeWriteBlocks (injectedId (S (turnCount st)))
                  (r_content response) in
              conversationHistory st'
              = conversationHistory st
                ++ [mkMessage assistant (ContentArray enforced.1);
                    mkMessage user
                      (ContentArray
                         (map (fun tu =>
                                 ToolResultBlock
                                   (mkToolResult (tu_id tu)
                                      ("[DRY RUN] Would execute: " +:+ tu_name tu
                                       +:+ " with input: " +:+ stringify (tu_input tu))
                                      false JUndefined))
                              enforced.2))]
    end.
Proof.
  intros Hdry st evs r Hturn. cbv zeta.
  rewrite turn_cases in Hturn. cbv zeta in Hturn.
  destruct (Validator.validateConversationHistory _).2 as [e|];
    [injection Hturn as _ <-; left; eauto |].
  destruct (sendMessage _ _).2.2 as [message|response] eqn:Hsent;
    [injection Hturn as _ <-; right; eauto |].
  injection Hturn as _ <-. rewrite afterResponse_cases. cbv zeta.
  cbn [turnCount conversationHistory world changedFiles files hasExecutedTools buffers].
  set (enforced := Enforcer.injectReadBeforeWriteBlocks _ (r_content response)).
  rewrite Hdry, andb_false_r.
  destruct (bool_decide (enforced.2 = [])) eqn:Hnone; cbn [snd].
  - cbn. auto.
  - apply bool_decide_eq_false_1 in Hnone.
    assert (enforced.2 = toolUsesOf enforced.1) as Htools
      by apply (run_consistent _ (r_content response) Enforcer.initial initial_consistent).
    assert (enforced.1 ≠ []) as Hblocks.
    { intros H. apply Hnone. rewrite Htools, H. reflexivity. }
    assert (Spec.assistantMessage enforced.1 = mkMessage assistant (ContentArray enforced.1))
      as Hmsg.
    { unfold Spec.assistantMessage. destruct enforced.1; [contradiction | reflexivity]. }
    rewrite Hmsg. cbn [world changedFiles files conversationHistory].
    split; [reflexivity |]. split; [reflexivity |]. split; [reflexivity |].
    exists response. split; [reflexivity |].
    rewrite <- app_assoc, map_map. reflexivity.
Qed.

(** *** Token totals and the end of a request *)


Lemma afterResponse_replies st response : Spec.replies (afterResponse st response).1 = [].
Proof.
  destruct (afterResponse st response) as [evs r] eqn:H.
  destruct (afterResponse_spec World executeTools runVerification stringify injectedId
              REASONING_STREAM_CHUNK_SIZE dryRun callbacks st response evs r H) as [Hint _].
  apply internal_replies. exact Hint.
Qed.

Lemma turn_replies st :
  Spec.replies (turn st).1
  = match (Validator.validateConversationHistory (conversationHistory st)).2 with
    | Some _ => []
    | None => [(sendMessage (world st) (conversationHistory st)).2]
    end.
Proof.
  destruct (turn st) as [evs r] eqn:Hturn.
  destruct (turn_traffic World sendMessage executeTools runVerification stringify injectedId
              REASONING_STREAM_CHUNK_SIZE dryRun callbacks st evs r Hturn) as [_ H].
  cbv zeta in H. cbn [fst].
  destruct (Validator.validateConversationHistory _).2; [apply H | apply H].
Qed.

Lemma turn_tokens st evs r :
  turn st = (evs, r) →
  match r with
  | Continue st' | Break st' =>
      totalInputTokens st' = totalInputTokens st + tokens inputTokens (Spec.replies evs)
      ∧ totalOutputTokens st' = totalOutputTokens st + tokens outputTokens (Spec.replies evs)
  | Abort _ => True
  end.
Proof.
  intros Hturn. pose proof (turn_replies st) as Hrep. rewrite Hturn in Hrep. cbn [fst] in Hrep.
  rewrite Hrep. clear Hrep. rewrite turn_cases in Hturn. cbv zeta in Hturn.
  destruct (Validator.validateConversationHistory _).2;
    [injection Hturn as _ <-; exact I |].
  destruct (sendMessage _ _).2.2 as [message|response] eqn:Hsent;
    [injection Hturn as _ <-; exact I |].
  injection Hturn as _ <-. rewrite afterResponse_cases. cbv zeta.
  unfold tokens. cbn [map list_sum fold_right]. rewrite Hsent, !Nat.add_0_r.
  destruct (bool_decide _); [cbn; auto |].
  destruct dryRun; [cbn; auto |].
  destruct (Checker.checkMissingFileReferences _ _ _); cbn; auto.
Qed.

Lemma tokens_app count rs1 rs2 : tokens count (rs1 ++ rs2) = tokens count rs1 + tokens count rs2.
Proof. unfold tokens. rewrite map_app, list_sum_app. reflexivity. Qed.

Lemma turnLoop_tokens fuel st evs st' :
  MAX_AGENT_TURNS - turnCount st ≤ fuel → turnLoop fuel st = (evs, Exited st') →
  totalInputTokens st' = totalInputTokens st + tokens inputTokens (Spec.replies evs)
  ∧ totalOutputTokens st' = totalOutputTokens st + tokens outputTokens (Spec.replies evs).
Proof.
  intros Hfuel Hloop.
  apply (turnLoop_rect
           (fun st evs res =>
              match res with
              | Exited st' =>
                  totalInputTokens st'
                  = totalInputTokens st + tokens inputTokens (Spec.replies evs)
                  ∧ totalOutputTokens st'
                    = totalOutputTokens st + tokens outputTokens (Spec.replies evs)
              | _ => True
              end)) with (fuel := fuel) (res := Exited st'); try assumption.
  - intros st0 _. unfold tokens. cbn. lia.
  - intros st0 evs0 st1 evs1 res _ Hturn IH. destruct res; try exact I.
    apply turn_tokens in Hturn. rewrite replies_app, !tokens_app. lia.
  - intros st0 evs0 st1 _ Hturn. apply turn_tokens in Hturn. exact Hturn.
  - intros. exact I.
Qed.

(** X6. Completion is signalled only by a request that returns, once, as its
    last actions: the phase "completed" and then the token totals, which are
    the input and output tokens summed over all the model's responses in this
    request.  A request that throws signals neither. *)
Theorem completion_closes_a_returning_request :
  ∀ (w : World) (history : list Message) (userMessage : string),
    let run := processRequest w history userMessage in
    match run.2 with
    | Returned text st =>
        ∃ evs,
          run.1 = evs ++ emit (supplied callbacks onPhase) (Phase completed)
                      ++ emit (supplied callbacks onComplete)
                              (Complete (tokens inputTokens (Spec.replies run.1))
                                        (tokens outputTokens (Spec.replies run.1)))
          ∧ Forall (fun e => closing e = false) evs
    | _ => Forall (fun e => closing e = false) run.1
    end.
Proof.
  intros w history userMessage. cbv zeta. unfold Loop.processRequest.
  destruct (turnLoop MAX_AGENT_TURNS _) as [evs res] eqn:Hloop.
  pose proof (turnLoop_inside MAX_AGENT_TURNS _ evs res ltac:(simpl; lia) Hloop) as Hin.
  assert (Forall (fun e => closing e = false) evs) as Hopen
    by (eapply Forall_impl; [exact Hin | intros e [_ He]; exact He]).
  destruct res as [st|reason|]; cbn [fst snd]; try exact Hopen.
  exists evs. split; [| exact Hopen].
  destruct (turnLoop_tokens MAX_AGENT_TURNS _ evs st ltac:(simpl; lia) Hloop) as [Hi Ho].
  cbn in Hi, Ho. rewrite !replies_app.
  rewrite (internal_replies (emit _ (Phase completed))) by each_event.
  rewrite (internal_replies (emit _ (Complete _ _))) by each_event.
  rewrite !app_nil_r, Hi, Ho. reflexivity.
Qed.

(** *** The history *)

Lemma assistantMessage_shape (blocks : list ContentBlock) :
  role (Spec.assistantMessage blocks) = assistant
  ∧ hasBlocks (Spec.assistantMessage blocks) = true
  ∧ (blocks ≠ [] → Spec.assistantMessage blocks = mkMessage assistant (ContentArray blocks)).
Proof.
  unfold Spec.assistantMessage. destruct blocks as [|b blocks]; simpl.
  - repeat split. intros H. contradiction.
  - repeat split.
Qed.

(** The results collected by the [for] loop: the runner's answers to the
    invocations, in order, appended to what was there. *)
Lemma executeToolUsesFrom_results toolUses : ∀ tl,
  ∃ answers,
    toolResults World (executeToolUsesFrom tl toolUses).1
    = toolResults World tl ++ concat answers
    ∧ Forall2 (fun tu answer => ∃ w, answer = (executeTools w tu).2) toolUses answers.
Proof.
  induction toolUses as [|tu rest IH]; intros tl.
  - exists []. simpl. rewrite app_nil_r. split; [reflexivity | constructor].
  - simpl. unfold Loop.executeToolUse at 1.
    destruct (trackFileOperation _ _ tu) as [[ft newOps] evStarting].
    destruct (executeTools (tl_world World tl) tu) as [w result] eqn:Hrun.
    destruct (IH (mkToolLoop World w ft newOps (toolResults World tl ++ result)))
      as (answers & Hres & Hall).
    destruct (executeToolUsesFrom _ rest) as [tl' evs']. cbn [fst snd] in *.
    exists (result :: answers). split.
    + rewrite Hres. cbn [toolResults concat]. rewrite <- app_assoc. reflexivity.
    + constructor; [| exact Hall]. exists (tl_world World tl). rewrite Hrun. reflexivity.
Qed.

Lemma appendToLast_ids results warning :
  map tool_use_id (appendToLast results warning) = map tool_use_id results
  ∧ length (appendToLast results warning) = length results.
Proof.
  unfold Loop.appendToLast. destruct (rev results) as [|lastResult before] eqn:Hrev.
  - split; reflexivity.
  - assert (results = rev before ++ [lastResult]) as ->.
    { rewrite <- (rev_involutive results), Hrev. reflexivity. }
    rewrite !map_app, !length_app. split; reflexivity.
Qed.

(** What one pass does to the history. *)
Lemma turn_history st evs r :
  turn st = (evs, r) →
  let sent := (sendMessage (world st) (conversationHistory st)).2 in
  match r with
  | Break st' =>
      Spec.requestsTools sent = false
      ∧ ∃ blocks, conversationHistory st'
                  = conversationHistory st ++ [Spec.assistantMessage blocks]
  | Continue st' =>
      Spec.requestsTools sent = true
      ∧ ∃ blocks results,
          toolUsesOf blocks ≠ []
          ∧ conversationHistory st'
            = conversationHistory st
              ++ [mkMessage assistant (ContentArray blocks);
                  mkMessage user (ContentArray (map ToolResultBlock results))]
          ∧ ((dryRun = true ∧ map tool_use_id results = map tu_id (toolUsesOf blocks))
             ∨ (dryRun = false
                ∧ ∃ answers,
                    map tool_use_id results = map tool_use_id (concat answers)
                    ∧ length results = length (concat answers)
                    ∧ Forall2 (fun tu answer => ∃ w, answer = (executeTools w tu).2)
                              (toolUsesOf blocks) answers))
  | Abort _ => True
  end.
Proof.
  intros Hturn.
  pose proof (turn_traffic World sendMessage executeTools runVerification stringify injectedId
                REASONING_STREAM_CHUNK_SIZE dryRun callbacks st evs r Hturn) as [_ Htr].
  cbv zeta in Htr. cbv zeta.
  rewrite turn_cases in Hturn. cbv zeta in Hturn.
  destruct (Validator.validateConversationHistory _).2;
    [injection Hturn as _ <-; exact I |].
  destruct Htr as (_ & _ & Htr).
  destruct (sendMessage _ _).2.2 as [message|response] eqn:Hsent;
    [injection Hturn as _ <-; exact I |].
  injection Hturn as _ <-. rewrite afterResponse_cases in *. cbv zeta in *.
  set (enforced := Enforcer.injectReadBeforeWriteBlocks _ (r_content response)) in *.
  assert (enforced.2 = toolUsesOf enforced.1) as Htools
    by apply (run_consistent _ (r_content response) Enforcer.initial initial_consistent).
  destruct (bool_decide (enforced.2 = [])) eqn:Hnone; cbn [snd] in *.
  - destruct Htr as [Htr _]. split; [exact Htr |]. exists enforced.1. reflexivity.
  - apply bool_decide_eq_false_1 in Hnone.
    assert (enforced.1 ≠ []) as Hblocks.
    { intros H. apply Hnone. rewrite Htools, H. reflexivity. }
    destruct (assistantMessage_shape enforced.1) as (_ & _ & Hmsg).
    specialize (Hmsg Hblocks).
    destruct dryRun eqn:Hdry; cbn [snd] in *.
    + destruct Htr as [Htr _]. split; [exact Htr |].
      exists enforced.1, (map (dryRunResult stringify) enforced.2).
      split; [rewrite <- Htools; exact Hnone |].
      split; [rewrite Hmsg, <- app_assoc; reflexivity |].
      left. split; [reflexivity |]. rewrite map_map, Htools. reflexivity.
    + match goal with
      | |- context [executeToolUses ?w ?ft enforced.2] =>
          destruct (executeToolUsesFrom_results enforced.2 (mkToolLoop World w ft ∅ []))
            as (answers & Hres & Hall);
          fold (executeToolUses w ft enforced.2) in Hres;
          set (run := executeToolUses w ft enforced.2) in *
      end.
      cbn [toolResults app] in Hres.
      destruct (Checker.checkMissingFileReferences _ _ _) as [missing|]; cbn [snd] in *;
        [| exact I].
      destruct Htr as [Htr _]. split; [exact Htr |].
      eexists enforced.1, _. split; [rewrite <- Htools; exact Hnone |].
      split; [rewrite Hmsg, <- app_assoc; reflexivity |].
      right. split; [reflexivity |]. exists answers. rewrite <- Htools, <- Hres.
      destruct (_ && _); [| auto].
      destruct (appendToLast_ids (toolResults World run.1) (Checker.warningMessage missing))
        as [H1 H2].
      auto.
Qed.

Lemma turn_passed st evs r :
  turn st = (evs, r) → (∀ reason, r ≠ Abort reason) →
  (Validator.validateConversationHistory (conversationHistory st)).2 = None
  ∧ Spec.sends evs = [conversationHistory st]
  ∧ Spec.replies evs = [(sendMessage (world st) (conversationHistory st)).2].
Proof.
  intros Hturn Hr.
  pose proof (turn_traffic World sendMessage executeTools runVerification stringify injectedId
                REASONING_STREAM_CHUNK_SIZE dryRun callbacks st evs r Hturn) as [_ Htr].
  cbv zeta in Htr.
  destruct (Validator.validateConversationHistory _).2 as [e|].
  - destruct Htr as [-> _]. exfalso. exact (Hr _ eq_refl).
  - destruct Htr as (H1 & H2 & _). auto.
Qed.

Lemma turn_failed st evs e :
  turn st = (evs, Abort (ValidationFailed e)) →
  (Validator.validateConversationHistory (conversationHistory st)).2 = Some e
  ∧ Spec.sends evs = [].
Proof.
  intros Hturn.
  pose proof (turn_traffic World sendMessage executeTools runVerification stringify injectedId
                REASONING_STREAM_CHUNK_SIZE dryRun callbacks st evs _ Hturn) as [_ Htr].
  cbv zeta in Htr.
  destruct (Validator.validateConversationHistory _).2 as [e'|].
  - destruct Htr as ([= ->] & Hs & _). auto.
  - destruct Htr as (_ & _ & [(message & _ & H)|[_ H]]); discriminate H.
Qed.

(** X7. A request only appends to the history: the user message first,
    then for every reply of the model the assistant message, followed after a
    tool turn by the user message that carries the results.  Assistant
    messages are never stored without blocks. *)
Theorem history_grows_by_one_exchange_per_turn :
  ∀ (w : World) (loaded : list Message) (userMessage : string),
    let run := processRequest w loaded userMessage in
    ∀ text st, run.2 = Returned text st →
      ∃ added,
        conversationHistory st
        = loaded ++ mkMessage user (ContentArray [TextBlock userMessage]) :: added
        ∧ map role added = flat_map rolesAdded (Spec.replies run.1)
        ∧ Forall (fun msg => role msg = assistant → hasBlocks msg = true) added.
Proof.
  intros w loaded userMessage run text st Hrun.
  destruct (processRequest_rect
              (fun st evs res =>
                 match res with
                 | Exited st' =>
                     ∃ added,
                       conversationHistory st' = conversationHistory st ++ added
                       ∧ map role added = flat_map rolesAdded (Spec.replies evs)
                       ∧ Forall (fun msg => role msg = assistant → hasBlocks msg = true) added
                 | _ => True
                 end) w loaded userMessage) as (evs & res & HR & Heq).
  - intros st0 _. exists []. rewrite app_nil_r. repeat split. constructor.
  - intros st0 evs0 st1 evs1 res _ Hturn IH. destruct res as [st2| |]; try exact I.
    destruct IH as (added & Hh & Hroles & Hall).
    destruct (turn_passed st0 evs0 _ Hturn ltac:(discriminate)) as (_ & _ & Hrep).
    apply turn_history in Hturn as (Htools & blocks & results & Hne & Hh1 & _).
    exists ([mkMessage assistant (ContentArray blocks);
             mkMessage user (ContentArray (map ToolResultBlock results))] ++ added).
    rewrite Hh, Hh1, <- app_assoc. split; [reflexivity |].
    rewrite replies_app, flat_map_app, map_app, Hrep, <- Hroles.
    cbn [flat_map]. unfold rolesAdded at 1. rewrite Htools. split; [reflexivity |].
    apply Forall_app_2; [| exact Hall].
    constructor; [| constructor; [intros H; discriminate H | constructor]].
    intros _. destruct blocks; [contradiction | reflexivity].
  - intros st0 evs0 st1 _ Hturn.
    destruct (turn_passed st0 evs0 _ Hturn ltac:(discriminate)) as (_ & _ & Hrep).
    apply turn_history in Hturn as (Htools & blocks & Hh1).
    exists [Spec.assistantMessage blocks]. split; [exact Hh1 |].
    rewrite Hrep. cbn [flat_map]. unfold rolesAdded. rewrite Htools.
    destruct (assistantMessage_shape blocks) as (Hrole & Hblocks & _).
    split; [cbn; rewrite Hrole; reflexivity |]. constructor; [auto | constructor].
  - intros. exact I.
  - fold run in Heq. rewrite Heq in Hrun. destruct res as [st'| |]; try discriminate Hrun.
    cbn [snd] in Hrun. injection Hrun as _ <-.
    destruct HR as (added & Hh & Hroles & Hall). exists added.
    split; [rewrite Hh; cbn; rewrite <- app_assoc; reflexivity |]. split; [| exact Hall].
    rewrite Heq. cbn [fst]. rewrite !replies_app.
    rewrite (internal_replies (emit _ (Phase completed))) by each_event.
    rewrite (internal_replies (emit _ (Complete _ _))) by each_event.
    rewrite !app_nil_r. exact Hroles.
Qed.

(** *** Well-formed histories *)

Lemma hasBlocks_not_offending len idx msg :
  hasBlocks msg = true → ¬ Spec.offending len idx msg.
Proof.
  unfold hasBlocks, Spec.offending. destruct (content msg) as [[|b blocks]|v]; try discriminate.
  intros _ [H _]. discriminate H.
Qed.

Lemma offending_without_blocks len idx msg :
  hasBlocks msg = false → idx ≠ len - 1 → Spec.offending len idx msg.
Proof.
  unfold hasBlocks, Spec.offending. destruct (content msg) as [[|b blocks]|v]; try discriminate.
  - intros _ Hidx. split; [reflexivity |]. intros [H _]. contradiction.
  - intros _ _. exact I.
Qed.

Lemma lookup_forallb {A : Type} (p : A → bool) (l : list A) (i : nat) (x : A) :
  forallb p l = true → l !! i = Some x → p x = true.
Proof.
  intros Hall Hi. rewrite forallb_forall in Hall. apply Hall.
  apply list_elem_of_In. eapply list_elem_of_lookup_2. exact Hi.
Qed.

Lemma validate_well_formed (history : list Message) :
  forallb hasBlocks history = true →
  (Validator.validateConversationHistory history).2 = None.
Proof.
  intros Hall. destruct (validate_spec history) as (He & _ & _). cbv zeta in He.
  destruct (Validator.validateConversationHistory history).2 as [e|]; [| reflexivity].
  destruct (He e eq_refl) as (msg & Hidx & Hoff & _).
  exfalso. apply (hasBlocks_not_offending _ _ msg (lookup_forallb _ _ _ _ Hall Hidx)) in Hoff.
  exact Hoff.
Qed.

Lemma validated_ends_with_user (init : list Message) (final : Message) :
  role final = user →
  (Validator.validateConversationHistory (init ++ [final])).2 = None →
  forallb hasBlocks (init ++ [final]) = true.
Proof.
  intros Hrole Hv. destruct (validate_spec (init ++ [final])) as (_ & Hn & _).
  cbv zeta in Hn. specialize (Hn Hv).
  apply forallb_forall. intros msg Hin.
  apply list_elem_of_In, list_elem_of_lookup_1 in Hin as [j Hj].
  destruct (hasBlocks msg) eqn:Hb; [reflexivity |]. exfalso.
  destruct (decide (j = length (init ++ [final]) - 1)) as [->|Hne].
  - rewrite length_app in Hj. cbn [length] in Hj.
    replace (length init + 1 - 1) with (length init + 0) in Hj by lia.
    rewrite lookup_app_r, Nat.add_0_r, Nat.sub_diag in Hj by lia.
    injection Hj as <-.
    apply (Hn (length init) final).
    + rewrite lookup_app_r, Nat.sub_diag by lia. reflexivity.
    + unfold Spec.offending. unfold hasBlocks in Hb.
      destruct (content final) as [[|b blocks]|v]; try discriminate Hb; [| exact I].
      split; [reflexivity |]. intros [_ H]. rewrite Hrole in H. discriminate H.
  - exact (Hn j msg Hj (offending_without_blocks _ _ _ Hb Hne)).
Qed.

Lemma turnLoop_abort fuel st evs reason :
  0 < fuel → turnCount st < MAX_AGENT_TURNS → turn st = (evs, Abort reason) →
  turnLoop fuel st = (evs, Aborted reason).
Proof.
  intros Hfuel Hlt Hturn. destruct fuel as [|fuel]; [lia |].
  rewrite (turnLoop_step World sendMessage executeTools runVerification stringify injectedId
             MAX_AGENT_TURNS REASONING_STREAM_CHUNK_SIZE dryRun callbacks fuel st Hlt).
  rewrite Hturn. reflexivity.
Qed.

(** X8. A message without blocks anywhere in the loaded history makes the
    request throw at its first validation, before the model is called. This
    includes a trailing assistant message with an empty list: the user message
    is appended before the validation, so the exemption for a final assistant
    placeholder does not apply to it. *)
Theorem malformed_loaded_history_fails_before_the_model_is_called :
  0 < MAX_AGENT_TURNS →
  ∀ (w : World) (loaded : list Message) (userMessage : string) (idx : nat) (msg : Message),
    loaded !! idx = Some msg → hasBlocks msg = false →
    let run := processRequest w loaded userMessage in
    ∃ e, run.2 = Threw (ValidationFailed e)
         ∧ Validator.errorIndex e ≤ idx
         ∧ Spec.sends run.1 = [].
Proof.
  intros Hmax w loaded userMessage idx msg Hidx Hb run.
  set (st0 := initialState World w loaded userMessage).
  destruct (validate_spec (conversationHistory st0)) as (He & Hn & _). cbv zeta in He, Hn.
  assert (conversationHistory st0 !! idx = Some msg) as Hidx0
    by (apply lookup_app_l_Some; exact Hidx).
  assert (idx ≠ length (conversationHistory st0) - 1) as Hnotlast.
  { apply lookup_lt_Some in Hidx. cbn. rewrite length_app. cbn. lia. }
  pose proof (offending_without_blocks _ _ _ Hb Hnotlast) as Hoff.
  destruct (Validator.validateConversationHistory (conversationHistory st0)).2 as [e|] eqn:Hv;
    [| exfalso; exact (Hn eq_refl idx msg Hidx0 Hoff)].
  destruct (He e eq_refl) as (_ & _ & _ & Hfirst & _).
  assert (Validator.errorIndex e ≤ idx) as Hle.
  { destruct (le_lt_dec (Validator.errorIndex e) idx) as [H|H]; [exact H |].
    exfalso. exact (Hfirst idx msg H Hidx0 Hoff). }
  exists e. subst run. unfold Loop.processRequest. fold st0.
  pose proof (turn_cases st0) as Hturn. cbv zeta in Hturn. rewrite Hv in Hturn.
  rewrite (turnLoop_abort MAX_AGENT_TURNS st0 _ _ Hmax Hmax Hturn). cbn [fst snd].
  split; [reflexivity |]. split; [exact Hle |].
  apply map_warning_projections.
Qed.

Lemma forallb_snoc {A : Type} (p : A → bool) (l : list A) (x : A) :
  forallb p (l ++ [x]) = forallb p l && p x.
Proof. rewrite forallb_app. cbn. rewrite andb_true_r. reflexivity. Qed.

Lemma answers_not_empty (toolUses : list ToolUse) (answers : list (list ToolResult)) :
  (∀ w tu, (executeTools w tu).2 ≠ []) → toolUses ≠ [] →
  Forall2 (fun tu answer => ∃ w, answer = (executeTools w tu).2) toolUses answers →
  concat answers ≠ [].
Proof.
  intros Hrunner Hne Hall. destruct Hall as [|tu answer toolUses answers [w ->] _];
    [contradiction |].
  cbn [concat]. intros H. apply app_eq_nil in H as [H _]. exact (Hrunner w tu H).
Qed.

(** X9. When the loaded history is well formed (every message has a
    non-empty list of blocks) and the runner answers every invocation with at
    least one result, or the run is a dry run, no validation of the request
    fails, every history sent to the model is well formed and ends with a user
    message, and so is the history that the request leaves behind when it
    returns. *)
Theorem well_formed_history_stays_well_formed :
  dryRun = true ∨ (∀ w tu, (executeTools w tu).2 ≠ []) →
  ∀ (w : World) (loaded : list Message) (userMessage : string),
    forallb hasBlocks loaded = true →
    let run := processRequest w loaded userMessage in
    (∀ e, run.2 ≠ Threw (ValidationFailed e))
    ∧ Forall (fun history =>
                forallb hasBlocks history = true
                ∧ ∃ init final, history = init ++ [final] ∧ role final = user)
             (Spec.sends run.1)
    ∧ (∀ text st, run.2 = Returned text st →
                  forallb hasBlocks (conversationHistory st) = true).
Proof.
  intros Hrunner w loaded userMessage Hloaded run.
  set (good := fun st : LoopState World =>
                 forallb hasBlocks (conversationHistory st) = true
                 ∧ ∃ init final, conversationHistory st = init ++ [final] ∧ role final = user).
  destruct (processRequest_rect
              (fun st evs res =>
                 good st →
                 Forall (fun history =>
                           forallb hasBlocks history = true
                           ∧ ∃ init final, history = init ++ [final] ∧ role final = user)
                        (Spec.sends evs)
                 ∧ match res with
                   | Exited st' => forallb hasBlocks (conversationHistory st') = true
                   | Aborted (ValidationFailed _) => False
                   | _ => True
                   end) w loaded userMessage) as (evs & res & HR & Heq).
  - intros st0 _ [Hgood _]. split; [constructor | exact Hgood].
  - intros st0 evs0 st1 evs1 res _ Hturn IH Hgood.
    destruct (turn_passed st0 evs0 _ Hturn ltac:(discriminate)) as (_ & Hsends & _).
    apply turn_history in Hturn as (_ & blocks & results & Hne & Hh1 & Hres).
    assert (results ≠ []) as Hresults.
    { destruct Hres as [[_ Hids]|(Hdry & answers & _ & Hlen & Hall)].
      - intros ->. cbn in Hids. symmetry in Hids. apply map_eq_nil in Hids. contradiction.
      - destruct Hrunner as [Hd|Hrunner]; [congruence |].
        pose proof (answers_not_empty _ _ Hrunner Hne Hall) as Hc.
        intros ->. cbn in Hlen. destruct (concat answers); [contradiction | discriminate]. }
    destruct IH as [IH1 IH2].
    { split.
      - rewrite Hh1. change [?a; ?b] with ([a] ++ [b]). rewrite app_assoc, !forallb_snoc.
        destruct Hgood as [-> _]. destruct blocks; [contradiction |].
        destruct results; [contradiction |]. reflexivity.
      - eexists (_ ++ [_]), _. split; [rewrite Hh1, <- app_assoc; reflexivity | reflexivity]. }
    split; [| exact IH2]. rewrite sends_app, Hsends.
    apply Forall_app_2; [| exact IH1]. constructor; [exact Hgood | constructor].
  - intros st0 evs0 st1 _ Hturn Hgood.
    destruct (turn_passed st0 evs0 _ Hturn ltac:(discriminate)) as (_ & Hsends & _).
    apply turn_history in Hturn as (_ & blocks & Hh1).
    rewrite Hsends. split; [constructor; [exact Hgood | constructor] |].
    rewrite Hh1, forallb_snoc. destruct Hgood as [-> _].
    destruct (assistantMessage_shape blocks) as (_ & -> & _). reflexivity.
  - intros st0 evs0 reason _ Hturn Hgood.
    destruct reason as [e|message|].
    + apply turn_failed in Hturn as [Hv Hsends].
      rewrite (validate_well_formed _ (proj1 Hgood)) in Hv. discriminate Hv.
    + pose proof (turn_traffic World sendMessage executeTools runVerification stringify
                    injectedId REASONING_STREAM_CHUNK_SIZE dryRun callbacks st0 evs0 _ Hturn)
        as [_ Htr].
      cbv zeta in Htr. rewrite (validate_well_formed _ (proj1 Hgood)) in Htr.
      destruct Htr as (-> & _). split; [| exact I]. constructor; [exact Hgood | constructor].
    + pose proof (turn_traffic World sendMessage executeTools runVerification stringify
                    injectedId REASONING_STREAM_CHUNK_SIZE dryRun callbacks st0 evs0 _ Hturn)
        as [_ Htr].
      cbv zeta in Htr. rewrite (validate_well_formed _ (proj1 Hgood)) in Htr.
      destruct Htr as (-> & _). split; [| exact I]. constructor; [exact Hgood | constructor].
  - assert (good (initialState World w loaded userMessage)) as Hgood0.
    { split.
      - cbn. rewrite forallb_snoc, Hloaded. reflexivity.
      - exists loaded, (mkMessage user (ContentArray [TextBlock userMessage])).
        split; reflexivity. }
    destruct (HR Hgood0) as [Hsent Hend]. fold run in Heq. rewrite Heq.
    destruct res as [st'|reason|]; cbn [fst snd].
    + split; [discriminate |]. split.
      * rewrite !sends_app.
        rewrite (internal_sends (emit _ (Phase completed))) by each_event.
        rewrite (internal_sends (emit _ (Complete _ _))) by each_event.
        rewrite !app_nil_r. exact Hsent.
      * intros text st [= _ <-]. exact Hend.
    + split; [| split; [exact Hsent | discriminate]].
      intros e [= ->]. exact Hend.
    + split; [discriminate |]. split; [exact Hsent | discriminate].
Qed.

(** X10. When the runner answers every invocation with one result that
    carries the id of the invocation, a tool turn appends to the history the
    assistant message with the enforced blocks and a user message whose
    results match, one to one and in order, the invocations of that assistant
    message, injected reads included.  A dry run does the same with its
    synthesized results. *)
Theorem every_invocation_gets_its_result :
  (∀ w tu, ∃ result, (executeTools w tu).2 = [result] ∧ tool_use_id result = tu_id tu) →
  ∀ (st : LoopState World) (evs : list Event) (st' : LoopState World),
    turn st = (evs, Continue st') →
    ∃ blocks results,
      conversationHistory st'
      = conversationHistory st
        ++ [mkMessage assistant (ContentArray blocks);
            mkMessage user (ContentArray (map ToolResultBlock results))]
      ∧ map tool_use_id results = map tu_id (toolUsesOf blocks).
Proof.
  intros Hrunner st evs st' Hturn.
  apply turn_history in Hturn as (_ & blocks & results & _ & Hh & Hres).
  exists blocks, results. split; [exact Hh |].
  destruct Hres as [[_ Hids]|(_ & answers & Hids & _ & Hall)]; [exact Hids |].
  rewrite Hids. clear Hids Hh. induction Hall as [|tu answer toolUses answers [w ->] _ IH];
    [reflexivity |].
  destruct (Hrunner w tu) as (result & -> & Hid). cbn. rewrite Hid, IH. reflexivity.
Qed.

(** *** Where events come from *)

Ltac kinds := event_list; try reflexivity.

Lemma handleDeltas_kind deltas : ∀ het buf,
  Forall (fun e => fromStream e = true) (handleDeltas het buf deltas).2.
Proof.
  induction deltas as [|d rest IH]; intros het buf; simpl; [constructor |].
  assert (Forall (fun e => fromStream e = true) (handleDelta het buf d).2) as H1.
  { unfold Loop.handleDelta.
    destruct (bool_decide (delta_type d = "text")); [| constructor].
    destruct (negb het && supplied callbacks onPhase); cbn [fst snd].
    - kinds.
    - destruct (isInThinkingPhase buf); [constructor |].
      destruct (isInSummaryPhase buf); [constructor |].
      cbn [snd app]. constructor; [| constructor].
      destruct (supplied callbacks onDelta); reflexivity. }
  destruct (handleDelta het buf d) as [[het1 buf1] evs1].
  pose proof (IH het1 buf1) as H2.
  destruct (handleDeltas het1 buf1 rest) as [[het2 buf2] evs2].
  apply Forall_app_2; assumption.
Qed.

Lemma thinkingTransition_kind buf toolUses :
  Forall (fun e => fromTransition e = true) (thinkingTransition buf toolUses).2.
Proof.
  unfold Loop.thinkingTransition.
  destruct (_ && _ && (0 <? _)); [kinds |].
  destruct (_ && _ && (_ =? 0)); [kinds | constructor].
Qed.

Lemma flushSummary_kind buf : Forall (fun e => fromSummary e = true) (flushSummary buf).2.
Proof. unfold Loop.flushSummary. destruct (_ && _); [kinds | constructor]. Qed.

Lemma executeToolUsesFrom_kind toolUses : ∀ tl,
  Forall (fun e => fromTools e = true) (executeToolUsesFrom tl toolUses).2.
Proof.
  induction toolUses as [|tu rest IH]; intros tl; simpl; [constructor |].
  assert (Forall (fun e => fromTools e = true) (executeToolUse tl tu).2) as H1.
  { unfold Loop.executeToolUse, Loop.trackFileOperation.
    destruct (executeTools _ tu) as [w result].
    destruct (truthy _ && isWriteTool _).
    - destruct (if bool_decide (_ ∈ _) then _ else _) as [operation filesCreated].
      destruct (negb _); kinds.
    - kinds. }
  destruct (executeToolUse tl tu) as [tl1 evs1].
  pose proof (IH tl1) as H2.
  destruct (executeToolUsesFrom tl1 rest) as [tl2 evs2].
  apply Forall_app_2; assumption.
Qed.

(** A projection of the trace that ignores the events of a part is empty on
    that part. *)
Lemma nothing_from {A : Type} (kind : Event → bool) (f : Event → list A) (evs : list Event) :
  (∀ e, kind e = true → f e = []) → Forall (fun e => kind e = true) evs → flat_map f evs = [].
Proof.
  intros Hf Hall. apply flat_map_nil_Forall. eapply Forall_impl; [exact Hall |].
  intros e He. cbn beta. auto.
Qed.

(** A projection of the events of [afterResponse], part by part. *)
Lemma afterResponse_projection {A : Type} (f : Event → list A)
    (st : LoopState World) (response : Response) :
  let enforced :=
    Enforcer.injectReadBeforeWriteBlocks (injectedId (turnCount st)) (r_content response) in
  let tt := thinkingTransition (buffers st) enforced.2 in
  let run := executeToolUses (world st) (files st) enforced.2 in
  let results := toolResults World run.1 in
  flat_map f (afterResponse st response).1
  = flat_map f tt.2
    ++ (if 0 <? length enforced.1 then [] else f PlaceholderWarning)
    ++ (if bool_decide (enforced.2 = []) then
          flat_map f (flushSummary tt.1).2
          ++ (if hasExecutedTools st && negb dryRun
              then f (RunVerification (changedFiles st)) else [])
        else
          (if supplied callbacks onPhase then f (Phase code_writing) else [])
          ++ (if dryRun then []
              else flat_map f run.2
                   ++ match Checker.checkMissingFileReferences
                              (reportedPaths results) results enforced.2 with
                      | Some missing =>
                          if (0 <? length missing) && (0 <? length results)
                          then f (MissingRefsWarning (Checker.warningMessage missing))
                          else []
                      | None => []
                      end)).
Proof.
  cbv zeta. rewrite afterResponse_cases. cbv zeta.
  assert (∀ e : Event, flat_map f [e] = f e) as Hone by (intros e; cbn; apply app_nil_r).
  assert (∀ (b : bool) (e : Event),
            flat_map f (if b then [] else [e]) = if b then [] else f e) as Hnot
    by (intros [|] e; [reflexivity | apply Hone]).
  assert (∀ (b : bool) (e : Event),
            flat_map f (if b then [e] else []) = if b then f e else []) as Hif
    by (intros [|] e; [apply Hone | reflexivity]).
  destruct (bool_decide _); cbn [fst].
  - rewrite !flat_map_app, Hnot, Hif. reflexivity.
  - destruct dryRun; cbn [fst].
    + rewrite !flat_map_app, Hnot, flat_map_emit, app_nil_r. reflexivity.
    + destruct (Checker.checkMissingFileReferences _ _ _); cbn [fst].
      * rewrite !flat_map_app, Hnot, flat_map_emit, Hif. reflexivity.
      * rewrite !flat_map_app, Hnot, flat_map_emit, app_nil_r. reflexivity.
Qed.

(** A projection that ignores the validator's warnings, the model traffic
    and the streamed deltas only sees what follows the response. *)
Lemma turn_projection {A : Type} (f : Event → list A) (st : LoopState World) :
  (∀ w, f (ValidatorWarning w) = []) → (∀ h, f (SendMessage h) = []) →
  (∀ r, f (ModelReplied r) = []) → (∀ e, fromStream e = true → f e = []) →
  let sent := sendMessage (world st) (conversationHistory st) in
  let hd := handleDeltas (Spec.turnStart st).1 (Spec.turnStart st).2 sent.2.1 in
  let st1 :=
    mkLoopState sent.1 (conversationHistory st) (finalResponse st) (S (turnCount st))
      (changedFiles st) (hasExecutedTools st) (totalInputTokens st) (totalOutputTokens st)
      false hd.1.2 (files st) in
  flat_map f (turn st).1
  = match (Validator.validateConversationHistory (conversationHistory st)).2, sent.2.2 with
    | None, inr response => flat_map f (afterResponse st1 response).1
    | _, _ => []
    end.
Proof.
  intros Hw Hs Hr Hd. cbv zeta. rewrite turn_cases. cbv zeta.
  assert (∀ ws, flat_map f (map ValidatorWarning ws) = []) as Hws.
  { intros ws. apply flat_map_nil_Forall, Forall_map, Forall_true. exact Hw. }
  pose proof (nothing_from fromStream f _ Hd
                (handleDeltas_kind (sendMessage (world st) (conversationHistory st)).2.1
                   (Spec.turnStart st).1 (Spec.turnStart st).2)) as Hhd.
  assert (∀ ws h sr,
            flat_map f (map ValidatorWarning ws ++ [SendMessage h]
                        ++ (handleDeltas (Spec.turnStart st).1 (Spec.turnStart st).2
                              (sendMessage (world st) (conversationHistory st)).2.1).2
                        ++ [ModelReplied sr]) = []) as Hpre.
  { intros ws h sr. rewrite !flat_map_app, Hws, Hhd. cbn. rewrite Hs, Hr. reflexivity. }
  destruct (Validator.validateConversationHistory _).2; cbn [fst]; [apply Hws |].
  destruct (sendMessage _ _).2.2; cbn [fst]; [apply Hpre |].
  rewrite flat_map_app, Hpre. reflexivity.
Qed.

(** *** The returned text and the verification *)

Lemma turn_verification st evs r :
  turn st = (evs, r) →
  match r with
  | Break st' =>
      let ran := hasExecutedTools st && negb dryRun in
      verifications evs = (if ran then [changedFiles st'] else [])
      ∧ ∃ response summary,
          (sendMessage (world st) (conversationHistory st)).2.2 = inr response
          ∧ finalResponse st' = textBlocks (r_content response) +:+ summary
          ∧ (ran = false → summary = "")
          ∧ (ran = true →
             ∃ w, runVerification w (changedFiles st') = (world st', summary))
  | Continue st' =>
      verifications evs = [] ∧ finalResponse st' = finalResponse st
      ∧ hasExecutedTools st' = true
  | Abort _ => True
  end.
Proof.
  intros Hturn.
  pose proof (turn_projection verificationOf st ltac:(reflexivity) ltac:(reflexivity)
                ltac:(reflexivity)
                ltac:(intros [| | | |[]| | | | | | | | | | |]; try discriminate; reflexivity))
    as Hproj.
  cbv zeta in Hproj. unfold verifications. rewrite Hturn in Hproj. cbn [fst] in Hproj.
  rewrite Hproj. clear Hproj.
  rewrite turn_cases in Hturn. cbv zeta in Hturn.
  destruct (Validator.validateConversationHistory _).2;
    [injection Hturn as _ <-; exact I |].
  destruct (sendMessage _ _).2.2 as [message|response] eqn:Hsent;
    [injection Hturn as _ <-; exact I |].
  injection Hturn as _ <-.
  rewrite afterResponse_projection. cbv zeta. rewrite afterResponse_cases. cbv zeta.
  set (enforced := Enforcer.injectReadBeforeWriteBlocks _ (r_content response)).
  rewrite (nothing_from fromTransition verificationOf _
             ltac:(intros [| | | |[]| | | | | | | | | | |]; try discriminate; reflexivity)
             (thinkingTransition_kind _ _)).
  rewrite (nothing_from fromSummary verificationOf _
             ltac:(intros [| | | |[]| | | | | | | | | | |]; try discriminate; reflexivity)
             (flushSummary_kind _)).
  cbn [verificationOf app].
  destruct (bool_decide (enforced.2 = [])); cbn [fst snd].
  - cbn [changedFiles finalResponse hasExecutedTools world].
    destruct (hasExecutedTools st && negb dryRun).
    + split; [destruct (0 <? _); reflexivity |]. eexists response, _.
      split; [reflexivity |]. split; [reflexivity |]. split; [discriminate |].
      intros _. eexists. apply surjective_pairing.
    + split; [destruct (0 <? _); reflexivity |]. exists response, "".
      rewrite string_app_nil_r. split; [reflexivity |]. split; [reflexivity |].
      split; [reflexivity | discriminate].
  - destruct dryRun; cbn [fst snd].
    + split; [destruct (0 <? _), (supplied callbacks onPhase); reflexivity | auto].
    + unfold Loop.executeToolUses.
      rewrite (nothing_from fromTools verificationOf _
                 ltac:(intros []; try discriminate; reflexivity)
                 (executeToolUsesFrom_kind _ _)).
      destruct (Checker.checkMissingFileReferences _ _ _); cbn [fst snd]; [| exact I].
      split; [| auto].
      destruct (0 <? _), (supplied callbacks onPhase), (_ && _); reflexivity.
Qed.

Lemma last_cons_cons {A : Type} (x y : A) (l : list A) : last (x :: y :: l) = last (y :: l).
Proof. reflexivity. Qed.


(** *** File operations *)

Lemma executeToolUse_announced tl tu :
  let next := executeToolUse tl tu in
  let before := fileOpsThisRequest (tl_files World tl) in
  let after := fileOpsThisRequest (tl_files World next.1) in
  NoDup (announced next.2)
  ∧ (∀ p, In p (announced next.2) → before !! p = None)
  ∧ (∀ p, is_Some (before !! p) ∨ In p (announced next.2) → is_Some (after !! p)).
Proof.
  cbv zeta. unfold Loop.executeToolUse, Loop.trackFileOperation, announced.
  destruct (executeTools _ tu) as [w result].
  set (filePath := getField (tu_input tu) "path").
  assert (∀ (b : bool) (e : Event), (∀ s p, e ≠ FileOperation s p) →
            flat_map announcedOf (emit b e) = []) as Hother.
  { intros [|] e He; [| reflexivity]. cbn. destruct e; try reflexivity.
    exfalso. exact (He _ _ eq_refl). }
  assert (∀ (b : bool) (o : option Operation) p,
            flat_map announcedOf
              (if b then emit (supplied callbacks onFileOperation)
                             (FileOperation (completedState o) p) else []) = []) as Hdone.
  { intros [|] o p; [| reflexivity]. destruct (supplied callbacks onFileOperation); [| reflexivity].
    destruct o as [[|]|]; reflexivity. }
  destruct (truthy filePath && isWriteTool (tu_name tu)).
  - destruct (if bool_decide (_ ∈ _) then _ else _) as [operation filesCreated].
    destruct (bool_decide (is_Some (fileOpsThisRequest (tl_files World tl) !! filePath)))
      eqn:Hknown; cbn [negb fst snd tl_files fileOpsThisRequest].
    + rewrite !flat_map_app, Hdone, (Hother _ (ToolStart _ _)), (Hother _ (ToolEnd _ _)) by (intros; discriminate). cbn.
      split; [constructor |]. split; [intros p [] |]. intros p [H|[]]. exact H.
    + apply bool_decide_eq_false_1 in Hknown.
      assert (fileOpsThisRequest (tl_files World tl) !! filePath = None) as Hnone
        by (destruct (_ !! filePath); [exfalso; apply Hknown; eauto | reflexivity]).
      rewrite !flat_map_app, Hdone, (Hother _ (ToolStart _ _)), (Hother _ (ToolEnd _ _)) by (intros; discriminate). cbn [app flat_map].
      rewrite !app_nil_r.
      assert (∀ p, In p (flat_map announcedOf
                           (emit (supplied callbacks onFileOperation)
                                 (FileOperation (progressiveState operation) filePath)))
                   → p = filePath) as Hin.
      { intros p. destruct (supplied callbacks onFileOperation); [| intros []].
        destruct operation; cbn; intros [H|[]]; auto. }
      split; [| split].
      * destruct (supplied callbacks onFileOperation); [| constructor].
        destruct operation; cbn; apply NoDup_singleton.
      * intros p Hp. apply Hin in Hp as ->. exact Hnone.
      * intros p [Hp|Hp].
        -- destruct (decide (p = filePath)) as [->|Hne].
           ++ rewrite lookup_insert_eq. eauto.
           ++ rewrite lookup_insert_ne by congruence. exact Hp.
        -- apply Hin in Hp as ->. rewrite lookup_insert_eq. eauto.
  - cbn [fst snd]. rewrite !flat_map_app, Hdone, (Hother _ (ToolStart _ _)), (Hother _ (ToolEnd _ _)) by (intros; discriminate). cbn.
    split; [constructor |]. split; [intros p [] |]. intros p [H|[]]. exact H.
Qed.

Lemma executeToolUsesFrom_announced toolUses : ∀ tl,
  let next := executeToolUsesFrom tl toolUses in
  let before := fileOpsThisRequest (tl_files World tl) in
  let after := fileOpsThisRequest (tl_files World next.1) in
  NoDup (announced next.2)
  ∧ (∀ p, In p (announced next.2) → before !! p = None)
  ∧ (∀ p, is_Some (before !! p) ∨ In p (announced next.2) → is_Some (after !! p)).
Proof.
  induction toolUses as [|tu rest IH]; intros tl; cbv zeta.
  - cbn. split; [constructor |]. split; [intros p [] |]. intros p [H|[]]. exact H.
  - simpl. destruct (executeToolUse_announced tl tu) as (N1 & B1 & A1).
    destruct (executeToolUse tl tu) as [tl1 evs1].
    destruct (IH tl1) as (N2 & B2 & A2).
    destruct (executeToolUsesFrom tl1 rest) as [tl2 evs2].
    cbn [fst snd] in *. unfold announced in *. rewrite flat_map_app.
    split; [| split].
    + apply NoDup_app. split; [exact N1 |]. split; [| exact N2].
      intros p Hp1 Hp2. apply list_elem_of_In in Hp1, Hp2.
      apply B2 in Hp2. destruct (A1 p (or_intror Hp1)) as [o Ho]. congruence.
    + intros p Hp. apply in_app_or in Hp as [Hp|Hp]; [apply B1, Hp |].
      apply B2 in Hp. destruct (fileOpsThisRequest (tl_files World tl) !! p) as [o|] eqn:Hb;
        [| reflexivity].
      destruct (A1 p (or_introl (ex_intro _ o Hb))) as [o' Ho']. congruence.
    + intros p [Hp|Hp]; [apply A2; left; apply A1; left; exact Hp |].
      apply in_app_or in Hp as [Hp|Hp]; [apply A2; left; apply A1; right; exact Hp |].
      apply A2. right. exact Hp.
Qed.

Lemma turn_announced st evs r :
  turn st = (evs, r) →
  NoDup (announced evs)
  ∧ (∀ p, In p (announced evs) → fileOpsThisRequest (files st) !! p = None)
  ∧ match r with
    | Continue st' | Break st' =>
        ∀ p, is_Some (fileOpsThisRequest (files st) !! p) ∨ In p (announced evs) →
             is_Some (fileOpsThisRequest (files st') !! p)
    | Abort _ => True
    end.
Proof.
  intros Hturn.
  pose proof (turn_projection announcedOf st ltac:(reflexivity) ltac:(reflexivity)
                ltac:(reflexivity)
                ltac:(intros [| | | |[]| | | | | | | | | | |]; try discriminate; reflexivity))
    as Hproj.
  cbv zeta in Hproj. unfold announced. rewrite Hturn in Hproj. cbn [fst] in Hproj.
  rewrite Hproj. clear Hproj.
  assert (NoDup (@nil JValue) ∧ (∀ p, In p (@nil JValue) →
                                      fileOpsThisRequest (files st) !! p = None)) as Hnil
    by (split; [constructor | intros p []]).
  rewrite turn_cases in Hturn. cbv zeta in Hturn.
  destruct (Validator.validateConversationHistory _).2;
    [injection Hturn as _ <-; split; [apply Hnil | split; [apply Hnil | exact I]] |].
  destruct (sendMessage _ _).2.2 as [message|response] eqn:Hsent;
    [injection Hturn as _ <-; split; [apply Hnil | split; [apply Hnil | exact I]] |].
  injection Hturn as _ <-.
  rewrite afterResponse_projection. cbv zeta. rewrite afterResponse_cases. cbv zeta.
  set (enforced := Enforcer.injectReadBeforeWriteBlocks _ (r_content response)).
  rewrite (nothing_from fromTransition announcedOf _
             ltac:(intros [| | | |[]| | | | | | | | | | |]; try discriminate; reflexivity)
             (thinkingTransition_kind _ _)).
  rewrite (nothing_from fromSummary announcedOf _
             ltac:(intros [| | | |[]| | | | | | | | | | |]; try discriminate; reflexivity)
             (flushSummary_kind _)).
  cbn [announcedOf app files].
  assert ((if 0 <? length enforced.1 then @nil JValue else []) = []) as ->
    by (destruct (0 <? _); reflexivity).
  assert (∀ b : bool, (if b then @nil JValue else []) = []) as Hb
    by (intros [|]; reflexivity).
  destruct (bool_decide (enforced.2 = [])); cbn [fst snd files app].
  - rewrite Hb. split; [apply Hnil | split; [apply Hnil |]]. intros p [H|[]]. exact H.
  - rewrite Hb. destruct dryRun; cbn [fst snd files app].
    + split; [apply Hnil | split; [apply Hnil |]]. intros p [H|[]]. exact H.
    + unfold Loop.executeToolUses.
      match goal with
      | |- context [executeToolUsesFrom ?tl enforced.2] =>
          destruct (executeToolUsesFrom_announced enforced.2 tl) as (N & B & A);
          set (run := executeToolUsesFrom tl enforced.2) in *
      end.
      cbn [tl_files] in B, A. unfold announced in N, B, A.
      destruct (Checker.checkMissingFileReferences _ _ _); rewrite ?Hb, app_nil_r;
        cbn [snd files]; auto.
Qed.

(** X12. During a request each path is announced at most once with a
    "Creating..." or "Editing..." notification, however many invocations
    write to it and in however many turns. *)
Theorem a_path_is_announced_at_most_once :
  ∀ (w : World) (loaded : list Message) (userMessage : string),
    NoDup (announced (processRequest w loaded userMessage).1).
Proof.
  intros w loaded userMessage.
  destruct (processRequest_rect
              (fun st evs res =>
                 NoDup (announced evs)
                 ∧ ∀ p, In p (announced evs) → fileOpsThisRequest (files st) !! p = None)
              w loaded userMessage) as (evs & res & [HN _] & Heq).
  - intros st _. split; [constructor | intros p []].
  - intros st evs0 st1 evs1 res _ Hturn [N1 B1].
    apply turn_announced in Hturn as (N0 & B0 & A0).
    unfold announced in *. rewrite flat_map_app. split.
    + apply NoDup_app. split; [exact N0 |]. split; [| exact N1].
      intros p Hp0 Hp1. apply list_elem_of_In in Hp0, Hp1.
      apply B1 in Hp1. destruct (A0 p (or_intror Hp0)) as [o Ho]. congruence.
    + intros p Hp. apply in_app_or in Hp as [Hp|Hp]; [apply B0, Hp |].
      apply B1 in Hp. destruct (fileOpsThisRequest (files st) !! p) as [o|] eqn:Hb;
        [| reflexivity].
      destruct (A0 p (or_introl (ex_intro _ o Hb))) as [o' Ho']. congruence.
  - intros st evs0 st1 _ Hturn. apply turn_announced in Hturn as (N0 & B0 & _). auto.
  - intros st evs0 reason _ Hturn. apply turn_announced in Hturn as (N0 & B0 & _). auto.
  - rewrite Heq. destruct res as [st| |]; cbn [fst]; try exact HN.
    unfold announced in *. rewrite !flat_map_app, !flat_map_emit.
    destruct (supplied callbacks onPhase), (supplied callbacks onComplete);
      cbn [announcedOf]; rewrite !app_nil_r; exact HN.
Qed.

(** *** Errors that stay *)

Lemma offending_extended (h more : list Message) (idx : nat) (msg : Message) :
  h !! idx = Some msg →
  Spec.offending (length h) idx msg → Spec.offending (length (h ++ more)) idx msg.
Proof.
  intros Hidx. unfold Spec.offending. destruct (content msg) as [blocks|v]; [| auto].
  intros [Hnil Hlast]. split; [exact Hnil |]. intros [Hi Hrole]. apply Hlast.
  split; [| exact Hrole]. apply lookup_lt_Some in Hidx. rewrite length_app in Hi. lia.
Qed.

Lemma offending_restricted (h more : list Message) (idx : nat) (msg : Message) :
  idx + 1 < length h →
  Spec.offending (length (h ++ more)) idx msg → Spec.offending (length h) idx msg.
Proof.
  intros Hidx. unfold Spec.offending. destruct (content msg) as [blocks|v]; [| auto].
  intros [Hnil _]. split; [exact Hnil |]. intros [Hi _]. lia.
Qed.

Lemma validation_error_stays (h more : list Message) (e : Validator.ValidationError) :
  (Validator.validateConversationHistory h).2 = Some e →
  (Validator.validateConversationHistory (h ++ more)).2 = Some e.
Proof.
  intros Hv. destruct (validate_spec h) as (He & _ & _). cbv zeta in He.
  destruct (He e Hv) as (msg & Hidx & Hoff & Hfirst & Hshape).
  pose proof (lookup_lt_Some _ _ _ Hidx) as Hlt.
  assert ((h ++ more) !! Validator.errorIndex e = Some msg) as Hidx'
    by (apply lookup_app_l_Some; exact Hidx).
  pose proof (offending_extended h more _ msg Hidx Hoff) as Hoff'.
  destruct (validate_spec (h ++ more)) as (He' & Hn' & _). cbv zeta in He', Hn'.
  destruct (Validator.validateConversationHistory (h ++ more)).2 as [e'|];
    [| exfalso; exact (Hn' eq_refl _ msg Hidx' Hoff')].
  destruct (He' e' eq_refl) as (msg' & Hj & Hoffj & Hfirst' & Hshape').
  assert (Validator.errorIndex e' = Validator.errorIndex e) as Hsame.
  { destruct (lt_eq_lt_dec (Validator.errorIndex e') (Validator.errorIndex e))
      as [[Hlt'|Heq]|Hgt]; [| exact Heq |].
    - exfalso. assert (h !! Validator.errorIndex e' = Some msg') as Hj0.
      { rewrite lookup_app_l in Hj by lia. exact Hj. }
      apply (Hfirst _ msg' Hlt' Hj0).
      apply (offending_restricted h more); [lia | exact Hoffj].
    - exfalso. exact (Hfirst' _ msg Hgt Hidx' Hoff'). }
  rewrite Hsame in Hj, Hshape'. rewrite Hidx' in Hj. injection Hj as <-.
  destruct Hshape as [(v & Hc & ->)|[Hc ->]], Hshape' as [(v' & Hc' & ->)|[Hc' ->]];
    cbn [Validator.errorIndex] in *; try congruence.
Qed.

(** X15. A validation error is permanent: a history that the validator
    rejects is rejected with the same error whatever is appended to it, and
    every request on an agent whose history extends it throws that error
    before the model is called. *)
Theorem a_rejected_history_stays_rejected :
  ∀ (h : list Message) (e : Validator.ValidationError),
    (Validator.validateConversationHistory h).2 = Some e →
    (∀ more, (Validator.validateConversationHistory (h ++ more)).2 = Some e)
    ∧ (0 < MAX_AGENT_TURNS →
       ∀ (w : World) (more : list Message) (userMessage : string),
         let run := processRequest w (h ++ more) userMessage in
         run.2 = Threw (ValidationFailed e) ∧ Spec.sends run.1 = []).
Proof.
  intros h e Hv. split; [intros more; apply validation_error_stays, Hv |].
  intros Hmax w more userMessage run. subst run. unfold Loop.processRequest.
  set (st0 := initialState World w (h ++ more) userMessage).
  pose proof (validation_error_stays h
                (more ++ [mkMessage user (ContentArray [TextBlock userMessage])]) e Hv) as Hv'.
  rewrite app_assoc in Hv'.
  pose proof (turn_cases st0) as Hturn. cbv zeta in Hturn.
  change (conversationHistory st0)
    with ((h ++ more) ++ [mkMessage user (ContentArray [TextBlock userMessage])]) in Hturn.
  rewrite Hv' in Hturn.
  rewrite (turnLoop_abort MAX_AGENT_TURNS st0 _ _ Hmax Hmax Hturn). cbn [fst snd].
  split; [reflexivity |]. apply map_warning_projections.
Qed.

(** *** A path that is no string *)

(** X14. The missing-reference checker throws exactly when some
    [either-write] or [either-line-replace] invocation has a path that is
    neither absent nor a string, whatever the results and the created files.
    Outside a dry run such a turn ends with a [TypeError], thrown after every
    invocation of the turn has been executed; the results are not recorded. *)
Theorem a_path_that_is_no_string_makes_the_checker_throw :
  ∀ (toolUses : list ToolUse),
    let bad := ∃ tu, In tu toolUses ∧ Checker.isWriteOrEdit tu = true
                     ∧ unusablePath (getField (tu_input tu) "path") = true in
    (∀ createdFiles results,
       Checker.checkMissingFileReferences createdFiles results toolUses = None ↔ bad)
    ∧ (dryRun = false → bad →
       ∀ (st : LoopState World) (response : Response),
         (Enforcer.injectReadBeforeWriteBlocks (injectedId (turnCount st))
            (r_content response)).2 = toolUses →
         let result := afterResponse st response in
         result.2 = Abort TypeError ∧ Spec.executed result.1 = toolUses).
Proof.
  intros toolUses bad. split; [intros; apply checkMissingFileReferences_throws |].
  intros Hdry (tu & Hin & Hwrite & Hpath) st response Henf result.
  assert (Spec.executed result.1 = toolUses) as Hexec.
  { destruct result as [evs r] eqn:Hres.
    destruct (afterResponse_spec World executeTools runVerification stringify injectedId
                REASONING_STREAM_CHUNK_SIZE dryRun callbacks st response evs r Hres)
      as (_ & _ & H & _).
    cbv zeta in H. rewrite Hdry, Henf in H. exact H. }
  split; [| exact Hexec]. subst result. rewrite afterResponse_cases. cbv zeta. rewrite Henf.
  rewrite bool_decide_eq_false_2 by (intros H; rewrite H in Hin; exact Hin).
  rewrite Hdry.
  match goal with
  | |- context [Checker.checkMissingFileReferences ?c ?r toolUses] =>
      assert (Checker.checkMissingFileReferences c r toolUses = None) as ->
        by (apply checkMissingFileReferences_throws; eauto)
  end.
  reflexivity.
Qed.

(** *** What is stored for the assistant message *)

Lemma run_keeps_other_blocks ids blocks : ∀ st,
  toolUsesOf blocks = [] →
  Enforcer.out (Enforcer.run ids st blocks) = Enforcer.out st ++ blocks.
Proof.
  induction blocks as [|b blocks IH]; intros st H; simpl in *.
  - rewrite app_nil_r. reflexivity.
  - apply app_eq_nil in H as [Hb Hrest]. rewrite (IH _ Hrest).
    destruct b as [t|id name input|r|id name|tid|ty]; try discriminate Hb;
      simpl; rewrite <- app_assoc; reflexivity.
Qed.

Lemma turn_break st evs st' :
  turn st = (evs, Break st') →
  ∃ response,
    (sendMessage (world st) (conversationHistory st)).2.2 = inr response
    ∧ toolUsesOf (r_content response) = []
    ∧ conversationHistory st'
      = conversationHistory st ++ [Spec.assistantMessage (r_content response)].
Proof.
  intros Hturn. rewrite turn_cases in Hturn. cbv zeta in Hturn.
  destruct (Validator.validateConversationHistory _).2; [discriminate Hturn |].
  destruct (sendMessage _ _).2.2 as [message|response] eqn:Hsent; [discriminate Hturn |].
  injection Hturn as _ Hturn. rewrite afterResponse_cases in Hturn. cbv zeta in Hturn.
  exists response. split; [reflexivity |].
  destruct (bool_decide (_ = [])) eqn:Hnone.
  - apply bool_decide_eq_true_1, enforce_requests in Hnone. split; [exact Hnone |].
    injection Hturn as <-. cbn [conversationHistory].
    unfold Enforcer.injectReadBeforeWriteBlocks. cbn [fst].
    rewrite (run_keeps_other_blocks _ _ _ Hnone). reflexivity.
  - destruct dryRun; [discriminate Hturn |].
    destruct (Checker.checkMissingFileReferences _ _ _); [| discriminate Hturn].
    destruct (bool_decide _); discriminate Hturn.
Qed.

(** X19. What the database agent stores for the assistant message when the
    request returns.  If the last reply of the model asked for no tools, it
    is the block list of that reply (the placeholder block when the reply is
    empty), so the verification summary that ends the returned text is not
    stored.  If the last reply asked for tools (the turn ceiling was reached)
    or the model was never called, the history ends with a user message and
    what is stored is the object holding the returned text, which is
    empty. *)
Theorem stored_content_of_a_returning_request :
  ∀ (w : World) (loaded : list Message) (userMessage : string)
    (text : string) (st : LoopState World),
    let run := processRequest w loaded userMessage in
    run.2 = Returned text st →
    let saved := DatabaseAgent.contentToSave (conversationHistory st) text in
    match last (Spec.replies run.1) with
    | Some r =>
        if Spec.requestsTools r then saved = inr ""
        else ∃ response,
               r.2 = inr response
               ∧ saved = inl (ContentArray
                                (match r_content response with
                                 | [] => [TextBlock "..."]
                                 | _ => r_content response
                                 end))
    | None => saved = inr ""
    end.
Proof.
  intros w loaded userMessage text st run Hrun.
  destruct (processRequest_rect
              (fun st evs res =>
                 match res with
                 | Exited st' =>
                     match last (Spec.replies evs) with
                     | Some r =>
                         if Spec.requestsTools r
                         then finalResponse st' = finalResponse st
                              ∧ ∃ init final, conversationHistory st' = init ++ [final]
                                              ∧ role final = user
                         else ∃ response init,
                                r.2 = inr response
                                ∧ conversationHistory st'
                                  = init ++ [Spec.assistantMessage (r_content response)]
                     | None => finalResponse st' = finalResponse st
                               ∧ conversationHistory st' = conversationHistory st
                     end
                 | _ => True
                 end) w loaded userMessage) as (evs & res & HR & Heq).
  - intros st0 _. cbn. auto.
  - intros st0 evs0 st1 evs1 res _ Hturn IH. destruct res as [st2| |]; try exact I.
    destruct (turn_passed st0 evs0 _ Hturn ltac:(discriminate)) as (_ & _ & Hrep).
    pose proof (turn_history st0 evs0 _ Hturn) as (Htools & blocks & results & _ & Hh & _).
    apply turn_verification in Hturn as (_ & Hfinal & _).
    rewrite replies_app, Hrep. cbn [app].
    destruct (Spec.replies evs1) as [|r1 rs1] eqn:Hrs1.
    + cbn [last]. rewrite Htools. destruct IH as [IH1 IH2].
      split; [congruence |]. rewrite IH2, Hh.
      exists (conversationHistory st0 ++ [mkMessage assistant (ContentArray blocks)]),
        (mkMessage user (ContentArray (map ToolResultBlock results))).
      split; [rewrite <- app_assoc; reflexivity | reflexivity].
    + rewrite last_cons_cons. destruct (last (r1 :: rs1)) as [r|] eqn:Hlast.
      * destruct (Spec.requestsTools r); [| exact IH].
        destruct IH as [IH1 IH2]. split; [congruence | exact IH2].
      * apply last_None in Hlast. discriminate Hlast.
  - intros st0 evs0 st1 _ Hturn.
    destruct (turn_passed st0 evs0 _ Hturn ltac:(discriminate)) as (_ & _ & Hrep).
    pose proof (turn_history st0 evs0 _ Hturn) as [Htools _].
    apply turn_break in Hturn as (response & Hsent & _ & Hh).
    rewrite Hrep. cbn [last]. rewrite Htools.
    exists response, (conversationHistory st0). split; [exact Hsent | exact Hh].
  - intros. exact I.
  - fold run in Heq. rewrite Heq in Hrun. destruct res as [st'| |]; try discriminate Hrun.
    cbn [snd] in Hrun. injection Hrun as <- <-.
    cbv zeta. rewrite Heq. cbn [fst].
    rewrite !replies_app.
    rewrite (internal_replies (emit _ (Phase completed))) by each_event.
    rewrite (internal_replies (emit _ (Complete _ _))) by each_event.
    rewrite !app_nil_r.
    unfold DatabaseAgent.contentToSave.
    destruct (last (Spec.replies evs)) as [r|].
    + destruct (Spec.requestsTools r).
      * destruct HR as (Hfinal & init & final & -> & Hrole).
        rewrite last_snoc. rewrite bool_decide_eq_false_2 by (rewrite Hrole; discriminate).
        rewrite Hfinal. reflexivity.
      * destruct HR as (response & init & Hsent & ->). exists response.
        split; [exact Hsent |]. rewrite last_snoc.
        destruct (assistantMessage_shape (r_content response)) as (Hrole & _ & _).
        rewrite bool_decide_eq_true_2 by exact Hrole.
        unfold Spec.assistantMessage. destruct (r_content response); reflexivity.
    + destruct HR as [Hfinal ->]. cbn [initialState conversationHistory].
      rewrite last_snoc. cbn [role]. rewrite bool_decide_eq_false_2 by discriminate.
      rewrite Hfinal. reflexivity.
Qed.

End LoopMore.

(** *** The conversion of the stored history *)

Section Conversion.

Import DatabaseAgent.

Variable numberToString : Z → string.
Variable stringify : Json → string.
Variable view : Json → ContentBlock.

Local Abbreviation cleanup := (DatabaseAgent.cleanupInvalidRedactedThinkingBlocks numberToString).
Local Abbreviation convertContent := (DatabaseAgent.convertContent numberToString stringify).
Local Abbreviation convertHistory := (DatabaseAgent.convertHistory numberToString stringify).

Lemma convertContent_cases (content : Json) :
  match content with
  | JsonArray items => convertContent content = cleanup items
  | _ => ∃ text, convertContent content = Some [textBlock text]
  end.
Proof.
  destruct content as [|b|n|s|items|fields]; cbn; eauto.
  destruct (truthyField (fields !! "text")); eauto.
Qed.

Lemma convertHistory_cons (msg : StoredMessage) (rest : list StoredMessage) :
  convertHistory (msg :: rest)
  = match roleOf (stored_role msg) with
    | Some r =>
        blocks ← convertContent (stored_content msg);
        converted ← convertHistory rest;
        Some ((r, blocks) :: converted)
    | None => convertHistory rest
    end.
Proof. reflexivity. Qed.

(** X18. The conversion of the stored messages keeps the user and assistant
    messages, in order, and throws exactly when the content of one of them is
    a list on which the cleanup throws: it contains [null], or a
    [redacted_thinking] block with truthy data that has no string form.  A content that is not a list becomes one
    text block, so a converted message is empty only if its stored content is
    a list that the cleanup leaves empty.  When no converted message is empty,
    the history that the agent validates at the start of the request (the
    converted messages followed by the new user message) passes the
    validation. *)
Theorem converted_history_is_well_formed :
  ∀ (stored : list StoredMessage),
    (convertHistory stored = None
     ↔ ∃ msg items block,
         In msg stored ∧ roleOf (stored_role msg) ≠ None
         ∧ stored_content msg = JsonArray items
         ∧ In block items ∧ throwing block = true)
    ∧ ∀ converted, convertHistory stored = Some converted →
        map fst converted = omap (fun msg => roleOf (stored_role msg)) stored
        ∧ (∀ entry, In entry converted → entry.2 = [] →
             ∃ msg items, In msg stored ∧ stored_content msg = JsonArray items
                          ∧ cleanup items = Some [])
        ∧ (Forall (fun entry : Role * list Json => entry.2 ≠ []) converted →
           ∀ userMessage,
             (Validator.validateConversationHistory
                (map (loadedMessage view) converted
                 ++ [mkMessage user (ContentArray [TextBlock userMessage])])).2 = None).
Proof.
  intros stored. split.
  - induction stored as [|msg rest IH].
    + split; [discriminate | intros (msg & items & block & [] & _)].
    + rewrite convertHistory_cons. destruct (roleOf (stored_role msg)) as [r|] eqn:Hrole.
      * pose proof (convertContent_cases (stored_content msg)) as Hc.
        destruct (convertContent (stored_content msg)) as [blocks|] eqn:Hcontent; cbn.
        -- destruct (convertHistory rest) as [converted|] eqn:Hrest; cbn.
           ++ split; [discriminate |].
              intros (m & items & block & [<-|Hin] & Hr & Hs & Hblock & Hthrows).
              ** rewrite Hs in Hc.
                 assert (cleanup items = None) as Hnone
                   by (apply (cleanup_throws numberToString); eauto).
                 congruence.
              ** assert (Some converted = None) as H by (apply IH; eauto 8).
                 discriminate H.
           ++ split; [| reflexivity]. intros _.
              destruct (proj1 IH eq_refl) as (m & items & block & Hin & H).
              exists m, items, block. split; [right; exact Hin | exact H].
        -- split; [| reflexivity]. intros _.
           destruct (stored_content msg) as [|b|n|s|items|fields] eqn:Hs;
             try (destruct Hc; discriminate).
           assert (cleanup items = None) as Hnone by congruence.
           apply (cleanup_throws numberToString) in Hnone as (block & Hblock & Hthrows).
           exists msg, items, block. split; [left; reflexivity |]. split; [congruence |].
           auto.
      * rewrite IH. split.
        -- intros (m & items & block & Hin & H). exists m, items, block.
           split; [right; exact Hin | exact H].
        -- intros (m & items & block & [<-|Hin] & Hr & H); [congruence |]. eauto 8.
  - induction stored as [|msg rest IH]; intros converted.
    + intros [= <-]. split; [reflexivity |]. split; [intros entry [] |].
      intros _ userMessage. reflexivity.
    + rewrite convertHistory_cons. cbn [omap list_omap].
      destruct (roleOf (stored_role msg)) as [r|] eqn:Hrole.
      * pose proof (convertContent_cases (stored_content msg)) as Hc.
        destruct (convertContent (stored_content msg)) as [blocks|]; cbn; [| discriminate].
        destruct (convertHistory rest) as [converted'|]; cbn; [| discriminate].
        intros [= <-]. destruct (IH converted' eq_refl) as (Hroles & Hempty & Hvalid).
        split; [cbn; rewrite Hroles; reflexivity |]. split.
        -- intros entry [<-|Hin] Hnil.
           ++ cbn in Hnil. subst blocks.
              destruct (stored_content msg) as [|b|n|s|items|fields] eqn:Hs;
                try (destruct Hc; discriminate).
              exists msg, items. split; [left; reflexivity |]. split; [exact Hs |].
              symmetry. exact Hc.
           ++ destruct (Hempty entry Hin Hnil) as (m & items & Hm & H).
              exists m, items. split; [right; exact Hm | exact H].
        -- intros Hall userMessage. apply validate_well_formed.
           rewrite forallb_app. cbn [forallb hasBlocks content andb].
           rewrite andb_true_r. apply forallb_forall. intros m Hm.
           apply in_map_iff in Hm as (entry & <- & Hin).
           rewrite Forall_forall in Hall. apply list_elem_of_In in Hin. specialize (Hall entry Hin).
           unfold hasBlocks, loadedMessage. cbn [content].
           destruct entry.2; [contradiction | reflexivity].
      * intros Hrest. destruct (IH converted Hrest) as (Hroles & Hempty & Hvalid).
        split; [exact Hroles |]. split; [| exact Hvalid].
        intros entry Hin Hnil. destruct (Hempty entry Hin Hnil) as (m & items & Hm & H).
        exists m, items. split; [right; exact Hm | exact H].
Qed.

End Conversion.

(** ** The further properties on concrete inputs *)

Lemma dry_run_synthesizes_the_results_witness :
  let st := Loop.initialState nat 0 [] "Build the app" in
  let write := Scenario.write "toolu_1" "src/App.tsx"
                 "export default function App() { return null }" in
  let next := Loop.turn nat (Scenario.send Scenario.toolsWithoutText) Scenario.runner
                Scenario.verifier Scenario.stringify Scenario.ids 3%positive true
                Scenario.allCallbacks st in
  ∃ st',
    next.2 = Continue st'
    ∧ world st' = 1
    ∧ conversationHistory st'
      = conversationHistory st
        ++ [mkMessage assistant (ContentArray [write]);
            mkMessage user
              (ContentArray
                 [ToolResultBlock
                    (mkToolResult "toolu_1"
                       "[DRY RUN] Would execute: either-write with input: {}"
                       false JUndefined)])].
Proof.
  intros st write next.
  assert (∃ evs st', next = (evs, Continue st')) as (evs & st' & Hnext)
    by (eexists _, _; vm_compute; reflexivity).
  pose proof (dry_run_synthesizes_the_results nat (Scenario.send Scenario.toolsWithoutText)
                Scenario.runner Scenario.verifier Scenario.stringify Scenario.ids 3%positive
                true Scenario.allCallbacks eq_refl st evs _ Hnext)
    as (Hworld & _ & _ & response & Hsent & Hh).
  exists st'. split; [rewrite Hnext; reflexivity |].
  split; [rewrite Hworld; reflexivity |].
  injection Hsent as <-. exact Hh.
Defined.

Lemma history_grows_by_one_exchange_per_turn_witness :
  let run := Scenario.request Scenario.createThenEdit false Scenario.allCallbacks in
  ∃ text st added,
    run.2 = Returned text st
    ∧ conversationHistory st
      = [] ++ mkMessage user (ContentArray [TextBlock "Build the app"]) :: added
    ∧ map role added = [assistant; user; assistant; user; assistant].
Proof.
  intros run.
  assert (∃ text st, run.2 = Returned text st) as (text & st & Hrun)
    by (eexists _, _; vm_compute; reflexivity).
  destruct (history_grows_by_one_exchange_per_turn nat
              (Scenario.send Scenario.createThenEdit) Scenario.runner Scenario.verifier
              Scenario.stringify Scenario.ids 20 3%positive false Scenario.allCallbacks
              0 [] "Build the app" text st Hrun) as (added & Hh & Hroles & _).
  exists text, st, added. split; [exact Hrun |]. split; [exact Hh |].
  rewrite Hroles. vm_compute. reflexivity.
Defined.

(** The loaded history ends with an empty assistant placeholder: the
    validator accepts it as it is, and the request still fails. *)
Lemma malformed_loaded_history_fails_before_the_model_is_called_witness :
  let loaded := [mkMessage user (ContentArray [TextBlock "hi"]);
                 mkMessage assistant (ContentArray [])] in
  let run := Loop.processRequest nat (Scenario.send Scenario.createThenEdit) Scenario.runner
               Scenario.verifier Scenario.stringify Scenario.ids 20 3%positive false
               Scenario.allCallbacks 0 loaded "Build the app" in
  (Validator.validateConversationHistory loaded).2 = None
  ∧ ∃ e, run.2 = Threw (ValidationFailed e) ∧ Validator.errorIndex e ≤ 1
         ∧ Spec.sends run.1 = [].
Proof.
  intros loaded run. split; [reflexivity |].
  apply (malformed_loaded_history_fails_before_the_model_is_called nat
           (Scenario.send Scenario.createThenEdit) Scenario.runner Scenario.verifier
           Scenario.stringify Scenario.ids 20 3%positive false Scenario.allCallbacks
           ltac:(lia) 0 loaded "Build the app" 1 (mkMessage assistant (ContentArray []))).
  - reflexivity.
  - reflexivity.
Defined.

Lemma well_formed_history_stays_well_formed_witness :
  let run := Scenario.request Scenario.createThenEdit false Scenario.allCallbacks in
  (∀ w tu, (Scenario.runner w tu).2 ≠ [])
  ∧ (∀ e, run.2 ≠ Threw (ValidationFailed e))
  ∧ length (Spec.sends run.1) = 3.
Proof.
  intros run.
  assert (∀ w tu, (Scenario.runner w tu).2 ≠ []) as Hrunner by (intros w tu; discriminate).
  split; [exact Hrunner |]. split; [| vm_compute; reflexivity].
  apply (well_formed_history_stays_well_formed nat (Scenario.send Scenario.createThenEdit)
           Scenario.runner Scenario.verifier Scenario.stringify Scenario.ids 20 3%positive
           false Scenario.allCallbacks (or_intror Hrunner) 0 [] "Build the app" eq_refl).
Defined.

Lemma every_invocation_gets_its_result_witness :
  let st := Loop.initialState nat 0 [] "Build the app" in
  let next := Loop.turn nat (Scenario.send (tail Scenario.createThenEdit)) Scenario.runner
                Scenario.verifier Scenario.stringify Scenario.ids 3%positive false
                Scenario.allCallbacks st in
  (∀ w tu, ∃ result, (Scenario.runner w tu).2 = [result] ∧ tool_use_id result = tu_id tu)
  ∧ ∃ st' blocks results,
      next.2 = Continue st'
      ∧ conversationHistory st'
        = conversationHistory st
          ++ [mkMessage assistant (ContentArray blocks);
              mkMessage user (ContentArray (map ToolResultBlock results))]
      ∧ map tool_use_id results = map tu_id (toolUsesOf blocks).
Proof.
  intros st next.
  assert (∀ w tu, ∃ result, (Scenario.runner w tu).2 = [result]
                            ∧ tool_use_id result = tu_id tu) as Hrunner
    by (intros w tu; eexists; split; reflexivity).
  split; [exact Hrunner |].
  assert (∃ evs st', next = (evs, Continue st')) as (evs & st' & Hnext)
    by (eexists _, _; vm_compute; reflexivity).
  destruct (every_invocation_gets_its_result nat
              (Scenario.send (tail Scenario.createThenEdit)) Scenario.runner
              Scenario.verifier Scenario.stringify Scenario.ids 3%positive false
              Scenario.allCallbacks Hrunner st evs st' Hnext)
    as (blocks & results & Hh & Hids).
  exists st', blocks, results. split; [rewrite Hnext; reflexivity |]. auto.
Defined.


Lemma buffered_text_is_streamed_whole_witness :
  let buf := Loop.mkBuffers "Let me look at the files." true "" false in
  let write := mkToolUse "toolu_1" "either-write" (Some {[ "path" := JStr "a.txt" ]}) in
  concatenation
    (flat_map reasoningOf
       (Loop.thinkingTransition 3%positive Scenario.allCallbacks buf [write]).2)
  = "Let me look at the files.".
Proof.
  intros buf write.
  apply (buffered_text_is_streamed_whole 3%positive Scenario.allCallbacks buf [write]).
  - reflexivity.
  - reflexivity.
  - discriminate.
Defined.

Lemma every_action_is_permitted_witness :
  let run := Scenario.request Scenario.createThenEdit true Scenario.allCallbacks in
  Forall (fun e => actsOnWorkspace e = false) run.1.
Proof.
  intros run.
  apply (every_action_is_permitted nat (Scenario.send Scenario.createThenEdit)
           Scenario.runner Scenario.verifier Scenario.stringify Scenario.ids 20 3%positive
           true Scenario.allCallbacks 0 [] "Build the app").
  reflexivity.
Defined.

Lemma more_created_files_mean_fewer_findings_witness :
  let page := "<html><script src='main.js'></script></html>" in
  let results := [mkToolResult "toolu_1" "ok" false (JStr "index.html")] in
  let toolUses := [mkToolUse "toolu_1" "either-write"
                     (Some {[ "path" := JStr "index.html"; "content" := JStr page ]})] in
  let small : gset JValue := {[ JStr "index.html" ]} in
  let large : gset JValue := {[ JStr "index.html"; JStr "main.js" ]} in
  small ⊆ large
  ∧ Checker.checkMissingFileReferences large results toolUses = Some []
  ∧ ∃ more, Checker.checkMissingFileReferences small results toolUses = Some more
            ∧ sublist [] more.
Proof.
  intros page results toolUses small large.
  assert (small ⊆ large) as Hsub by (subst small large; set_solver).
  assert (Checker.checkMissingFileReferences large results toolUses = Some []) as Hc
    by (vm_compute; reflexivity).
  split; [exact Hsub |]. split; [exact Hc |].
  exact (more_created_files_mean_fewer_findings small large results toolUses [] Hsub Hc).
Defined.

Lemma a_path_that_is_no_string_makes_the_checker_throw_witness :
  let tu := mkToolUse "toolu_1" "either-write"
              (Some {[ "path" := JNum 7; "content" := JStr "x" ]}) in
  Checker.checkMissingFileReferences ∅ [] [tu] = None.
Proof.
  intros tu.
  apply (proj1 (a_path_that_is_no_string_makes_the_checker_throw nat Scenario.runner
                  Scenario.verifier Scenario.stringify Scenario.ids 3%positive false
                  Scenario.allCallbacks [tu])).
  exists tu. split; [left; reflexivity |]. split; vm_compute; reflexivity.
Defined.

Lemma a_rejected_history_stays_rejected_witness :
  let h := [mkMessage user (ContentArray []);
            mkMessage assistant (ContentArray [TextBlock "Hello"])] in
  let more := [mkMessage user (ContentArray [TextBlock "And now?"])] in
  (Validator.validateConversationHistory h).2 = Some (Validator.EmptyContentArray 0)
  ∧ (Validator.validateConversationHistory (h ++ more)).2
    = Some (Validator.EmptyContentArray 0).
Proof.
  intros h more.
  assert ((Validator.validateConversationHistory h).2
          = Some (Validator.EmptyContentArray 0)) as Hv by reflexivity.
  split; [exact Hv |].
  apply (a_rejected_history_stays_rejected nat (Scenario.send Scenario.createThenEdit)
           Scenario.runner Scenario.verifier Scenario.stringify Scenario.ids 20 3%positive
           false Scenario.allCallbacks h _ Hv).
Defined.

Lemma cleanup_removes_the_fake_blocks_witness :
  let fake := DatabaseAgent.JsonObject
                {[ "type" := DatabaseAgent.JsonString "redacted_thinking";
                   "data" := DatabaseAgent.JsonString "[redacted]";
                   "text" := DatabaseAgent.JsonString "The user wants a counter." ]} in
  let broken := DatabaseAgent.JsonObject
                  {[ "type" := DatabaseAgent.JsonString "redacted_thinking";
                     "data" := DatabaseAgent.JsonObject
                                 {[ "toString" := DatabaseAgent.JsonNumber 1 ]} ]} in
  let answer := DatabaseAgent.textBlock (DatabaseAgent.JsonString "Here is the counter.") in
  let out := [DatabaseAgent.thinkingBlock (DatabaseAgent.JsonString "The user wants a counter.");
              answer] in
  DatabaseAgent.cleanupInvalidRedactedThinkingBlocks pretty [fake; answer] = Some out
  ∧ forallb (sound pretty) out = true
  ∧ DatabaseAgent.cleanupInvalidRedactedThinkingBlocks pretty out = Some out
  ∧ DatabaseAgent.cleanupInvalidRedactedThinkingBlocks pretty [answer; broken] = None.
Proof.
  intros fake broken answer out.
  assert (DatabaseAgent.cleanupInvalidRedactedThinkingBlocks pretty [fake; answer]
          = Some out) as Hc by (vm_compute; reflexivity).
  split; [exact Hc |].
  destruct (proj2 (cleanup_removes_the_fake_blocks pretty [fake; answer]) out Hc)
    as (Hsound & _ & _ & _ & Hagain).
  split; [exact Hsound |]. split; [exact Hagain |].
  apply (proj1 (cleanup_removes_the_fake_blocks pretty [answer; broken])).
  exists broken. split; [right; left; reflexivity | vm_compute; reflexivity].
Defined.

Lemma converted_history_is_well_formed_witness :
  let stored :=
    [DatabaseAgent.mkStored "user" (DatabaseAgent.JsonString "Build a counter");
     DatabaseAgent.mkStored "system" (DatabaseAgent.JsonString "note");
     DatabaseAgent.mkStored "assistant"
       (DatabaseAgent.JsonObject {[ "text" := DatabaseAgent.JsonString "Done." ]})] in
  let view := fun block : DatabaseAgent.Json =>
                match DatabaseAgent.get block "text" with
                | Some (DatabaseAgent.JsonString text) => TextBlock text
                | _ => TextBlock ""
                end in
  ∃ converted,
    DatabaseAgent.convertHistory pretty (fun _ => "{}") stored = Some converted
    ∧ map fst converted = [user; assistant]
    ∧ (Validator.validateConversationHistory
         (map (loadedMessage view) converted
          ++ [mkMessage user (ContentArray [TextBlock "Add a reset button"])])).2 = None.
Proof.
  intros stored view. eexists.
  split; [vm_compute; reflexivity |].
  match goal with
  | |- map fst ?converted = _ ∧ _ =>
      destruct (proj2 (converted_history_is_well_formed pretty (fun _ => "{}") view stored)
                  converted ltac:(vm_compute; reflexivity)) as (Hroles & _ & Hvalid)
  end.
  split; [rewrite Hroles; vm_compute; reflexivity |].
  apply Hvalid. repeat constructor; discriminate.
Defined.

Lemma stored_content_of_a_returning_request_witness :
  let run := Scenario.request Scenario.createThenEdit false Scenario.allCallbacks in
  ∃ text st,
    run.2 = Returned text st
    ∧ DatabaseAgent.contentToSave (conversationHistory st) text
      = inl (ContentArray [TextBlock "The app is ready."]).
Proof.
  intros run. eexists _, _. split; [vm_compute; reflexivity |].
  match goal with
  | |- DatabaseAgent.contentToSave (conversationHistory ?st) ?text = _ =>
      pose proof (stored_content_of_a_returning_request nat
                    (Scenario.send Scenario.createThenEdit) Scenario.runner Scenario.verifier
                    Scenario.stringify Scenario.ids 20 3%positive false Scenario.allCallbacks
                    0 [] "Build the app" text st ltac:(vm_compute; reflexivity)) as H
  end.
  cbv zeta in H.
  assert (Spec.replies (Scenario.request Scenario.createThenEdit false
                          Scenario.allCallbacks).1
          = Scenario.createThenEdit) as Hrs by (vm_compute; reflexivity).
  unfold Scenario.request in Hrs. rewrite Hrs in H.
  cbn [last Scenario.createThenEdit] in H.
  destruct H as (response & Hsent & Hsaved).
  injection Hsent as <-. exact Hsaved.
Defined.
